(** * Amazon search scraper: the crawl-and-extract pipeline of [src/main.py]

    A shallow embedding of [_normalize_input], [_country_to_domain],
    [_parse_single_card], [_extract_product_cards], [_scrape_keyword] and the
    keyword loop of [main], followed by the properties proved about them.

    Conventions of the embedding.
    - A Python [str] is a list of Unicode code points ([list N]).
    - A Python [int] is a [Z]; a Python [float] is an IEEE 754 binary64 value,
      [spec_float] of the Standard Library with [prec = 53], [emax = 1024].
    - An expression that may raise evaluates to a [res]: [Ok v] or [Raise e].
    - What the browser answers is data of the model: every awaited Playwright
      call reads its outcome from a record describing the page or the card. *)

From Stdlib Require Import ZArith NArith List Bool String Ascii Lia Floats.
From stdpp Require Import base option list gmap.

Local Open Scope N_scope.

(** ** Strings *)

Abbreviation str := (list N).

(** Byte sequences of Rocq string literals are read as UTF-8, so that the
    literals of the source can be written as they are. *)
Fixpoint utf8_decode (bs : list N) : str :=
  match bs with
  | [] => []
  | b :: t =>
      if b <? 128 then b :: utf8_decode t
      else if b <? 224 then
        match t with
        | b1 :: t1 => ((b - 192) * 64 + (b1 - 128)) :: utf8_decode t1
        | _ => [b]
        end
      else if b <? 240 then
        match t with
        | b1 :: b2 :: t2 =>
            ((b - 224) * 4096 + (b1 - 128) * 64 + (b2 - 128)) :: utf8_decode t2
        | _ => [b]
        end
      else
        match t with
        | b1 :: b2 :: b3 :: t3 =>
            ((b - 240) * 262144 + (b1 - 128) * 4096 + (b2 - 128) * 64 + (b3 - 128))
              :: utf8_decode t3
        | _ => [b]
        end
  end.

Definition lit (s : string) : str :=
  utf8_decode (map N_of_ascii (list_ascii_of_string s)).

(** [str.isspace] of one code point (CPython's [_PyUnicode_IsWhitespace]). *)
Definition isspace (c : N) : bool :=
  ((9 <=? c) && (c <=? 13)) || ((28 <=? c) && (c <=? 32))
  || (c =? 133) || (c =? 160) || (c =? 5760)
  || ((8192 <=? c) && (c <=? 8202))
  || (c =? 8232) || (c =? 8233) || (c =? 8239) || (c =? 8287) || (c =? 12288).

(** C-locale [isspace], used by [int()] and [float()] once the text has been
    brought to ASCII ([Py_ISSPACE]). *)
Definition c_isspace (c : N) : bool :=
  ((9 <=? c) && (c <=? 13)) || (c =? 32).

Definition is_ascii_digit (c : N) : bool := (48 <=? c) && (c <=? 57).

Definition is_ascii (c : N) : bool := c <? 128.

Definition ascii_lower (c : N) : N :=
  if (65 <=? c) && (c <=? 90) then c + 32 else c.

Definition ascii_upper (c : N) : N :=
  if (97 <=? c) && (c <=? 122) then c - 32 else c.

(** The parts of the Python runtime that the repository does not contain: the
    Unicode character database beyond ASCII and the interpreter's limit on
    the length of integer literals. They are parameters of the embedding;
    on ASCII text the definitions below do not consult them. *)
Class Runtime := {
  (** [str.isdigit] of a code point from 128 on *)
  ucd_isdigit : N -> bool;
  (** [Py_UNICODE_TODECIMAL] of a code point from 127 on *)
  ucd_decimal : N -> option N;
  (** [str.lower] of a string that is not pure ASCII *)
  ucd_lower : str -> str;
  (** [str.upper] of a string that is not pure ASCII *)
  ucd_upper : str -> str;
  (** [sys.get_int_max_str_digits()]; 0 switches the limit off *)
  int_max_str_digits : N
}.

Fixpoint lstrip_with (p : N -> bool) (s : str) : str :=
  match s with
  | [] => []
  | c :: t => if p c then lstrip_with p t else s
  end.

Definition strip_with (p : N -> bool) (s : str) : str :=
  rev (lstrip_with p (rev (lstrip_with p s))).

(** [s.strip()] *)
Definition strip (s : str) : str := strip_with isspace s.

(** [s.split()]: the maximal runs of non-whitespace, in order. [cur] is the
    current run, reversed. *)
Fixpoint split_ws_from (cur : str) (s : str) : list str :=
  match s with
  | [] => match cur with [] => [] | _ => [rev cur] end
  | c :: t =>
      if isspace c then
        match cur with
        | [] => split_ws_from [] t
        | _ => rev cur :: split_ws_from [] t
        end
      else split_ws_from (c :: cur) t
  end.

Definition split_ws (s : str) : list str := split_ws_from [] s.

(** [s.split(sep)] for a one-character separator: never empty. *)
Fixpoint split_on (sep : N) (s : str) : list str :=
  match s with
  | [] => [[]]
  | c :: t =>
      if c =? sep then [] :: split_on sep t
      else match split_on sep t with
           | h :: r => (c :: h) :: r
           | [] => [[c]]
           end
  end.

(** [s.replace(old, new)] for a one-character [old]. *)
Definition replace (old : N) (new : str) (s : str) : str :=
  concat (map (fun c => if c =? old then new else [c]) s).

Fixpoint startswith (p s : str) : bool :=
  match p, s with
  | [], _ => true
  | _ :: _, [] => false
  | a :: p', b :: s' => (a =? b) && startswith p' s'
  end.

(** [needle in hay] *)
Fixpoint contains (needle hay : str) : bool :=
  startswith needle hay
  || match hay with
     | [] => false
     | _ :: t => contains needle t
     end.

Definition str_eqb (a b : str) : bool := bool_decide (a = b).

Definition str_in (s : str) (l : list str) : bool := existsb (str_eqb s) l.

(** ** Exceptions and results *)

(** The exception classes that the modelled code can meet. All of them derive
    from [Exception]. *)
Inductive exn :=
| TypeError
| ValueError
| AttributeError
| OverflowError
| IndexError
| PlaywrightTimeoutError
| PlaywrightError
| AsyncioTimeoutError
| OtherError (name : string).

Inductive res (A : Type) :=
| Ok (a : A)
| Raise (e : exn).
Arguments Ok {A} a.
Arguments Raise {A} e.

Definition bind {A B} (m : res A) (k : A -> res B) : res B :=
  match m with
  | Ok a => k a
  | Raise e => Raise e
  end.

Notation "x <- m ;; k" := (bind m (fun x => k))
  (at level 100, m at next level, right associativity).

(** [try: m  except (TypeError, ValueError): h] *)
Definition except_type_value {A} (m : res A) (h : A) : res A :=
  match m with
  | Raise TypeError | Raise ValueError => Ok h
  | _ => m
  end.

(** [l[0]] and [l[-1]] *)
Definition index_first {A} (l : list A) : res A :=
  match l with
  | [] => Raise IndexError
  | x :: _ => Ok x
  end.

Definition index_last {A} (l : list A) : res A :=
  match rev l with
  | [] => Raise IndexError
  | x :: _ => Ok x
  end.

(** ** Numbers *)

Abbreviation float := spec_float.

Definition b64_round (neg : bool) (m : positive) (e : Z) : float :=
  binary_round prec emax neg m e.

(** The binary64 value nearest to [m * 10^e10] (ties to even), as [float()]
    computes it from a decimal numeral. For a negative exponent the quotient
    is taken with at least 53 significant bits and the position of the exact
    value between two quotients is handed to the rounding step. *)
Definition round_decimal (neg : bool) (m : N) (e10 : Z) : float :=
  match m with
  | N0 => S754_zero neg
  | Npos p =>
      if (0 <=? e10)%Z then b64_round neg (p * Z.to_pos (10 ^ e10))%positive 0
      else
        let d := (10 ^ (- e10))%Z in
        let s := Z.max 0 (prec + Z.log2 d + 2 - Z.log2 (Zpos p)) in
        let n := Z.shiftl (Zpos p) s in
        let q := (n / d)%Z in
        let r := (n mod d)%Z in
        let l := if (r =? 0)%Z then SpecFloat.loc_Exact
                 else SpecFloat.loc_Inexact (2 * r ?= d)%Z in
        binary_round_aux prec emax neg q (- s) l
  end.

Definition float_is_zero (f : float) : bool :=
  match f with
  | S754_zero _ => true
  | _ => false
  end.

(** [int(f)]: truncation towards zero *)
Definition int_of_float (f : float) : res Z :=
  match f with
  | S754_zero _ => Ok 0%Z
  | S754_nan => Raise ValueError
  | S754_infinity _ => Raise OverflowError
  | S754_finite s m e =>
      let a := if (0 <=? e)%Z then Z.shiftl (Zpos m) e
               else Z.shiftr (Zpos m) (- e) in
      Ok (if s then (- a)%Z else a)
  end.

(** [float(n)] for an [int] *)
Definition float_of_int (n : Z) : res float :=
  match binary_normalize prec emax n 0 false with
  | S754_infinity _ => Raise OverflowError
  | f => Ok f
  end.

(** [a < b] on floats *)
Definition float_ltb (a b : float) : bool := SFltb a b.

Fixpoint digits_value (acc : N) (ds : str) : N :=
  match ds with
  | [] => acc
  | c :: t => digits_value (acc * 10 + (c - 48)) t
  end.

(** The longest prefix of ASCII digits, and what follows it. *)
Fixpoint span_digits (s : str) : str * str :=
  match s with
  | [] => ([], [])
  | c :: t =>
      if is_ascii_digit c then
        let '(d, r) := span_digits t in (c :: d, r)
      else ([], s)
  end.

(** Underscores of a numeral as [float()] accepts them: only between digits. *)
Fixpoint drop_underscores (prev : N) (s : str) : option str :=
  match s with
  | [] => if prev =? 95 then None else Some []
  | c :: t =>
      if c =? 95 then
        if is_ascii_digit prev then drop_underscores c t else None
      else if (prev =? 95) && negb (is_ascii_digit c) then None
      else option_map (cons c) (drop_underscores c t)
  end.

Definition split_sign (s : str) : bool * str :=
  match s with
  | 45 :: t => (true, t)
  | 43 :: t => (false, t)
  | _ => (false, s)
  end.

(** [digitpart] after an [e] or [E]: sign and at least one digit, to the
    end of the text *)
Definition parse_exponent (s : str) : option Z :=
  let '(neg, t) := split_sign s in
  match span_digits t with
  | ((_ :: _) as d, []) =>
      let v := Z.of_N (digits_value 0 d) in
      Some (if neg then (- v)%Z else v)
  | _ => None
  end.

(** [floatnumber] of the Python grammar: mantissa and decimal exponent *)
Definition parse_decimal (s : str) : option (N * Z) :=
  let '(ip, r1) := span_digits s in
  let '(fp, r2) := match r1 with
                   | 46 :: t => span_digits t
                   | _ => ([], r1)
                   end in
  match ip ++ fp with
  | [] => None
  | ds =>
      let m := digits_value 0 ds in
      let k := Z.of_nat (length fp) in
      match r2 with
      | [] => Some (m, (- k)%Z)
      | c :: t =>
          if (c =? 101) || (c =? 69) then
            match parse_exponent t with
            | Some e => Some (m, (e - k)%Z)
            | None => None
            end
          else None
      end
  end.

Section WithRuntime.
Context {rt : Runtime}.

(** [c.isdigit()] for a one-character string *)
Definition isdigit (c : N) : bool :=
  if is_ascii c then is_ascii_digit c else ucd_isdigit c.

Definition lower (s : str) : str :=
  if forallb is_ascii s then map ascii_lower s else ucd_lower s.

Definition upper (s : str) : str :=
  if forallb is_ascii s then map ascii_upper s else ucd_upper s.

(** CPython's [_PyUnicode_TransformDecimalAndSpaceToASCII]: what [int()] and
    [float()] do to a [str] before they read it. *)
Fixpoint to_ascii_numeral (s : str) : str :=
  match s with
  | [] => []
  | c :: t =>
      if c <? 127 then c :: to_ascii_numeral t
      else if isspace c then 32 :: to_ascii_numeral t
      else match ucd_decimal c with
           | Some d => (48 + d) :: to_ascii_numeral t
           | None => [63]
           end
  end.

(** [float(s)] for a [str] *)
Definition float_of_str (s : str) : res float :=
  match drop_underscores 0 (strip_with c_isspace (to_ascii_numeral s)) with
  | None => Raise ValueError
  | Some t =>
      let '(neg, body) := split_sign t in
      let word := map ascii_lower body in
      if str_eqb word (lit "inf") || str_eqb word (lit "infinity")
      then Ok (S754_infinity neg)
      else if str_eqb word (lit "nan") then Ok S754_nan
      else match parse_decimal body with
           | Some (m, e) => Ok (round_decimal neg m e)
           | None => Raise ValueError
           end
  end.

(** Digits of a base-10 [int()] literal, with single underscores between
    them; returns the digits and the rest of the text. *)
Fixpoint span_int_digits (prev : N) (s : str) : option (str * str) :=
  match s with
  | c :: t =>
      if c =? 95 then
        if prev =? 95 then None
        else match span_int_digits c t with
             | Some (d, r) => Some (d, r)
             | None => None
             end
      else if is_ascii_digit c then
        match span_int_digits c t with
        | Some (d, r) => Some (c :: d, r)
        | None => None
        end
      else if prev =? 95 then None else Some ([], s)
  | [] => if prev =? 95 then None else Some ([], [])
  end.

(** [int(s)] for a [str] *)
Definition int_of_str (s : str) : res Z :=
  let '(neg, t) := split_sign (lstrip_with c_isspace (to_ascii_numeral s)) in
  match t with
  | 95 :: _ => Raise ValueError
  | _ =>
      match span_int_digits 0 t with
      | Some ((_ :: _) as d, r) =>
          match lstrip_with c_isspace r with
          | [] =>
              if (0 <? int_max_str_digits)
                 && (int_max_str_digits <? N.of_nat (length d))
              then Raise ValueError
              else
                let v := Z.of_N (digits_value 0 d) in
                Ok (if neg then (- v)%Z else v)
          | _ => Raise ValueError
          end
      | _ => Raise ValueError
      end
  end.

End WithRuntime.

(** A runtime whose tables are empty beyond ASCII, for evaluating the
    definitions on concrete text. *)
Definition ascii_runtime : Runtime :=
  {| ucd_isdigit := fun _ => false;
     ucd_decimal := fun _ => None;
     ucd_lower := fun s => s;
     ucd_upper := fun s => s;
     int_max_str_digits := 4300 |}.

(** ** Values of the raw input *)

(** What [Actor.get_input()] can hold: the values of a JSON document. A
    nested object keeps its keys in order, as iterating over it yields them. *)
#[local] Unset Elimination Schemes.
Inductive pyval :=
| PNone
| PBool (b : bool)
| PInt (n : Z)
| PFloat (f : float)
| PStr (s : str)
| PList (l : list pyval)
| PDict (d : list (str * pyval)).
#[local] Set Elimination Schemes.

(** [bool(v)] *)
Definition truthy (v : pyval) : bool :=
  match v with
  | PNone => false
  | PBool b => b
  | PInt n => negb (n =? 0)%Z
  | PFloat f => negb (float_is_zero f)
  | PStr s => match s with [] => false | _ => true end
  | PList l => match l with [] => false | _ => true end
  | PDict d => match d with [] => false | _ => true end
  end.

(** [a or b] *)
Definition py_or (a b : pyval) : pyval := if truthy a then a else b.

(** [for k in v]: the values that iterating over [v] yields *)
Definition py_iter (v : pyval) : res (list pyval) :=
  match v with
  | PList l => Ok l
  | PDict d => Ok (map (fun kv => PStr (fst kv)) d)
  | PStr s => Ok (map (fun c => PStr [c]) s)
  | _ => Raise TypeError
  end.

(** [raw.get(key, default)] *)
Definition dict_get (raw : gmap str pyval) (key : str) (default : pyval) : pyval :=
  match raw !! key with
  | Some v => v
  | None => default
  end.

Section WithRuntime.
Context {rt : Runtime}.

(** [int(v)] *)
Definition py_int (v : pyval) : res Z :=
  match v with
  | PBool b => Ok (if b then 1 else 0)%Z
  | PInt n => Ok n
  | PFloat f => int_of_float f
  | PStr s => int_of_str s
  | PNone | PList _ | PDict _ => Raise TypeError
  end.

(** [float(v)] *)
Definition py_float (v : pyval) : res float :=
  match v with
  | PBool b => Ok (if b then b64_round false 1 0 else S754_zero false)
  | PInt n => float_of_int n
  | PFloat f => Ok f
  | PStr s => float_of_str s
  | PNone | PList _ | PDict _ => Raise TypeError
  end.

(** ** [_normalize_input] *)

Record AmazonSearchInput := {
  keywords : list str;
  max_items_per_keyword : Z;
  max_pages : Z;
  country : str;
  min_rating : option float;
  min_reviews : option Z;
  exclude_sponsored : bool;
  fetch_details : bool;
  max_detail_items : Z
}.

(** The list comprehension over the keywords: strings only, stripped, the
    blank ones dropped. *)
Fixpoint clean_keywords (l : list pyval) : list str :=
  match l with
  | [] => []
  | PStr k :: t =>
      match strip k with
      | [] => clean_keywords t
      | k' => k' :: clean_keywords t
      end
  | _ :: t => clean_keywords t
  end.

Definition countries : list str :=
  [lit "US"; lit "UK"; lit "DE"; lit "FR"; lit "JP"].

Definition _normalize_input (raw : gmap str pyval) : res AmazonSearchInput :=
  let keywords0 := py_or (dict_get raw (lit "keywords") PNone) (PList []) in
  let keywords1 := match keywords0 with
                   | PStr _ => PList [keywords0]
                   | _ => keywords0
                   end in
  ks <- py_iter keywords1 ;;
  let keywords2 := clean_keywords ks in
  let keywords3 := match keywords2 with
                   | [] => [lit "iphone 17 case"]
                   | _ => keywords2
                   end in
  n <- py_int (py_or (dict_get raw (lit "max_items_per_keyword") (PInt 50)) (PInt 50)) ;;
  let max_items := if (n <=? 0)%Z then 50%Z else n in
  p <- py_int (py_or (dict_get raw (lit "max_pages") (PInt 3)) (PInt 3)) ;;
  let p1 := if (p <=? 0)%Z then 1%Z else p in
  let max_pages := if (20 <? p1)%Z then 20%Z else p1 in
  c <- match py_or (dict_get raw (lit "country") PNone) (PStr (lit "US")) with
       | PStr s => Ok (upper s)
       | _ => Raise AttributeError
       end ;;
  let country := if str_in c countries then c else lit "US" in
  min_rating_val <-
    match dict_get raw (lit "min_rating") PNone with
    | PNone => Ok None
    | v => except_type_value (f <- py_float v ;; Ok (Some f)) None
    end ;;
  min_reviews_val <-
    match dict_get raw (lit "min_reviews") PNone with
    | PNone => Ok None
    | v => except_type_value
             (mr <- py_int v ;; Ok (if (0 <? mr)%Z then Some mr else None)) None
    end ;;
  let exclude_sponsored := truthy (dict_get raw (lit "exclude_sponsored") (PBool false)) in
  let fetch_details := truthy (dict_get raw (lit "fetch_details") (PBool false)) in
  d <- py_int (py_or (dict_get raw (lit "max_detail_items") (PInt 5)) (PInt 5)) ;;
  let d1 := if (d <=? 0)%Z then 1%Z else d in
  let max_detail_items := if (50 <? d1)%Z then 50%Z else d1 in
  Ok {| keywords := keywords3;
        max_items_per_keyword := max_items;
        max_pages := max_pages;
        country := country;
        min_rating := min_rating_val;
        min_reviews := min_reviews_val;
        exclude_sponsored := exclude_sponsored;
        fetch_details := fetch_details;
        max_detail_items := max_detail_items |}.

(** ** [_country_to_domain] *)

Definition _country_to_domain (country : str) : str :=
  let c := upper country in
  if str_eqb c (lit "US") then lit "www.amazon.com"
  else if str_eqb c (lit "UK") then lit "www.amazon.co.uk"
  else if str_eqb c (lit "DE") then lit "www.amazon.de"
  else if str_eqb c (lit "FR") then lit "www.amazon.fr"
  else if str_eqb c (lit "JP") then lit "www.amazon.co.jp"
  else lit "www.amazon.com".

(** ** The page as the extractor sees it *)

(** One matched element: the outcome of reading its text and its attributes. *)
Record Element := {
  text_content : res (option str);
  get_attribute : str -> res (option str)
}.

(** A Playwright locator: the outcome of [count()] and the element that
    [nth(i)] designates. The page is taken as it stands while one card is
    read: asking twice gives the same answer. *)
Record Locator := {
  count : res nat;
  nth_match : nat -> Element
}.

(** [locator.first] *)
Definition first_match (l : Locator) : Element := nth_match l 0.

(** One result card. [parse_overruns] tells whether reading this card takes
    longer than the deadline that [_extract_product_cards] sets with
    [asyncio.wait_for]; durations themselves are not part of the model. *)
Record Card := {
  card_attribute : str -> res (option str);
  card_locator : str -> Locator;
  parse_overruns : bool
}.

(** The dictionary that [_parse_single_card] builds, with the two keys that
    the detail page may add later. *)
Record Item := {
  asin : str;
  title : str;
  productUrl : str;
  priceText : str;
  price : option float;
  originalPriceText : str;
  rating : option float;
  reviewsCount : option Z;
  isPrime : bool;
  brand : str;
  badges : list str;
  isSponsored : bool;
  imageUrl : str;
  currency : str;
  categoryPath : option (list str);
  featureBullets : option (list str)
}.

(** [x or ''] for an optional string *)
Definition or_empty (o : option str) : str :=
  match o with
  | Some s => s
  | None => []
  end.

(** [not x] for an optional string: [None] and [''] are falsy *)
Definition is_blank (o : option str) : bool :=
  match o with
  | Some (_ :: _) => false
  | _ => true
  end.

(** The recurring read of a card's first match:
    [t = ''; if await loc.count() > 0: t = (await loc.first.text_content() or '').strip()] *)
Definition first_text (l : Locator) : res str :=
  n <- count l ;;
  if (0 <? n)%nat then
    t <- text_content (first_match l) ;; Ok (strip (or_empty t))
  else Ok [].

(** Lines 150-165: the numeric value of a price text. *)
Definition numeric_part (whole : str) : str :=
  List.filter (fun ch => isdigit ch || (ch =? 44) || (ch =? 46)) whole.

Definition normalize_number (numeric : str) : str :=
  if existsb (N.eqb 44) numeric && negb (existsb (N.eqb 46) numeric)
  then replace 44 [46] (replace 46 [] numeric)
  else replace 44 [] numeric.

Definition parse_price (whole : str) : res (option float) :=
  match whole with
  | [] => Ok None
  | _ =>
      match numeric_part whole with
      | [] => Ok None
      | numeric =>
          match float_of_str (normalize_number numeric) with
          | Ok f => Ok (Some f)
          | Raise ValueError => Ok None
          | Raise e => Raise e
          end
      end
  end.

Definition currency_symbols : str := lit "$€£¥".

(** Lines 169-178 *)
Definition parse_currency (price_text : str) : res str :=
  match price_text with
  | [] => Ok []
  | _ =>
      let stripped := strip price_text in
      let leading_symbol :=
        match stripped with
        | c :: _ => contains [c] currency_symbols
        | [] => false
        end in
      if leading_symbol then Ok (take 1 stripped)
      else
        last_token <- index_last (split_ws stripped) ;;
        if (length last_token =? 3)%nat || (length last_token =? 4)%nat
        then Ok last_token else Ok []
  end.

(** Lines 191-196 *)
Definition parse_rating (rating_text : str) : res (option float) :=
  match rating_text with
  | [] => Ok None
  | _ =>
      match (tok <- index_first (split_ws rating_text) ;;
             float_of_str (replace 44 [46] tok)) with
      | Ok f => Ok (Some f)
      | Raise ValueError | Raise IndexError => Ok None
      | Raise e => Raise e
      end
  end.

(** Lines 202-207 *)
Definition parse_reviews (reviews_text : str) : res (option Z) :=
  match reviews_text with
  | [] => Ok None
  | _ =>
      match int_of_str (replace 46 [] (replace 44 [] reviews_text)) with
      | Ok n => Ok (Some n)
      | Raise ValueError => Ok None
      | Raise e => Raise e
      end
  end.

Definition badge_like_keywords : list str :=
  [lit "amazon's choice"; lit "overall pick"; lit "best seller";
   lit "limited time deal"].

(** Lines 220-229 *)
Definition clear_badge_like (brand : str) : str :=
  match brand with
  | [] => []
  | _ =>
      let lowered := lower brand in
      if existsb (fun k => contains k lowered) badge_like_keywords then []
      else brand
  end.

(** Lines 237-242: the texts of the matches [i, i+1, ...], [n] of them,
    appended to [badges] unless blank or already there. *)
Fixpoint collect_badges (l : Locator) (i n : nat) (badges : list str)
  : res (list str) :=
  match n with
  | O => Ok badges
  | S n' =>
      text <- text_content (nth_match l i) ;;
      let badges' :=
        match text with
        | Some ((_ :: _) as t) =>
            let cleaned := strip t in
            match cleaned with
            | [] => badges
            | _ => if str_in cleaned badges then badges
                   else badges ++ [cleaned]
            end
        | _ => badges
        end in
      collect_badges l (S i) n' badges'
  end.

Definition sel_title : str := lit "a.a-link-normal.s-link-style.a-text-normal".
Definition sel_title_fallback : str := lit "h2 a.a-link-normal".
Definition sel_price : str := lit "span.a-price > span.a-offscreen".
Definition sel_original_price : str :=
  lit "span.a-price.a-text-price span.a-offscreen".
Definition sel_rating : str := lit "span.a-icon-alt".
Definition sel_reviews : str := lit "span.a-size-base.s-underline-text".
Definition sel_prime : str :=
  lit "i.a-icon.a-icon-prime, span[data-component-type="
    ++ [34] ++ lit "s-prime" ++ [34] ++ lit "]".
Definition sel_brand : str :=
  lit "h5.s-line-clamp-1 span, span.a-size-base-plus.a-color-base".
Definition sel_badge : str :=
  lit "span.a-badge-text, span.s-label-popover-default, span.s-label-popover-default span.a-badge-label-inner".
Definition sel_sponsored : str :=
  lit "span.s-sponsored-label-text, span.a-color-secondary".
Definition sel_image : str := lit "img.s-image".

(** ** [_parse_single_card] *)

(** Lines 119-281, inside the [try]. [None] is the discarded card. *)
Definition parse_card_body (card : Card) (base_url : str)
    (min_rating : option float) (min_reviews : option Z)
    (exclude_sponsored : bool) : res (option Item) :=
  asin <- card_attribute card (lit "data-asin") ;;
  if is_blank asin then Ok None else
  n_primary <- count (card_locator card sel_title) ;;
  let title_el := if (n_primary =? 0)%nat
                  then card_locator card sel_title_fallback
                  else card_locator card sel_title in
  n_title <- count title_el ;;
  if (n_title =? 0)%nat then Ok None else
  title_text <- text_content (first_match title_el) ;;
  let title := strip (or_empty title_text) in
  href <- get_attribute (first_match title_el) (lit "href") ;;
  if is_blank href then Ok None else
  path <- index_first (split_on 63 (or_empty href)) ;;
  let product_url := if startswith (lit "/") (or_empty href)
                     then base_url ++ path else path in
  whole <- first_text (card_locator card sel_price) ;;
  price <- parse_price whole ;;
  let price_text := whole in
  currency <- parse_currency price_text ;;
  original_price_text <- first_text (card_locator card sel_original_price) ;;
  rating_text <- first_text (card_locator card sel_rating) ;;
  rating_value <- parse_rating rating_text ;;
  reviews_text <- first_text (card_locator card sel_reviews) ;;
  reviews_count <- parse_reviews reviews_text ;;
  n_prime <- count (card_locator card sel_prime) ;;
  let is_prime := (0 <? n_prime)%nat in
  brand_attr <- card_attribute card (lit "data-brand") ;;
  let brand0 := strip (or_empty brand_attr) in
  brand1 <- match brand0 with
            | [] => first_text (card_locator card sel_brand)
            | _ => Ok brand0
            end ;;
  let brand := clear_badge_like brand1 in
  let badge_locator := card_locator card sel_badge in
  n_badge <- count badge_locator ;;
  badges <- (if (0 <? n_badge)%nat
             then n <- count badge_locator ;; collect_badges badge_locator 0 n []
             else Ok []) ;;
  sponsored_text <- first_text (card_locator card sel_sponsored) ;;
  let is_sponsored := contains (lit "sponsored") (lower sponsored_text) in
  let below_rating :=
    match min_rating, rating_value with
    | Some m, Some r => float_ltb r m
    | _, _ => false
    end in
  let below_reviews :=
    match min_reviews, reviews_count with
    | Some m, Some r => (r <? m)%Z
    | _, _ => false
    end in
  if below_rating then Ok None else
  if below_reviews then Ok None else
  if exclude_sponsored && is_sponsored then Ok None else
  let image_locator := card_locator card sel_image in
  n_image <- count image_locator ;;
  image_url <- (if (0 <? n_image)%nat
                then src <- get_attribute (first_match image_locator) (lit "src") ;;
                     Ok (or_empty src)
                else Ok []) ;;
  Ok (Some {| asin := or_empty asin;
              title := title;
              productUrl := product_url;
              priceText := price_text;
              price := price;
              originalPriceText := original_price_text;
              rating := rating_value;
              reviewsCount := reviews_count;
              isPrime := is_prime;
              brand := brand;
              badges := badges;
              isSponsored := is_sponsored;
              imageUrl := image_url;
              currency := currency;
              categoryPath := None;
              featureBullets := None |}).

(** [try: ... except Exception: return None] *)
Definition _parse_single_card (card : Card) (base_url : str)
    (min_rating : option float) (min_reviews : option Z)
    (exclude_sponsored : bool) : res (option Item) :=
  match parse_card_body card base_url min_rating min_reviews exclude_sponsored with
  | Ok item => Ok item
  | Raise _ => Ok None
  end.

(** [asyncio.wait_for(_parse_single_card(...), timeout=5)] *)
Definition wait_for_parse (card : Card) (base_url : str)
    (min_rating : option float) (min_reviews : option Z)
    (exclude_sponsored : bool) : res (option Item) :=
  if parse_overruns card then Raise AsyncioTimeoutError
  else _parse_single_card card base_url min_rating min_reviews exclude_sponsored.

(** ** [_extract_product_cards] *)

(** The loop over the cards, [items] being the list built so far. *)
Fixpoint extract_cards_from (card_locators : list Card) (base_url : str)
    (min_rating : option float) (min_reviews : option Z)
    (exclude_sponsored : bool) (items : list Item) : res (list Item) :=
  match card_locators with
  | [] => Ok items
  | card :: rest =>
      match wait_for_parse card base_url min_rating min_reviews exclude_sponsored with
      | Raise AsyncioTimeoutError =>
          extract_cards_from rest base_url min_rating min_reviews
            exclude_sponsored items
      | Raise e => Raise e
      | Ok (Some item) =>
          extract_cards_from rest base_url min_rating min_reviews
            exclude_sponsored (items ++ [item])
      | Ok None =>
          extract_cards_from rest base_url min_rating min_reviews
            exclude_sponsored items
      end
  end.

Definition _extract_product_cards (card_locators : list Card) (base_url : str)
    (min_rating : option float) (min_reviews : option Z)
    (exclude_sponsored : bool) : res (list Item) :=
  extract_cards_from card_locators base_url min_rating min_reviews
    exclude_sponsored [].

(** ** The browser as the crawler sees it *)

(** A detail page opened for one item. *)
Record DetailPage := {
  detail_goto : res unit;
  detail_locator : str -> Locator;
  detail_close : res unit
}.

(** One search page, opened by one turn of the loop of [_scrape_keyword],
    with the outcome of every call made while it is open. Calls that can
    recur are indexed: [goto], [settle] and [backoff] by the navigation
    attempt (1, 2, 3), [detail_page_for] and [push_outcome] by the position
    of the item among those parsed from the page. *)
Record Page := {
  goto : nat -> res unit;
  settle : nat -> res unit;
  backoff : nat -> res unit;
  content : res str;
  all_matches : str -> res (list Card);
  page_locator : str -> Locator;
  detail_page_for : nat -> res DetailPage;
  push_outcome : nat -> res unit;
  close : res unit
}.

(** The calls that leave the process, in the order in which they are made.
    [EvPush] stands for a call of [Actor.push_data] that returned. *)
Inductive event :=
| EvStart (keyword url : str)
| EvNewPage
| EvGoto (url : str)
| EvContent
| EvCards
| EvDetailNewPage
| EvDetailGoto (url : str)
| EvDetailClose
| EvPush (keyword country : str) (pageIndex : Z) (item : Item)
| EvClose.

(** The mutable variables of the loop. [detail_page_bound] tells whether the
    variable [detail_page] is bound, that is, whether a detail page has
    been opened for this keyword: the [finally] of a detail visit closes the
    page that the variable holds (lines 456-460). *)
Record CrawlState := {
  total_collected : Z;
  page_index : Z;
  search_url : str;
  detail_page_bound : bool
}.

(** Whether the calls [l] opened a detail page. A detail page that opens is
    navigated to at once (lines 423-424). *)
Definition opens_detail_page (l : list event) : bool :=
  existsb (fun e => match e with EvDetailGoto _ => true | _ => false end) l.

Inductive ctrl := Break | Continue.

Definition sel_cards : str :=
  lit "div.s-main-slot div[data-component-type="
    ++ [34] ++ lit "s-search-result" ++ [34] ++ lit "]".
Definition sel_next : str :=
  lit "a.s-pagination-next:not(.s-pagination-disabled)".
Definition sel_breadcrumbs : str :=
  lit "#wayfinding-breadcrumbs_feature_div li a, nav[aria-label="
    ++ [34] ++ lit "Breadcrumb" ++ [34] ++ lit "] a".
Definition sel_bullets : str := lit "#feature-bullets ul li span".

Definition captcha_markers : list str :=
  [lit "api-services-support@amazon.com";
   lit "to discuss automated access to amazon data";
   lit "/captcha/";
   lit "enter the characters you see below"].

(** Lines 371-378 *)
Definition looks_like_captcha (html : str) : bool :=
  let html_lower := lower html in
  existsb (fun marker => contains marker html_lower) captcha_markers.

(** [urllib.parse.quote_plus] *)
Definition utf8_encode (c : N) : res (list N) :=
  if c <? 128 then Ok [c]
  else if c <? 2048 then Ok [192 + c / 64; 128 + c mod 64]
  else if (55296 <=? c) && (c <=? 57343)
  then Raise (OtherError "UnicodeEncodeError")
  else if c <? 65536 then
    Ok [224 + c / 4096; 128 + (c / 64) mod 64; 128 + c mod 64]
  else Ok [240 + c / 262144; 128 + (c / 4096) mod 64;
           128 + (c / 64) mod 64; 128 + c mod 64].

Definition hex_digit (d : N) : N := if d <? 10 then 48 + d else 55 + d.

Definition is_unreserved (c : N) : bool :=
  is_ascii_digit c || ((65 <=? c) && (c <=? 90)) || ((97 <=? c) && (c <=? 122))
  || (c =? 95) || (c =? 46) || (c =? 45) || (c =? 126).

Fixpoint quote_plus (s : str) : res str :=
  match s with
  | [] => Ok []
  | c :: t =>
      bytes <- utf8_encode c ;;
      rest <- quote_plus t ;;
      if is_unreserved c then Ok (c :: rest)
      else if c =? 32 then Ok (43 :: rest)
      else Ok (concat (map (fun b => [37; hex_digit (b / 16); hex_digit (b mod 16)])
                           bytes) ++ rest)
  end.

(** Lines 432-437 and 445-450: the non-blank texts of the matches, in order *)
Fixpoint collect_texts (l : Locator) (i n : nat) (acc : list str)
  : res (list str) :=
  match n with
  | O => Ok acc
  | S n' =>
      text <- text_content (nth_match l i) ;;
      let acc' :=
        match text with
        | Some ((_ :: _) as t) =>
            match strip t with
            | [] => acc
            | cleaned => acc ++ [cleaned]
            end
        | _ => acc
        end in
      collect_texts l (S i) n' acc'
  end.

Definition read_texts (l : Locator) : res (list str) :=
  c <- count l ;;
  if (0 <? c)%nat then n <- count l ;; collect_texts l 0 n [] else Ok [].

Definition with_categoryPath (item : Item) (v : list str) : Item :=
  {| asin := asin item; title := title item; productUrl := productUrl item;
     priceText := priceText item; price := price item;
     originalPriceText := originalPriceText item; rating := rating item;
     reviewsCount := reviewsCount item; isPrime := isPrime item;
     brand := brand item; badges := badges item;
     isSponsored := isSponsored item; imageUrl := imageUrl item;
     currency := currency item;
     categoryPath := Some v; featureBullets := featureBullets item |}.

Definition with_featureBullets (item : Item) (v : list str) : Item :=
  {| asin := asin item; title := title item; productUrl := productUrl item;
     priceText := priceText item; price := price item;
     originalPriceText := originalPriceText item; rating := rating item;
     reviewsCount := reviewsCount item; isPrime := isPrime item;
     brand := brand item; badges := badges item;
     isSponsored := isSponsored item; imageUrl := imageUrl item;
     currency := currency item;
     categoryPath := categoryPath item; featureBullets := Some v |}.

(** Lines 424-453, the [try] of one detail visit: the item as the visit
    leaves it, and whether the visit ran to [detail_count += 1]. *)
Definition enrich_item (detail_page : DetailPage) (item : Item) : Item * bool :=
  match detail_goto detail_page with
  | Raise _ => (item, false)
  | Ok _ =>
      match read_texts (detail_locator detail_page sel_breadcrumbs) with
      | Raise _ => (item, false)
      | Ok category_path =>
          let item1 := match category_path with
                       | [] => item
                       | _ => with_categoryPath item category_path
                       end in
          match read_texts (detail_locator detail_page sel_bullets) with
          | Raise _ => (item1, false)
          | Ok feature_bullets =>
              let item2 := match feature_bullets with
                           | [] => item1
                           | _ => with_featureBullets item1 feature_bullets
                           end in
              (item2, true)
          end
      end
  end.

(** ** [_scrape_keyword] *)

Definition max_nav_retries : nat := 3.

(** Lines 349-368: the navigation attempts that are still to be made.
    [random.uniform] only sets how long [backoff] sleeps. *)
Fixpoint navigate (page : Page) (url : str) (attempts : list nat)
  : list event * res unit :=
  match attempts with
  | [] => ([], Ok tt)
  | attempt :: rest =>
      match (_ <- goto page attempt ;; settle page attempt) with
      | Ok _ => ([EvGoto url], Ok tt)
      | Raise PlaywrightTimeoutError =>
          if (attempt =? max_nav_retries)%nat
          then ([EvGoto url], Raise PlaywrightTimeoutError)
          else match backoff page attempt with
               | Ok _ =>
                   let '(l, r) := navigate page url rest in (EvGoto url :: l, r)
               | Raise e => ([EvGoto url], Raise e)
               end
      | Raise e => ([EvGoto url], Raise e)
      end
  end.

Section ScrapeKeyword.

(** The arguments of [_scrape_keyword]. [pages i] is what the [i]-th call
    of [context.new_page()] at the head of the loop gives. *)
Variable pages : nat -> res Page.
Variable keyword : str.
Variable country : str.
Variable max_items : Z.
Variable max_pages : Z.
Variable min_rating : option float.
Variable min_reviews : option Z.
Variable exclude_sponsored : bool.
Variable fetch_details : bool.
Variable max_detail_items : Z.

Definition base_url : str := lit "https://" ++ _country_to_domain country.

(** Lines 416-460: the loop over the items from the [j]-th on. Gives the
    calls made, the items as the loop leaves them and the final
    [detail_count]. [bound] tells whether [detail_page] holds a page opened
    earlier: when opening a detail page fails, the variable is not
    assigned, and the [finally] closes the page it holds, if any, once
    more. *)
Fixpoint enrich_items (page : Page) (bound : bool) (j : nat) (detail_count : Z)
    (items : list Item) : list event * list Item * Z :=
  match items with
  | [] => ([], [], detail_count)
  | item :: rest =>
      if (max_detail_items <=? detail_count)%Z then ([], items, detail_count)
      else
        match productUrl item with
        | [] =>
            let '(l, out, c) :=
              enrich_items page bound (S j) detail_count rest in
            (l, item :: out, c)
        | detail_url =>
            match detail_page_for page j with
            | Raise _ =>
                let '(l, out, c) :=
                  enrich_items page bound (S j) detail_count rest in
                (EvDetailNewPage
                   :: (if bound then [EvDetailClose] else []) ++ l,
                 item :: out, c)
            | Ok detail_page =>
                let '(item', done) := enrich_item detail_page item in
                let detail_count' :=
                  if done then (detail_count + 1)%Z else detail_count in
                let '(l, out, c) :=
                  enrich_items page true (S j) detail_count' rest in
                (EvDetailNewPage :: EvDetailGoto detail_url :: EvDetailClose :: l,
                 item' :: out, c)
            end
        end
  end.

(** Lines 462-470 *)
Fixpoint push_items (page : Page) (page_idx : Z) (j : nat) (items : list Item)
  : list event * res unit :=
  match items with
  | [] => ([], Ok tt)
  | item :: rest =>
      match push_outcome page j with
      | Raise e => ([], Raise e)
      | Ok _ =>
          let '(l, r) := push_items page page_idx (S j) rest in
          (EvPush keyword country page_idx item :: l, r)
      end
  end.

(** Lines 347-470: from the navigation to the last [push_data]. [Ok None]
    is a [break], [Ok (Some items)] the items pushed. *)
Definition collect_page (page : Page) (s : CrawlState)
  : list event * res (option (list Item)) :=
  match navigate page (search_url s) (seq 1 max_nav_retries) with
  | (l_nav, Raise e) => (l_nav, Raise e)
  | (l_nav, Ok _) =>
      match content page with
      | Raise e => (l_nav ++ [EvContent], Raise e)
      | Ok html =>
          if looks_like_captcha html then (l_nav ++ [EvContent], Ok None)
          else
            match all_matches page sel_cards with
            | Raise e => (l_nav ++ [EvContent; EvCards], Raise e)
            | Ok [] => (l_nav ++ [EvContent; EvCards], Ok None)
            | Ok cards =>
                let remaining := (max_items - total_collected s)%Z in
                if (remaining <=? 0)%Z
                then (l_nav ++ [EvContent; EvCards], Ok None)
                else
                  let cards' :=
                    if (remaining <? Z.of_nat (length cards))%Z
                    then take (Z.to_nat remaining) cards else cards in
                  match _extract_product_cards cards' base_url min_rating
                          min_reviews exclude_sponsored with
                  | Raise e => (l_nav ++ [EvContent; EvCards], Raise e)
                  | Ok [] => (l_nav ++ [EvContent; EvCards], Ok None)
                  | Ok items =>
                      let '(l_detail, items') :=
                        if fetch_details && (0 <? max_detail_items)%Z
                        then let '(l, out, _) :=
                               enrich_items page (detail_page_bound s) 0 0 items in
                             (l, out)
                        else ([], items) in
                      let '(l_push, r) :=
                        push_items page (page_index s) 0 items' in
                      (l_nav ++ [EvContent; EvCards] ++ l_detail ++ l_push,
                       match r with
                       | Ok _ => Ok (Some items')
                       | Raise e => Raise e
                       end)
                  end
            end
      end
  end.

(** Lines 481-495: the address of the next page, if there is one *)
Definition next_page_url (page : Page) : res (option str) :=
  let next_btn := page_locator page sel_next in
  n <- count next_btn ;;
  if (n =? 0)%nat then Ok None else
  next_href <- get_attribute (first_match next_btn) (lit "href") ;;
  if is_blank next_href then Ok None
  else if startswith (lit "/") (or_empty next_href)
       then Ok (Some (base_url ++ or_empty next_href))
       else Ok (Some (or_empty next_href)).

(** Lines 346-498, the [try] with its [except Exception: break]: the calls
    made, how the loop goes on and the variables as the block leaves them.
    A block that ends with [Ok None] has made no detail visit; one that
    raises may have. *)
Definition page_block (page : Page) (s : CrawlState)
  : list event * ctrl * CrawlState :=
  match collect_page page s with
  | (l, Raise _) =>
      (l, Break,
       {| total_collected := total_collected s;
          page_index := page_index s;
          search_url := search_url s;
          detail_page_bound := detail_page_bound s || opens_detail_page l |})
  | (l, Ok None) => (l, Break, s)
  | (l, Ok (Some items)) =>
      let s1 := {| total_collected := total_collected s + Z.of_nat (length items);
                   page_index := page_index s;
                   search_url := search_url s;
                   detail_page_bound :=
                     detail_page_bound s || opens_detail_page l |} in
      if (max_items <=? total_collected s1)%Z then (l, Break, s1)
      else
        match next_page_url page with
        | Raise _ => (l, Break, s1)
        | Ok None => (l, Break, s1)
        | Ok (Some url) =>
            (l, Continue,
             {| total_collected := total_collected s1;
                page_index := page_index s1 + 1;
                search_url := url;
                detail_page_bound := detail_page_bound s1 |})
        end
  end.

(** The loop condition of line 344 *)
Definition loop_guard (s : CrawlState) : bool :=
  (total_collected s <? max_items)%Z && (page_index s <=? max_pages)%Z.

(** Lines 344-500: the [while] loop from its [i]-th turn on. The result is
    the calls made, the variables at the end and whether an exception left
    the loop; [None] when [fuel] turns were not enough. *)
Fixpoint crawl_from (fuel : nat) (i : nat) (s : CrawlState)
  : option (list event * CrawlState * res unit) :=
  if loop_guard s then
    match fuel with
    | O => None
    | S fuel' =>
        match pages i with
        | Raise e => Some ([EvNewPage], s, Raise e)
        | Ok page =>
            let '(l, c, s') := page_block page s in
            let l' := EvNewPage :: l ++ [EvClose] in
            match close page with
            | Raise e => Some (l', s', Raise e)
            | Ok _ =>
                match c with
                | Break => Some (l', s', Ok tt)
                | Continue =>
                    match crawl_from fuel' (S i) s' with
                    | Some (l2, s2, r) => Some (l' ++ l2, s2, r)
                    | None => None
                    end
                end
            end
        end
    end
  else Some ([], s, Ok tt).

(** The variables when the loop is entered *)
Definition initial_state (url : str) : CrawlState :=
  {| total_collected := 0; page_index := 1; search_url := url;
     detail_page_bound := false |}.

(** [_scrape_keyword]: the calls made, the loop variables at the end (the
    function itself returns nothing) and whether it raised. [max_pages]
    turns are all the loop can make, see [crawl_from_enough_fuel]. *)
Definition _scrape_keyword : list event * CrawlState * res unit :=
  match quote_plus keyword with
  | Raise e => ([], initial_state [], Raise e)
  | Ok q =>
      let url := base_url ++ lit "/s?k=" ++ q in
      match crawl_from (Z.to_nat max_pages) 0 (initial_state url) with
      | Some (l, s, r) => (EvStart keyword url :: l, s, r)
      | None => ([EvStart keyword url], initial_state url, Ok tt)
      end
  end.

End ScrapeKeyword.

(** ** The keyword loop of [main] *)

(** What the browser does over a whole run: [search_pages k i] is the
    [i]-th search page opened for the [k]-th keyword. *)
Record World := {
  search_pages : nat -> nat -> res Page;
  launch : res unit;
  new_context : res unit;
  context_close : res unit;
  browser_close : res unit
}.

(** Lines 546-558: the keywords from the [k]-th on *)
Fixpoint scrape_keywords (w : World) (parsed_input : AmazonSearchInput)
    (k : nat) (kws : list str) : list event * res unit :=
  match kws with
  | [] => ([], Ok tt)
  | keyword :: rest =>
      match _scrape_keyword (search_pages w k) keyword (country parsed_input)
              (max_items_per_keyword parsed_input) (max_pages parsed_input)
              (min_rating parsed_input) (min_reviews parsed_input)
              (exclude_sponsored parsed_input) (fetch_details parsed_input)
              (max_detail_items parsed_input) with
      | (l, _, Raise e) => (l, Raise e)
      | (l, _, Ok _) =>
          let '(l2, r) := scrape_keywords w parsed_input (S k) rest in
          (l ++ l2, r)
      end
  end.

(** Lines 506-561 *)
Definition main (w : World) (raw_input : gmap str pyval)
  : list event * res unit :=
  match _normalize_input raw_input with
  | Raise e => ([], Raise e)
  | Ok parsed_input =>
      match (_ <- launch w ;; new_context w) with
      | Raise e => ([], Raise e)
      | Ok _ =>
          let '(l, r) :=
            scrape_keywords w parsed_input 0 (keywords parsed_input) in
          (l, match (_ <- context_close w ;; browser_close w) with
              | Raise e => Raise e
              | Ok _ => r
              end)
      end
  end.

End WithRuntime.

(** * Properties *)

(** ** The vocabulary of the statements *)

(** The four symbols [$ € £ ¥] *)
Definition is_currency_symbol (c : N) : bool :=
  (c =? 36) || (c =? 8364) || (c =? 163) || (c =? 165).

Definition no_space (s : str) : Prop := Forall (fun c => isspace c = false) s.

(** [tok] is the trailing whitespace-delimited token of the text [pre ++ tok] *)
Definition trailing_token (pre tok : str) : Prop :=
  tok <> [] /\ no_space tok /\
  (pre = [] \/ exists pre' w, pre = pre' ++ [w] /\ isspace w = true).

(** A text that neither begins nor ends with whitespace *)
Definition trimmed (s : str) : Prop :=
  s = [] \/ exists c mid d,
    (s = [c] \/ s = c :: mid ++ [d]) /\ isspace c = false /\ isspace d = false.

(** The part of a link target before its first [?] *)
Fixpoint before_query (href : str) : str :=
  match href with
  | [] => []
  | c :: t => if c =? 63 then [] else c :: before_query t
  end.

Definition is_alpha (c : N) : bool :=
  ((65 <=? c) && (c <=? 90)) || ((97 <=? c) && (c <=? 122)).

Fixpoint scheme_tail (s : str) : bool :=
  match s with
  | [] => false
  | c :: t =>
      if c =? 58 then true
      else (is_alpha c || is_ascii_digit c || (c =? 43) || (c =? 45) || (c =? 46))
           && scheme_tail t
  end.

(** An absolute URL begins with a scheme and a colon (RFC 3986, 4.3). *)
Definition is_absolute_url (url : str) : bool :=
  match url with
  | [] => false
  | c :: t => is_alpha c && scheme_tail t
  end.

Section Vocabulary.
Context {rt : Runtime}.

(** The price rule in the words of the specification: a text with a comma
    and no period is read European-style (periods stripped, commas turned
    into periods), any other text has its commas stripped; the digits and
    separators that remain are read as a float, and the price is absent
    when that fails. *)
Definition spec_price (price_text : str) : option float :=
  let numeric :=
    List.filter (fun c => isdigit c || (c =? 44) || (c =? 46)) price_text in
  let normalized :=
    if existsb (N.eqb 44) price_text && negb (existsb (N.eqb 46) price_text)
    then map (fun c => if c =? 44 then 46 else c)
             (List.filter (fun c => negb (c =? 46)) numeric)
    else List.filter (fun c => negb (c =? 44)) numeric in
  match float_of_str normalized with
  | Ok f => Some f
  | Raise _ => None
  end.

End Vocabulary.

Definition with_title (item : Item) (v : str) : Item :=
  {| asin := asin item; title := v; productUrl := productUrl item;
     priceText := priceText item; price := price item;
     originalPriceText := originalPriceText item; rating := rating item;
     reviewsCount := reviewsCount item; isPrime := isPrime item;
     brand := brand item; badges := badges item;
     isSponsored := isSponsored item; imageUrl := imageUrl item;
     currency := currency item;
     categoryPath := categoryPath item; featureBullets := featureBullets item |}.

(** The card [card] with the text of its title link replaced by [t], under
    both title selectors; nothing else of the card changes. *)
Definition with_title_text (card : Card) (t : option str) : Card :=
  {| card_attribute := card_attribute card;
     card_locator := fun sel =>
       if str_eqb sel sel_title || str_eqb sel sel_title_fallback
       then {| count := count (card_locator card sel);
               nth_match := fun i =>
                 match i with
                 | O => {| text_content := Ok t;
                           get_attribute :=
                             get_attribute (nth_match (card_locator card sel) 0) |}
                 | S _ => nth_match (card_locator card sel) i
                 end |}
       else card_locator card sel;
     parse_overruns := parse_overruns card |}.

(** *** Sample pages *)

Definition no_element : Element :=
  {| text_content := Raise PlaywrightTimeoutError;
     get_attribute := fun _ => Raise PlaywrightTimeoutError |}.

Definition element_of (text : str) (attributes : list (str * str)) : Element :=
  {| text_content := Ok (Some text);
     get_attribute := fun name =>
       Ok (snd <$> List.find (fun kv => str_eqb (fst kv) name) attributes) |}.

Definition locator_of (matches : list Element) : Locator :=
  {| count := Ok (length matches);
     nth_match := fun i => nth i matches no_element |}.

(** A result card with an ASIN attribute, a title link and a price. *)
Definition sample_card (asin_attr : option str) (title_text href price_text : str)
  : Card :=
  {| card_attribute := fun name =>
       if str_eqb name (lit "data-asin") then Ok asin_attr else Ok None;
     card_locator := fun sel =>
       if str_eqb sel sel_title
       then locator_of [element_of title_text [(lit "href", href)]]
       else if str_eqb sel sel_price then locator_of [element_of price_text []]
       else locator_of [];
     parse_overruns := false |}.

(** A detail page that loads and shows the breadcrumbs [breadcrumbs]. *)
Definition sample_detail_page (breadcrumbs : list str) : DetailPage :=
  {| detail_goto := Ok tt;
     detail_locator := fun sel =>
       if str_eqb sel sel_breadcrumbs
       then locator_of (map (fun t => element_of t []) breadcrumbs)
       else locator_of [];
     detail_close := Ok tt |}.

(** A search page that loads at once, with the content [html], the cards
    [cards], a next-page link to [next_href] if one is given, and a detail
    page with one breadcrumb for every item. *)
Definition sample_page (html : str) (cards : list Card) (next_href : option str)
  : Page :=
  {| goto := fun _ => Ok tt;
     settle := fun _ => Ok tt;
     backoff := fun _ => Ok tt;
     content := Ok html;
     all_matches := fun sel => if str_eqb sel sel_cards then Ok cards else Ok [];
     page_locator := fun sel =>
       match next_href with
       | Some href =>
           if str_eqb sel sel_next
           then locator_of [element_of (lit "Next") [(lit "href", href)]]
           else locator_of []
       | None => locator_of []
       end;
     detail_page_for := fun _ => Ok (sample_detail_page [lit "Electronics"]);
     push_outcome := fun _ => Ok tt;
     close := Ok tt |}.

(** A search page on which every navigation attempt fails. *)
Definition unreachable_page : Page :=
  {| goto := fun _ => Raise PlaywrightError;
     settle := fun _ => Ok tt;
     backoff := fun _ => Ok tt;
     content := Ok [];
     all_matches := fun _ => Ok [];
     page_locator := fun _ => locator_of [];
     detail_page_for := fun _ => Raise PlaywrightError;
     push_outcome := fun _ => Ok tt;
     close := Ok tt |}.

Definition case_card (k : N) : Card :=
  sample_card (Some (lit "B0CASE000" ++ [48 + k])) (lit "Phone case")
    (lit "/dp/B0CASE000" ++ [48 + k] ++ lit "?ref=sr_1") (lit "$9.50").

Definition seven_cards : list Card := map case_card [0; 1; 2; 3; 4; 5; 6].

Definition five_cards : list Card := map case_card [0; 1; 2; 3; 4].

Definition results_html : str := lit "<html><body>results</body></html>".

Definition captcha_html : str :=
  lit "<html><body>Enter the characters you see below</body></html>".

(** The browser for one keyword: every search page serves [cards] and
    links to a next page. *)
Definition endless_pages (cards : list Card) : nat -> res Page :=
  fun _ => Ok (sample_page results_html cards (Some (lit "/s?k=case&page=2"))).

Definition euro_card : Card :=
  sample_card (Some (lit "B0TEST0001")) (lit " Case ") (lit "/dp/B0TEST0001?ref=1")
    (lit "92,14 €").

Definition relative_card : Card :=
  sample_card (Some (lit "B0TEST0001")) (lit " Case ") (lit "dp/B0TEST0001?ref=1")
    (lit "$92.14").

Definition no_asin_card : Card :=
  sample_card None (lit " Case ") (lit "/dp/B0TEST0001?ref=1") (lit "$92.14").

Definition de_origin : str := lit "https://www.amazon.de".

(** The record read from a card, or an empty record if there is none. *)
Definition record_of (card : Card) (base : str) : Item :=
  match _parse_single_card (rt := ascii_runtime) card base None None false with
  | Ok (Some item) => item
  | _ =>
      {| asin := []; title := []; productUrl := []; priceText := [];
         price := None; originalPriceText := []; rating := None;
         reviewsCount := None; isPrime := false; brand := []; badges := [];
         isSponsored := false; imageUrl := []; currency := [];
         categoryPath := None; featureBullets := None |}
  end.

Definition euro_item : Item := Eval vm_compute in record_of euro_card de_origin.

Definition relative_item : Item :=
  Eval vm_compute in record_of relative_card de_origin.

(** A run of [main]: the first keyword cannot open its search page when
    [first_page_opens] is unset; every page that opens is unreachable. *)
Definition sample_world (first_page_opens : bool) : World :=
  {| search_pages := fun k _ =>
       match k with
       | O => if first_page_opens then Ok unreachable_page
              else Raise PlaywrightError
       | S _ => Ok unreachable_page
       end;
     launch := Ok tt;
     new_context := Ok tt;
     context_close := Ok tt;
     browser_close := Ok tt |}.

Definition two_keywords_input : gmap str pyval :=
  {[ lit "keywords" := PList [PStr (lit "usb hub"); PStr (lit "phone case")] ]}.

Definition sample_input : gmap str pyval :=
  <[ lit "max_items_per_keyword" := PInt (-3) ]>
    (<[ lit "max_pages" := PInt 25 ]> {[ lit "keywords" := PStr (lit " usb hub ") ]}).

Definition negative_pages_input : gmap str pyval :=
  {[ lit "max_pages" := PInt (-1) ]}.

Definition unparsable_pages_input : gmap str pyval :=
  {[ lit "max_pages" := PStr (lit "abc") ]}.

(** *** Input that follows the input schema *)

Definition absent_or (ok : pyval -> bool) (field : option pyval) : bool :=
  match field with
  | None | Some PNone => true
  | Some v => ok v
  end.

Definition is_int (v : pyval) : bool :=
  match v with PInt _ => true | _ => false end.

Definition is_text (v : pyval) : bool :=
  match v with PStr _ => true | _ => false end.

Definition is_text_or_list (v : pyval) : bool :=
  match v with PStr _ | PList _ => true | _ => false end.

(** A float, or an integer that has a float *)
Definition is_number (v : pyval) : bool :=
  match v with
  | PFloat _ => true
  | PInt n => match float_of_int n with Ok _ => true | Raise _ => false end
  | _ => false
  end.

(** Every field is absent, null or of the type the input schema gives it;
    the two flags may hold anything. *)
Definition follows_schema (raw : gmap str pyval) : bool :=
  absent_or is_text_or_list (raw !! lit "keywords")
  && absent_or is_int (raw !! lit "max_items_per_keyword")
  && absent_or is_int (raw !! lit "max_pages")
  && absent_or is_text (raw !! lit "country")
  && absent_or is_number (raw !! lit "min_rating")
  && absent_or is_int (raw !! lit "min_reviews")
  && absent_or is_int (raw !! lit "max_detail_items").

(** The integer a field holds, if it holds one *)
Definition int_field (raw : gmap str pyval) (key : str) : option Z :=
  match raw !! key with
  | Some (PInt n) => Some n
  | _ => None
  end.

(** *** Reading the log of a crawl *)

Definition is_push (e : event) : bool :=
  match e with EvPush _ _ _ _ => true | _ => false end.

Definition is_goto (e : event) : bool :=
  match e with EvGoto _ => true | _ => false end.

Definition is_new_page (e : event) : bool :=
  match e with EvNewPage => true | _ => false end.

Definition is_extraction (e : event) : bool :=
  match e with EvCards => true | _ => false end.

Definition is_detail (e : event) : bool :=
  match e with
  | EvDetailNewPage | EvDetailGoto _ | EvDetailClose => true
  | _ => false
  end.

Definition count_events (p : event -> bool) (l : list event) : nat :=
  length (List.filter p l).

(** The records handed to [Actor.push_data], in order *)
Definition pushed_items (l : list event) : list Item :=
  omap (fun e => match e with EvPush _ _ _ item => Some item | _ => None end) l.

(** The page index that a pushed record carries *)
Definition push_page_index (e : event) : option Z :=
  match e with EvPush _ _ i _ => Some i | _ => None end.

(** A record that carries an enrichment field *)
Definition is_enriched (item : Item) : bool :=
  match categoryPath item, featureBullets item with
  | None, None => false
  | _, _ => true
  end.

(** The calls of one page block: the navigation attempts, then the read of
    the content, then the query for the cards, then the detail visits, then
    the pushes. [r] is what the block has collected. *)
Definition block_log_shape (keyword country : str) (max_items : Z)
    (s : CrawlState) (l : list event) (r : res (option (list Item))) : Prop :=
  exists n l_tail,
    l = repeat (EvGoto (search_url s)) n ++ l_tail /\ (1 <= n <= 3)%nat
    /\ ((l_tail = [] /\ exists e, r = Raise e)
        \/ (l_tail = [EvContent] /\ (r = Ok None \/ exists e, r = Raise e))
        \/ (l_tail = [EvContent; EvCards]
            /\ (r = Ok None \/ exists e, r = Raise e))
        \/ (exists l_detail items k,
              l_tail = [EvContent; EvCards] ++ l_detail
                       ++ map (EvPush keyword country (page_index s)) (take k items)
              /\ (forall e, In e l_detail -> is_detail e = true)
              /\ items <> []
              /\ (Z.of_nat (length items) <= max_items - total_collected s)%Z
              /\ (k <= length items)%nat
              /\ ((r = Ok (Some items) /\ k = length items)
                  \/ exists e, r = Raise e))).

Section Reached.
Context {rt : Runtime}.
Variable pages : nat -> res Page.
Variable keyword country : str.
Variable max_items max_pages : Z.
Variable min_rating : option float.
Variable min_reviews : option Z.
Variable exclude_sponsored fetch_details : bool.
Variable max_detail_items : Z.

(** The values that the loop variables take in a crawl that starts at
    [url]: [reached i s going] says that [s] holds after [i] turns of the
    loop, [going] telling whether the loop then tests its condition again
    ([true]) or has been left by a [break] or an exception ([false]). *)
Inductive reached (url : str) : nat -> CrawlState -> bool -> Prop :=
| reached_start : reached url 0 (initial_state url) true
| reached_turn i s page l c s' :
    reached url i s true ->
    loop_guard max_items max_pages s = true ->
    pages i = Ok page ->
    page_block keyword country max_items min_rating min_reviews
      exclude_sponsored fetch_details max_detail_items page s = (l, c, s') ->
    reached url (S i) s'
      match c, close page with
      | Continue, Ok _ => true
      | _, _ => false
      end.

End Reached.

Definition count_enriched (items : list Item) : nat :=
  length (List.filter is_enriched items).

(** The keywords whose crawl was started, in order *)
Definition started_keywords (l : list event) : list str :=
  omap (fun e => match e with EvStart keyword _ => Some keyword | _ => None end) l.

Definition is_start (e : event) : bool :=
  match e with EvStart _ _ => true | _ => false end.

Definition is_content (e : event) : bool :=
  match e with EvContent => true | _ => false end.

Definition is_detail_goto (e : event) : bool :=
  match e with EvDetailGoto _ => true | _ => false end.

Section Scenarios.
Context {rt : Runtime}.

(** The page loads at the first attempt, is no bot page, holds the cards
    [cards] and lets every record be pushed. *)
Definition serves (page : Page) (cards : list Card) : Prop :=
  goto page 1 = Ok tt /\ settle page 1 = Ok tt
  /\ (exists html, content page = Ok html /\ looks_like_captcha html = false)
  /\ all_matches page sel_cards = Ok cards
  /\ (forall j, push_outcome page j = Ok tt).

(** A card that is read in time and gives a record *)
Definition qualifies (base : str) (min_rating : option float)
    (min_reviews : option Z) (exclude_sponsored : bool) (card : Card) : Prop :=
  parse_overruns card = false
  /\ exists item,
      _parse_single_card card base min_rating min_reviews exclude_sponsored
      = Ok (Some item).

(** No call on the detail page of the [j]-th item fails. *)
Definition detail_page_loads (page : Page) (j : nat) : Prop :=
  exists detail_page,
    detail_page_for page j = Ok detail_page
    /\ detail_goto detail_page = Ok tt
    /\ (exists texts,
          read_texts (detail_locator detail_page sel_breadcrumbs) = Ok texts)
    /\ (exists texts,
          read_texts (detail_locator detail_page sel_bullets) = Ok texts).

(** The detail page of the [j]-th item loads and shows a breadcrumb or a
    feature bullet. *)
Definition detail_page_shows_data (page : Page) (j : nat) : Prop :=
  exists detail_page category_path feature_bullets,
    detail_page_for page j = Ok detail_page
    /\ detail_goto detail_page = Ok tt
    /\ read_texts (detail_locator detail_page sel_breadcrumbs) = Ok category_path
    /\ read_texts (detail_locator detail_page sel_bullets) = Ok feature_bullets
    /\ (category_path <> [] \/ feature_bullets <> []).

End Scenarios.

(** *** Further vocabulary *)

(** The table of [_country_to_domain], lines 99-105 *)
Definition marketplaces : list (str * str) :=
  [(lit "US", lit "www.amazon.com"); (lit "UK", lit "www.amazon.co.uk");
   (lit "DE", lit "www.amazon.de"); (lit "FR", lit "www.amazon.fr");
   (lit "JP", lit "www.amazon.co.jp")].

(** A text that is not empty and has no surrounding whitespace *)
Definition clean_text (k : str) : Prop := k <> [] /\ trimmed k.

Definition text_threshold_input : gmap str pyval :=
  <[ lit "min_reviews" := PStr (lit "12") ]>
    {[ lit "min_rating" := PStr (lit "high") ]}.

(** The three filters of lines 253-258 as a test on the record *)
Definition passes_filters (min_rating : option float) (min_reviews : option Z)
    (exclude_sponsored : bool) (item : Item) : bool :=
  negb match min_rating, rating item with
       | Some m, Some r => float_ltb r m
       | _, _ => false
       end
  && negb match min_reviews, reviewsCount item with
          | Some m, Some r => (r <? m)%Z
          | _, _ => false
          end
  && negb (exclude_sponsored && isSponsored item).

(** A review count as the page prints it: digits with thousands
    separators *)
Definition is_grouped_digit (c : N) : bool :=
  is_ascii_digit c || (c =? 44) || (c =? 46).

(** A result card with a brand attribute, a rating, a review count, three
    badge elements and a sponsored label. *)
Definition labelled_card : Card :=
  {| card_attribute := fun name =>
       if str_eqb name (lit "data-asin") then Ok (Some (lit "B0TEST0002"))
       else if str_eqb name (lit "data-brand") then Ok (Some (lit " Anker "))
       else Ok None;
     card_locator := fun sel =>
       if str_eqb sel sel_title
       then locator_of [element_of (lit "USB hub") [(lit "href", lit "/dp/B0TEST0002")]]
       else if str_eqb sel sel_price then locator_of [element_of (lit "$19.99") []]
       else if str_eqb sel sel_rating
       then locator_of [element_of (lit "4.5 out of 5 stars") []]
       else if str_eqb sel sel_reviews then locator_of [element_of (lit "1,234") []]
       else if str_eqb sel sel_badge
       then locator_of [element_of (lit " Best Seller ") [];
                        element_of (lit "Best Seller") [];
                        element_of (lit "  ") []]
       else if str_eqb sel sel_sponsored
       then locator_of [element_of (lit "Sponsored") []]
       else locator_of [];
     parse_overruns := false |}.

Definition labelled_item : Item :=
  Eval vm_compute in record_of labelled_card de_origin.

(** *** Reading a card *)

Section CardReads.
Context {rt : Runtime}.

(** [title_el] is the locator under which the title link of the card is
    found: the primary selector's when it matches, the fallback's when the
    primary matches nothing and the fallback does (lines 125-129). *)
Definition has_title_link (card : Card) (title_el : Locator) : Prop :=
  (title_el = card_locator card sel_title
   /\ exists n, count (card_locator card sel_title) = Ok (S n))
  \/ (title_el = card_locator card sel_title_fallback
      /\ count (card_locator card sel_title) = Ok O
      /\ exists n, count (card_locator card sel_title_fallback) = Ok (S n)).

(** A fully populated record: every field of [it] is what a read of the
    card returned. No field stands for a read that failed or was not
    made, and the two detail fields are absent. *)
Definition fully_populated (card : Card) (base : str) (it : Item) : Prop :=
  (card_attribute card (lit "data-asin") = Ok (Some (asin it)) /\ asin it <> [])
  /\ (exists title_el t href,
        has_title_link card title_el
        /\ text_content (first_match title_el) = Ok t
        /\ title it = strip (or_empty t)
        /\ get_attribute (first_match title_el) (lit "href") = Ok (Some href)
        /\ href <> []
        /\ productUrl it = if startswith (lit "/") href
                           then base ++ before_query href
                           else before_query href)
  /\ (first_text (card_locator card sel_price) = Ok (priceText it)
      /\ price it = spec_price (priceText it)
      /\ parse_currency (priceText it) = Ok (currency it))
  /\ first_text (card_locator card sel_original_price)
     = Ok (originalPriceText it)
  /\ (exists rating_text,
        first_text (card_locator card sel_rating) = Ok rating_text
        /\ parse_rating rating_text = Ok (rating it))
  /\ (exists reviews_text,
        first_text (card_locator card sel_reviews) = Ok reviews_text
        /\ parse_reviews reviews_text = Ok (reviewsCount it))
  /\ (exists n,
        count (card_locator card sel_prime) = Ok n
        /\ isPrime it = (0 <? n)%nat)
  /\ (exists attr,
        card_attribute card (lit "data-brand") = Ok attr
        /\ ((strip (or_empty attr) <> []
             /\ brand it = clear_badge_like (strip (or_empty attr)))
            \/ (strip (or_empty attr) = []
                /\ exists t,
                    first_text (card_locator card sel_brand) = Ok t
                    /\ brand it = clear_badge_like t)))
  /\ (exists n,
        count (card_locator card sel_badge) = Ok n
        /\ collect_badges (card_locator card sel_badge) 0 n [] = Ok (badges it))
  /\ (exists t,
        first_text (card_locator card sel_sponsored) = Ok t
        /\ isSponsored it = contains (lit "sponsored") (lower t))
  /\ (exists n,
        count (card_locator card sel_image) = Ok n
        /\ match n with
           | O => imageUrl it = []
           | S _ =>
               exists src,
                 get_attribute (first_match (card_locator card sel_image))
                   (lit "src") = Ok src
                 /\ imageUrl it = or_empty src
           end)
  /\ categoryPath it = None /\ featureBullets it = None.

(** A read that the extractor makes of the card fails: one of the calls on
    the card or on one of its elements raises. The reads are those of lines
    119-264, each with the condition under which it is made. *)
Definition read_fails (card : Card) : Prop :=
  (exists e, card_attribute card (lit "data-asin") = Raise e)
  \/ (exists e, count (card_locator card sel_title) = Raise e)
  \/ (exists e, count (card_locator card sel_title) = Ok O
                /\ count (card_locator card sel_title_fallback) = Raise e)
  \/ (exists title_el e,
        has_title_link card title_el
        /\ (text_content (first_match title_el) = Raise e
            \/ get_attribute (first_match title_el) (lit "href") = Raise e))
  \/ (exists sel e,
        In sel [sel_price; sel_original_price; sel_rating; sel_reviews;
                sel_sponsored]
        /\ first_text (card_locator card sel) = Raise e)
  \/ (exists sel e,
        In sel [sel_prime; sel_badge; sel_image]
        /\ count (card_locator card sel) = Raise e)
  \/ (exists e, card_attribute card (lit "data-brand") = Raise e)
  \/ (exists attr e,
        card_attribute card (lit "data-brand") = Ok attr
        /\ strip (or_empty attr) = []
        /\ first_text (card_locator card sel_brand) = Raise e)
  \/ (exists n j e,
        count (card_locator card sel_badge) = Ok n /\ (j < n)%nat
        /\ text_content (nth_match (card_locator card sel_badge) j) = Raise e)
  \/ (exists n e,
        count (card_locator card sel_image) = Ok (S n)
        /\ get_attribute (first_match (card_locator card sel_image))
             (lit "src") = Raise e).

(** The reads that follow the title link succeed: price, original price,
    rating, reviews, Prime badge, brand, badges, sponsored label and
    image. *)
Definition other_reads_succeed (card : Card) : Prop :=
  (forall sel,
      In sel [sel_price; sel_original_price; sel_rating; sel_reviews;
              sel_sponsored] ->
      exists t, first_text (card_locator card sel) = Ok t)
  /\ (forall sel,
        In sel [sel_prime; sel_badge; sel_image] ->
        exists n, count (card_locator card sel) = Ok n)
  /\ (exists attr,
        card_attribute card (lit "data-brand") = Ok attr
        /\ (strip (or_empty attr) = [] ->
            exists t, first_text (card_locator card sel_brand) = Ok t))
  /\ (forall n j,
        count (card_locator card sel_badge) = Ok n -> (j < n)%nat ->
        exists t,
          text_content (nth_match (card_locator card sel_badge) j) = Ok t)
  /\ (forall n,
        count (card_locator card sel_image) = Ok (S n) ->
        exists src,
          get_attribute (first_match (card_locator card sel_image))
            (lit "src") = Ok src).

End CardReads.

(** A result card that shows every field: title link with a query in its
    target, price and original price, rating in the European style, review
    count with a separator, Prime badge, brand as text, a badge and an
    image; no brand attribute and no sponsored label. *)
Definition full_card : Card :=
  {| card_attribute := fun name =>
       if str_eqb name (lit "data-asin") then Ok (Some (lit "B0TEST0003"))
       else Ok None;
     card_locator := fun sel =>
       if str_eqb sel sel_title
       then locator_of [element_of (lit " Braided cable ")
                          [(lit "href", lit "/dp/B0TEST0003?ref=sr_1_1")]]
       else if str_eqb sel sel_price
       then locator_of [element_of (lit "$1,234.56") []]
       else if str_eqb sel sel_original_price
       then locator_of [element_of (lit "$1,500.00") []]
       else if str_eqb sel sel_rating
       then locator_of [element_of (lit "4,5 von 5 Sternen") []]
       else if str_eqb sel sel_reviews
       then locator_of [element_of (lit "2.345") []]
       else if str_eqb sel sel_prime then locator_of [element_of [] []]
       else if str_eqb sel sel_brand then locator_of [element_of (lit "Anker") []]
       else if str_eqb sel sel_badge
       then locator_of [element_of (lit " Amazon's Choice ") []]
       else if str_eqb sel sel_image
       then locator_of [element_of []
                          [(lit "src", lit "https://m.media-amazon.com/i.jpg")]]
       else locator_of [];
     parse_overruns := false |}.

(** The record of [full_card] on the German marketplace, written out. *)
#[warnings="-inexact-float"]
Definition full_record : Item :=
  {| asin := lit "B0TEST0003";
     title := lit "Braided cable";
     productUrl := lit "https://www.amazon.de/dp/B0TEST0003";
     priceText := lit "$1,234.56";
     price := Some (Prim2SF 1234.56);
     originalPriceText := lit "$1,500.00";
     rating := Some (Prim2SF 4.5);
     reviewsCount := Some 2345%Z;
     isPrime := true;
     brand := lit "Anker";
     badges := [lit "Amazon's Choice"];
     isSponsored := false;
     imageUrl := lit "https://m.media-amazon.com/i.jpg";
     currency := lit "$";
     categoryPath := None;
     featureBullets := None |}.

(** The same card with a price element that cannot be read. *)
Definition broken_price_card : Card :=
  {| card_attribute := card_attribute full_card;
     card_locator := fun sel =>
       if str_eqb sel sel_price
       then {| count := Raise PlaywrightError; nth_match := fun _ => no_element |}
       else card_locator full_card sel;
     parse_overruns := false |}.

(** The same card without an ASIN attribute. *)
Definition anonymous_card : Card :=
  {| card_attribute := fun _ => Ok None;
     card_locator := card_locator full_card;
     parse_overruns := false |}.

(** The same card with a title link that has no target. *)
Definition untargeted_card : Card :=
  {| card_attribute := card_attribute full_card;
     card_locator := fun sel =>
       if str_eqb sel sel_title
       then locator_of [element_of (lit " Braided cable ") []]
       else card_locator full_card sel;
     parse_overruns := false |}.

(** The outcome of one navigation attempt: [goto], then the pause that lets
    the page render (lines 351-357) *)
Definition attempt_outcome (page : Page) (attempt : nat) : res unit :=
  _ <- goto page attempt ;; settle page attempt.

(** Whether a search page is open after the calls [l], [open] telling
    whether one was open before them.  [None] when a call is out of turn: a
    search page opened while another is open, or a page closed or used while
    none is open. *)
Fixpoint page_lifecycle (open : bool) (l : list event) : option bool :=
  match l with
  | [] => Some open
  | EvStart _ _ :: t => page_lifecycle open t
  | EvNewPage :: t => if open then None else page_lifecycle true t
  | EvClose :: t => if open then page_lifecycle false t else None
  | _ :: t => if open then page_lifecycle true t else None
  end.

(** The calls made while a search page is open *)
Definition is_page_call (e : event) : bool :=
  match e with
  | EvStart _ _ | EvNewPage | EvClose => false
  | _ => true
  end.

(** The record without the two fields that a detail page adds *)
Definition search_fields (item : Item) : Item :=
  {| asin := asin item; title := title item; productUrl := productUrl item;
     priceText := priceText item; price := price item;
     originalPriceText := originalPriceText item; rating := rating item;
     reviewsCount := reviewsCount item; isPrime := isPrime item;
     brand := brand item; badges := badges item;
     isSponsored := isSponsored item; imageUrl := imageUrl item;
     currency := currency item;
     categoryPath := None; featureBullets := None |}.

(** A detail field is absent or a non-empty list of clean texts. *)
Definition detail_field_ok (field : option (list str)) : Prop :=
  match field with
  | None => True
  | Some v => v <> [] /\ Forall clean_text v
  end.

(** The detail fields of a record are well formed. *)
Definition details_ok (item : Item) : Prop :=
  detail_field_ok (categoryPath item) /\ detail_field_ok (featureBullets item).

(** A UTF-16 surrogate: a code point that has no UTF-8 encoding *)
Definition is_surrogate (c : N) : bool := (55296 <=? c) && (c <=? 57343).

(** The characters of an encoded query value: unreserved ones, [+] and
    [%] *)
Definition is_query_safe (c : N) : bool :=
  is_unreserved c || (c =? 43) || (c =? 37).

(** A search page whose first navigation attempt times out and whose second
    succeeds. *)
Definition slow_page : Page :=
  {| goto := fun attempt =>
       match attempt with
       | 1%nat => Raise PlaywrightTimeoutError
       | _ => Ok tt
       end;
     settle := fun _ => Ok tt;
     backoff := fun _ => Ok tt;
     content := Ok results_html;
     all_matches := fun _ => Ok [];
     page_locator := fun _ => locator_of [];
     detail_page_for := fun _ => Raise PlaywrightError;
     push_outcome := fun _ => Ok tt;
     close := Ok tt |}.

(** A search page for whose items only the first detail page can be
    opened. *)
Definition one_detail_page (cards : list Card) : Page :=
  {| goto := fun _ => Ok tt;
     settle := fun _ => Ok tt;
     backoff := fun _ => Ok tt;
     content := Ok results_html;
     all_matches := fun sel => if str_eqb sel sel_cards then Ok cards else Ok [];
     page_locator := fun _ => locator_of [];
     detail_page_for := fun j =>
       match j with
       | O => Ok (sample_detail_page [lit "Electronics"])
       | S _ => Raise PlaywrightError
       end;
     push_outcome := fun _ => Ok tt;
     close := Ok tt |}.

(** A run in which every search page shows one card and a next-page link. *)
Definition serving_world : World :=
  {| search_pages := fun _ => endless_pages [case_card 0];
     launch := Ok tt;
     new_context := Ok tt;
     context_close := Ok tt;
     browser_close := Ok tt |}.

Definition one_page_input : gmap str pyval :=
  <[ lit "max_pages" := PInt 1 ]> {[ lit "keywords" := PStr (lit "usb hub") ]}.

(** ** Facts about strings *)

Lemma lstrip_with_head p s c t : lstrip_with p s = c :: t -> p c = false.
Proof.
  induction s as [|a s IH]; simpl; [discriminate|].
  destruct (p a) eqn:Ha; [exact IH|].
  intros [= <- _]. exact Ha.
Qed.

Lemma lstrip_with_snoc p a x :
  p x = false -> lstrip_with p (a ++ [x]) = lstrip_with p a ++ [x].
Proof.
  intros Hx. induction a as [|c a IH]; simpl.
  - now rewrite Hx.
  - destruct (p c); [exact IH | reflexivity].
Qed.

Lemma strip_trimmed s : trimmed (strip s).
Proof.
  unfold trimmed, strip, strip_with.
  destruct (lstrip_with isspace s) as [|c u] eqn:Hu; [left; reflexivity|].
  pose proof (lstrip_with_head _ _ _ _ Hu) as Hc.
  right. simpl rev.
  rewrite (lstrip_with_snoc isspace (rev u) c Hc), rev_app_distr. simpl.
  destruct (lstrip_with isspace (rev u)) as [|d v] eqn:Hv.
  - exists c, [], c. auto.
  - pose proof (lstrip_with_head _ _ _ _ Hv) as Hd.
    exists c, (rev v), d. simpl. auto.
Qed.

Lemma strip_of_trimmed s : trimmed s -> strip s = s.
Proof.
  intros [-> | (c & mid & d & [-> | ->] & Hc & Hd)]; [reflexivity| |].
  - unfold strip, strip_with. simpl. rewrite Hc. simpl. now rewrite Hc.
  - unfold strip, strip_with. simpl lstrip_with. rewrite Hc.
    change (c :: mid ++ [d]) with ([c] ++ mid ++ [d]).
    rewrite !rev_app_distr. simpl. rewrite Hd.
    change (d :: rev mid ++ [c]) with ([d] ++ rev mid ++ [c]).
    rewrite !rev_app_distr, rev_involutive. reflexivity.
Qed.

Lemma strip_idempotent s : strip (strip s) = strip s.
Proof. apply strip_of_trimmed, strip_trimmed. Qed.

Lemma index_last_snoc {A} (l : list A) x : index_last (l ++ [x]) = Ok x.
Proof. unfold index_last. now rewrite rev_app_distr. Qed.

Lemma index_last_cons {A} (l : list A) x y :
  index_last l = Ok y -> index_last (x :: l) = Ok y.
Proof.
  unfold index_last. simpl. destruct (rev l) as [|z r]; [discriminate|].
  intros [= <-]. reflexivity.
Qed.

Lemma split_ws_from_token tok : forall cur,
  no_space tok ->
  split_ws_from cur tok = match rev cur ++ tok with [] => [] | t => [t] end.
Proof.
  induction tok as [|c tok IH]; intros cur Hns; simpl.
  - rewrite app_nil_r. destruct cur as [|a cur]; [reflexivity|].
    simpl. destruct (rev cur ++ [a]) eqn:E; [|reflexivity].
    now destruct (rev cur).
  - inversion Hns as [|? ? Hc Htok]; subst. rewrite Hc.
    rewrite (IH (c :: cur) Htok). simpl. now rewrite <- app_assoc.
Qed.

Lemma split_ws_from_last pre w tok : forall cur,
  isspace w = true -> no_space tok -> tok <> [] ->
  index_last (split_ws_from cur (pre ++ w :: tok)) = Ok tok.
Proof.
  intros cur Hw Hns Hne. revert cur.
  assert (Hbase : index_last (split_ws_from [] tok) = Ok tok).
  { rewrite (split_ws_from_token tok [] Hns). simpl.
    destruct tok; [contradiction | reflexivity]. }
  induction pre as [|c pre IH]; intros cur; simpl.
  - rewrite Hw. destruct cur; [exact Hbase|].
    now apply index_last_cons.
  - destruct (isspace c).
    + destruct cur; [apply IH|]. apply index_last_cons, IH.
    + apply IH.
Qed.

Lemma split_ws_trailing_token pre tok :
  trailing_token pre tok -> index_last (split_ws (pre ++ tok)) = Ok tok.
Proof.
  intros (Hne & Hns & [-> | (pre' & w & -> & Hw)]); unfold split_ws.
  - simpl. rewrite (split_ws_from_token tok [] Hns). simpl.
    destruct tok; [contradiction | reflexivity].
  - rewrite <- app_assoc. simpl. now apply split_ws_from_last.
Qed.

(** Every text that ends with a non-space character has a trailing token. *)
Lemma trailing_token_exists s d :
  isspace d = false ->
  exists pre tok, s ++ [d] = pre ++ tok /\ trailing_token pre tok.
Proof.
  intros Hd.
  assert (Hd1 : no_space [d]) by (constructor; [exact Hd | constructor]).
  induction s as [|x s IH] using rev_ind.
  - exists [], [d]. split; [reflexivity|].
    split; [discriminate|]. split; [exact Hd1 | now left].
  - destruct (isspace x) eqn:Hx.
    + exists (s ++ [x]), [d]. split; [reflexivity|].
      split; [discriminate|]. split; [exact Hd1 | right; eauto].
    + destruct IH as (pre & tok & E & Hne & Hns & Hpre).
      (* the token of [s ++ [d]] ends with [d]: [x] goes before that [d] *)
      destruct (exists_last Hne) as (tok' & d' & ->).
      rewrite app_assoc in E. apply app_inj_tail in E as [E <-].
      exists pre, (tok' ++ [x; d]). split.
      { rewrite E, <- !app_assoc. reflexivity. }
      split; [now destruct tok'|]. split; [|exact Hpre].
      unfold no_space in *. apply Forall_app in Hns as [Ht _].
      apply Forall_app. split; [exact Ht|]. repeat constructor; assumption.
Qed.

Lemma contains_currency_symbol c :
  contains [c] (lit "$€£¥") = is_currency_symbol c.
Proof.
  change (lit "$€£¥") with [36; 8364; 163; 165].
  unfold is_currency_symbol. cbn [contains startswith].
  rewrite !andb_true_r, !orb_false_r.
  rewrite (N.eqb_sym c 36), (N.eqb_sym c 8364), (N.eqb_sym c 163), (N.eqb_sym c 165).
  now rewrite !orb_assoc.
Qed.

(** ** FieldExtractor: [_parse_single_card] and [_extract_product_cards] *)

Section FieldExtractor.
Context {rt : Runtime}.

Lemma float_of_str_raises s e : float_of_str s = Raise e -> e = ValueError.
Proof. unfold float_of_str. repeat case_match; congruence. Qed.

Lemma int_of_str_raises s e : int_of_str s = Raise e -> e = ValueError.
Proof. unfold int_of_str. repeat case_match; congruence. Qed.

Lemma replace_remove old s :
  replace old [] s = List.filter (fun c => negb (c =? old)) s.
Proof.
  unfold replace. induction s as [|c s IH]; [reflexivity|].
  simpl. rewrite IH. now destruct (c =? old).
Qed.

Lemma replace_single old new s :
  replace old [new] s = map (fun c => if c =? old then new else c) s.
Proof.
  unfold replace. induction s as [|c s IH]; [reflexivity|].
  simpl. rewrite IH. now destruct (c =? old).
Qed.

Lemma existsb_filter_kept (p q : N -> bool) l :
  (forall c, q c = true -> p c = true) ->
  existsb q (List.filter p l) = existsb q l.
Proof.
  intros Hpq. induction l as [|c l IH]; [reflexivity|].
  simpl. destruct (p c) eqn:Hp; simpl; rewrite IH; [reflexivity|].
  destruct (q c) eqn:Hq; [|reflexivity].
  apply Hpq in Hq. congruence.
Qed.

Lemma float_of_empty : float_of_str [] = Raise ValueError.
Proof. reflexivity. Qed.

(** The code's price rule is the one the specification words. *)
Lemma parse_price_spec whole : parse_price whole = Ok (spec_price whole).
Proof.
  unfold parse_price, spec_price, numeric_part, normalize_number.
  set (keep := fun c => isdigit c || (c =? 44) || (c =? 46)).
  assert (H44 : existsb (N.eqb 44) (List.filter keep whole)
                = existsb (N.eqb 44) whole).
  { apply existsb_filter_kept. intros c Hc. apply N.eqb_eq in Hc. subst c.
    unfold keep. now rewrite orb_true_r. }
  assert (H46 : existsb (N.eqb 46) (List.filter keep whole)
                = existsb (N.eqb 46) whole).
  { apply existsb_filter_kept. intros c Hc. apply N.eqb_eq in Hc. subst c.
    unfold keep. now rewrite orb_true_r. }
  cbv zeta. rewrite <- H44, <- H46. clear H44 H46.
  destruct whole as [|c0 w0] eqn:Hw; [reflexivity|]. rewrite <- Hw. clear Hw.
  destruct (List.filter keep whole) as [|c1 n1]; [reflexivity|].
  cbv iota. rewrite replace_single, !replace_remove.
  destruct (float_of_str _) as [f|e] eqn:Hf; [reflexivity|].
  apply float_of_str_raises in Hf. now subst e.
Qed.

Lemma parse_rating_total t : exists r, parse_rating t = Ok r.
Proof.
  unfold parse_rating. destruct t as [|c t]; [eauto|].
  destruct (index_first _) as [tok|e] eqn:Ht; cbn [bind].
  - destruct (float_of_str _) as [f|e] eqn:Hf; [eauto|].
    apply float_of_str_raises in Hf. subst e. eauto.
  - unfold index_first in Ht. destruct (split_ws _); [|discriminate].
    injection Ht as <-. eauto.
Qed.

Lemma parse_reviews_total t : exists r, parse_reviews t = Ok r.
Proof.
  unfold parse_reviews. destruct t as [|c t]; [eauto|].
  destruct (int_of_str _) as [v|e] eqn:Hn; [eauto|].
  apply int_of_str_raises in Hn. subst e. eauto.
Qed.

Lemma trimmed_last s c t :
  trimmed s -> s = c :: t -> exists s' d, s = s' ++ [d] /\ isspace d = false.
Proof.
  intros [-> | (a & mid & d & [E | E] & Ha & Hd)] Hs; [discriminate| |].
  - exists [], a. now rewrite E.
  - exists (a :: mid), d. now rewrite E.
Qed.

(** The currency rule, on a text without surrounding whitespace. *)
Lemma parse_currency_rule text :
  trimmed text ->
  exists cur, parse_currency text = Ok cur /\
    match text with
    | [] => cur = []
    | c :: _ =>
        if is_currency_symbol c then cur = [c]
        else exists pre tok,
            text = pre ++ tok /\ trailing_token pre tok /\
            cur = if (length tok =? 3)%nat || (length tok =? 4)%nat
                  then tok else []
    end.
Proof.
  intros Ht. destruct text as [|c rest]; [exists []; split; reflexivity|].
  unfold parse_currency. cbv zeta. rewrite (strip_of_trimmed _ Ht). cbv iota.
  unfold currency_symbols. rewrite contains_currency_symbol.
  destruct (is_currency_symbol c).
  - exists [c]. split; reflexivity.
  - destruct (trimmed_last _ _ _ Ht eq_refl) as (s' & d & Es & Hd).
    destruct (trailing_token_exists s' d Hd) as (pre & tok & Ed & Htok).
    rewrite Es, Ed, (split_ws_trailing_token _ _ Htok). cbn [bind].
    exists (if (length tok =? 3)%nat || (length tok =? 4)%nat then tok else []).
    split; [now destruct (_ || _)|]. exists pre, tok. auto.
Qed.

Lemma first_text_trimmed l w : first_text l = Ok w -> trimmed w.
Proof.
  unfold first_text. destruct (count l) as [n|]; cbn [bind]; [|discriminate].
  destruct (0 <? n)%nat.
  - destruct (text_content _); cbn [bind]; [|discriminate].
    intros [= <-]. apply strip_trimmed.
  - intros [= <-]. now left.
Qed.

Ltac invert_bind H :=
  repeat lazymatch type of H with
  | bind ?m _ = Ok _ =>
      let E := fresh "E" in
      destruct m eqn:E; cbn [bind] in H; [|discriminate H]
  | (if ?b then _ else _) = Ok (Some _) =>
      let E := fresh "B" in
      destruct b eqn:E; [discriminate H|]
  end.

Lemma is_blank_false o : is_blank o = false -> exists s, o = Some s /\ s <> [].
Proof. destruct o as [[|c s]|]; try discriminate. intros _. eauto. Qed.

Lemma index_first_split_on s : index_first (split_on 63 s) = Ok (before_query s).
Proof.
  induction s as [|c s IH]; [reflexivity|]. simpl.
  destruct (c =? 63); [reflexivity|].
  destruct (split_on 63 s) as [|h r]; [discriminate|].
  simpl in *. congruence.
Qed.

(** What a record returned by the extractor says about the card it was
    read from. [title_el] is the locator that found the title link. *)
Lemma parse_card_body_inv card base mr mrev ex it :
  parse_card_body card base mr mrev ex = Ok (Some it) ->
  (card_attribute card (lit "data-asin") = Ok (Some (asin it)) /\ asin it <> [])
  /\ (exists title_el n t href,
        (title_el = card_locator card sel_title
         \/ (count (card_locator card sel_title) = Ok O
             /\ title_el = card_locator card sel_title_fallback))
        /\ count title_el = Ok (S n)
        /\ text_content (first_match title_el) = Ok t
        /\ title it = strip (or_empty t)
        /\ get_attribute (first_match title_el) (lit "href") = Ok (Some href)
        /\ href <> []
        /\ productUrl it = if startswith (lit "/") href
                           then base ++ before_query href
                           else before_query href)
  /\ (first_text (card_locator card sel_price) = Ok (priceText it)
      /\ parse_price (priceText it) = Ok (price it)
      /\ parse_currency (priceText it) = Ok (currency it))
  /\ categoryPath it = None /\ featureBullets it = None.
Proof.
  intros H. unfold parse_card_body in H. invert_bind H.
  injection H as <-.
  cbn [asin title productUrl priceText price currency categoryPath featureBullets].
  apply is_blank_false in B as (a' & -> & Ha).
  apply is_blank_false in B1 as (h' & -> & Hh).
  cbn [or_empty] in *. rewrite index_first_split_on in E4.
  injection E4 as <-.
  split; [auto|]. split; [|auto].
  destruct a1 as [|n1]; [discriminate|].
  destruct a0 as [|n0]; cbn [Nat.eqb] in E1, E2, E3.
  - exists (card_locator card sel_title_fallback), n1, a2, h'. auto 10.
  - exists (card_locator card sel_title), n1, a2, h'. auto 10.
Qed.

Lemma _parse_single_card_some card base mr mrev ex it :
  _parse_single_card card base mr mrev ex = Ok (Some it) ->
  parse_card_body card base mr mrev ex = Ok (Some it).
Proof.
  unfold _parse_single_card. destruct (parse_card_body _ _ _ _ _); congruence.
Qed.

Lemma before_query_no_mark href : ~ In 63 (before_query href).
Proof.
  induction href as [|c t IH]; simpl; [tauto|].
  destruct (c =? 63) eqn:Hc; simpl; [tauto|].
  intros [-> | H]; [discriminate | tauto].
Qed.

Lemma not_in_by_existsb (c : N) l : existsb (N.eqb c) l = false -> ~ In c l.
Proof.
  intros H Hin. assert (existsb (N.eqb c) l = true); [|congruence].
  apply existsb_exists. exists c. split; [exact Hin | apply N.eqb_refl].
Qed.

Lemma base_url_no_mark country : ~ In 63 (base_url country).
Proof.
  unfold base_url, _country_to_domain. intros H.
  apply in_app_or in H as [H | H]; revert H.
  - apply not_in_by_existsb. reflexivity.
  - repeat case_match; apply not_in_by_existsb; reflexivity.
Qed.

Lemma startswith_app p s : startswith p (p ++ s) = true.
Proof.
  induction p as [|c p IH]; simpl; [reflexivity|]. now rewrite N.eqb_refl.
Qed.

Lemma base_url_absolute country s : is_absolute_url (base_url country ++ s) = true.
Proof. reflexivity. Qed.

(** The batch is the list of the records of its cards, in order: a card
    gives one record, or none when it is discarded or overruns. *)
Lemma extract_cards_from_spec base mr mrev ex cards : forall items,
  extract_cards_from cards base mr mrev ex items
  = Ok (items ++ omap (fun card =>
                         if parse_overruns card then None
                         else match _parse_single_card card base mr mrev ex with
                              | Ok o => o
                              | Raise _ => None
                              end) cards).
Proof.
  induction cards as [|card rest IH]; intros items; simpl.
  - now rewrite app_nil_r.
  - unfold wait_for_parse. destruct (parse_overruns card); [apply IH|].
    unfold _parse_single_card.
    destruct (parse_card_body card base mr mrev ex) as [[it|]|e]; rewrite IH.
    + now rewrite <- app_assoc.
    + reflexivity.
    + reflexivity.
Qed.

Lemma with_title_text_other card t sel :
  str_eqb sel sel_title || str_eqb sel sel_title_fallback = false ->
  card_locator (with_title_text card t) sel = card_locator card sel.
Proof. intros H. cbn [with_title_text card_locator]. now rewrite H. Qed.

(** C4 (as amended).  For every record the extractor returns, the price text
    has no surrounding whitespace and the currency follows from it: the first
    character when that is one of [$ € £ ¥]; otherwise the trailing
    whitespace-delimited token when it is 3 or 4 characters long; otherwise
    empty.  In particular the price text ["92,14 €"] gives the empty currency,
    its trailing token being one character long. *)
Theorem currency_field_rule card base mr mrev ex it :
  _parse_single_card card base mr mrev ex = Ok (Some it) ->
  trimmed (priceText it)
  /\ match priceText it with
     | [] => currency it = []
     | c :: _ =>
         if is_currency_symbol c then currency it = [c]
         else exists pre tok,
             priceText it = pre ++ tok /\ trailing_token pre tok /\
             currency it = if (length tok =? 3)%nat || (length tok =? 4)%nat
                           then tok else []
     end
  /\ (priceText it = lit "92,14 €" -> currency it = []).
Proof.
  intros H. apply _parse_single_card_some, parse_card_body_inv in H.
  destruct H as (_ & _ & (Htext & _ & Hcur) & _).
  pose proof (first_text_trimmed _ _ Htext) as Htrim.
  split; [exact Htrim|]. split.
  - destruct (parse_currency_rule _ Htrim) as (cur & Hc & Hrule).
    rewrite Hcur in Hc. injection Hc as <-. exact Hrule.
  - intros Hp.
    assert (Hc : parse_currency (lit "92,14 €") = Ok []) by (vm_compute; reflexivity).
    rewrite Hp, Hc in Hcur. congruence.
Qed.

(** C5.  For every record the extractor returns, the price text is the
    stripped text of the price element, kept whatever the parse gives, and
    the price is the one the specification words: European style when the
    text has a comma and no period, commas stripped otherwise, absent when
    the result is not a float.  In particular ["$92.14"] and ["92,14 €"]
    give 92.14 and ["1,234.56"] gives 1234.56. *)
#[warnings="-inexact-float"]
Theorem price_field_rule card base mr mrev ex it :
  _parse_single_card card base mr mrev ex = Ok (Some it) ->
  first_text (card_locator card sel_price) = Ok (priceText it)
  /\ price it = spec_price (priceText it)
  /\ (priceText it = lit "$92.14" -> price it = Some (Prim2SF 92.14))
  /\ (ucd_isdigit 8364 = false ->
      priceText it = lit "92,14 €" -> price it = Some (Prim2SF 92.14))
  /\ (priceText it = lit "1,234.56" -> price it = Some (Prim2SF 1234.56)).
Proof.
  intros H. apply _parse_single_card_some, parse_card_body_inv in H.
  destruct H as (_ & _ & (Htext & Hprice & _) & _).
  rewrite parse_price_spec in Hprice. injection Hprice as Hprice.
  split; [exact Htext|]. split; [auto|].
  rewrite <- Hprice. repeat split.
  - intros ->. vm_compute. reflexivity.
  - intros Heuro ->. unfold spec_price.
    assert (Hd : isdigit 8364 = false) by (unfold isdigit; exact Heuro).
    replace (List.filter _ (lit "92,14 €")) with (lit "92,14").
    + vm_compute. reflexivity.
    + change (lit "92,14 €") with (lit "92,14 " ++ [8364]).
      rewrite List.filter_app.
      replace (List.filter _ (lit "92,14 ")) with (lit "92,14")
        by (vm_compute; reflexivity).
      cbn [List.filter]. rewrite Hd. reflexivity.
  - intros ->. vm_compute. reflexivity.
Qed.

Lemma has_title_link_unique card el1 el2 :
  has_title_link card el1 -> has_title_link card el2 -> el1 = el2.
Proof.
  intros [(-> & n1 & H1) | (-> & H1 & _)] [(-> & n2 & H2) | (-> & H2 & _)];
    congruence.
Qed.

(** The badge loop reads the text of every badge element it is given. *)
Lemma collect_badges_reads l : forall n i acc out,
  collect_badges l i n acc = Ok out ->
  forall j, (i <= j < i + n)%nat ->
    exists t, text_content (nth_match l j) = Ok t.
Proof.
  induction n as [|n IH]; intros i acc out H j Hj; [lia|].
  cbn [collect_badges] in H.
  destruct (text_content (nth_match l i)) as [text|] eqn:Ht; cbn [bind] in H;
    [|discriminate H].
  destruct (Nat.eq_dec j i) as [-> | Hji]; [eauto|].
  apply (IH _ _ _ H). lia.
Qed.

Lemma collect_badges_total l : forall n i acc,
  (forall j, (i <= j < i + n)%nat ->
     exists t, text_content (nth_match l j) = Ok t) ->
  exists out, collect_badges l i n acc = Ok out.
Proof.
  induction n as [|n IH]; intros i acc Hall; [cbn; eauto|].
  cbn [collect_badges].
  destruct (Hall i ltac:(lia)) as (t & ->). cbn [bind].
  apply IH. intros j Hj. apply Hall. lia.
Qed.

(** Every field of a record that the extractor returns is what a read of
    the card returned, and the record passes the filters. *)
Lemma parse_card_body_reads card base mr mrev ex it :
  parse_card_body card base mr mrev ex = Ok (Some it) ->
  fully_populated card base it /\ passes_filters mr mrev ex it = true.
Proof.
  intros H. unfold parse_card_body in H. invert_bind H.
  injection H as <-.
  apply is_blank_false in B as (a' & -> & Ha).
  apply is_blank_false in B1 as (h' & -> & Hh).
  cbn [or_empty] in *. rewrite index_first_split_on in E4.
  injection E4 as <-.
  rewrite parse_price_spec in E6. injection E6 as <-.
  split.
  2:{ unfold passes_filters. cbn [rating reviewsCount isSponsored].
      now rewrite B2, B3, B4. }
  unfold fully_populated.
  cbn [asin title productUrl priceText price originalPriceText rating
       reviewsCount isPrime brand badges isSponsored imageUrl currency
       categoryPath featureBullets].
  split; [split; [exact E | exact Ha]|].
  split.
  { destruct a1 as [|n1]; [discriminate|].
    destruct a0 as [|n0]; cbn [Nat.eqb] in E1, E2, E3.
    - exists (card_locator card sel_title_fallback), a2, h'.
      split.
      { right. split; [reflexivity|]. split; [exact E0|]. exists n1. exact E1. }
      split; [exact E2|]. split; [reflexivity|]. split; [exact E3|].
      split; [exact Hh | reflexivity].
    - exists (card_locator card sel_title), a2, h'.
      split.
      { left. split; [reflexivity|]. exists n1. exact E1. }
      split; [exact E2|]. split; [reflexivity|]. split; [exact E3|].
      split; [exact Hh | reflexivity]. }
  split.
  { split; [exact E5|]. split; [reflexivity | exact E7]. }
  split; [exact E8|].
  split; [exists a9; split; [exact E9 | exact E10]|].
  split; [exists a11; split; [exact E11 | exact E12]|].
  split; [exists a13; split; [exact E13 | reflexivity]|].
  split.
  { exists a14. split; [exact E14|].
    destruct (strip (or_empty a14)) as [|c0 b0] eqn:Hs.
    - right. split; [reflexivity|]. exists a15. split; [exact E15 | reflexivity].
    - left. split; [discriminate|]. now injection E15 as <-. }
  split.
  { exists a16. split; [exact E16|].
    destruct a16 as [|n]; [|exact E17].
    cbn [Nat.ltb Nat.leb] in E17. exact E17. }
  split; [exists a18; split; [exact E18 | reflexivity]|].
  split; [|split; reflexivity].
  exists a19. split; [exact E19|].
  destruct a19 as [|n]; cbn [Nat.ltb Nat.leb] in E20.
  - now injection E20 as <-.
  - match type of E20 with
    | bind ?m _ = _ => destruct m as [src|] eqn:Hsrc
    end; cbn [bind] in E20; [|discriminate E20].
    exists src. split; [reflexivity | now injection E20 as <-].
Qed.

(** C8.  The extractor returns a fully populated record or a discard,
    never a partial record, and never raises.  A card whose ASIN attribute
    is absent or empty is discarded, and so is a card on which neither title
    selector finds a link, whatever else the card holds.  A failure of any
    read that the extractor makes of the card, whatever is raised, gives a
    discard.  A record that is returned is fully populated: every one of
    its fields is what a read of the card returned (the ASIN, the stripped
    title text, the product URL from the link target, the price text with
    the price and the currency read from it, the original price text, the
    rating, the review count, the Prime flag, the brand, the badges, the
    sponsored flag and the image address), the two detail fields are absent,
    and the record passes the filters.  The batch never raises either: it is
    the list of the records of its cards, in order, a card that is discarded
    or overruns its deadline giving none. *)
Theorem extractor_record_or_discard card cards base mr mrev ex :
  (exists o, _parse_single_card card base mr mrev ex = Ok o)
  /\ (forall a, card_attribute card (lit "data-asin") = Ok a ->
                is_blank a = true ->
                _parse_single_card card base mr mrev ex = Ok None)
  /\ (count (card_locator card sel_title) = Ok O ->
      count (card_locator card sel_title_fallback) = Ok O ->
      _parse_single_card card base mr mrev ex = Ok None)
  /\ (read_fails card -> _parse_single_card card base mr mrev ex = Ok None)
  /\ (forall it, _parse_single_card card base mr mrev ex = Ok (Some it) ->
        fully_populated card base it /\ passes_filters mr mrev ex it = true)
  /\ _extract_product_cards cards base mr mrev ex
     = Ok (omap (fun card =>
                   if parse_overruns card then None
                   else match _parse_single_card card base mr mrev ex with
                        | Ok o => o
                        | Raise _ => None
                        end) cards).
Proof.
  assert (Htotal : exists o, _parse_single_card card base mr mrev ex = Ok o).
  { unfold _parse_single_card. destruct (parse_card_body _ _ _ _ _); eauto. }
  assert (Hfull : forall it,
            _parse_single_card card base mr mrev ex = Ok (Some it) ->
            fully_populated card base it
            /\ passes_filters mr mrev ex it = true).
  { intros it H. now apply parse_card_body_reads, _parse_single_card_some. }
  split; [exact Htotal|]. split; [|split; [|split; [|split]]].
  - intros a Ha Hblank. unfold _parse_single_card, parse_card_body.
    rewrite Ha. cbn [bind]. now rewrite Hblank.
  - intros H1 H2. unfold _parse_single_card, parse_card_body.
    destruct (card_attribute card (lit "data-asin")) as [a|]; cbn [bind];
      [|reflexivity].
    destruct (is_blank a); [reflexivity|].
    rewrite H1. cbn [bind Nat.eqb]. rewrite H2. reflexivity.
  - intros Hfail. destruct Htotal as ([it|] & Ho); [|exact Ho]. exfalso.
    destruct (Hfull it Ho)
      as (((Hasin & _) & (el & t & href & Hel & Ht & _ & Hh & _)
           & (Hprice & _) & Horig & (rt0 & Hrt & _) & (rv & Hrv & _)
           & (np & Hnp & _) & (attr & Hattr & Hbrand) & (nb & Hnb & Hbadges)
           & (sp & Hsp & _) & (ni & Hni & Himg) & _) & _).
    destruct Hfail
      as [(e & He) | [(e & He) | [(e & H0 & He) | [(el' & e & Hel' & He)
         | [(sel & e & Hsel & He) | [(sel & e & Hsel & He) | [(e & He)
         | [(attr' & e & Hattr' & Hs & He) | [(n & j & e & Hn & Hj & He)
         | (n & e & Hn & He)]]]]]]]]].
    + congruence.
    + destruct Hel as [(_ & n & Hn) | (_ & Hn & _)]; congruence.
    + destruct Hel as [(_ & n & Hn) | (_ & _ & n & Hn)]; congruence.
    + rewrite (has_title_link_unique _ _ _ Hel' Hel) in He.
      destruct He; congruence.
    + destruct Hsel as [<- | [<- | [<- | [<- | [<- | []]]]]]; congruence.
    + destruct Hsel as [<- | [<- | [<- | []]]]; congruence.
    + congruence.
    + rewrite Hattr' in Hattr. injection Hattr as <-.
      destruct Hbrand as [(Hne & _) | (_ & t0 & Ht0 & _)]; congruence.
    + rewrite Hn in Hnb. injection Hnb as <-.
      destruct (collect_badges_reads _ _ _ _ _ Hbadges j ltac:(lia)) as (t0 & Ht0).
      congruence.
    + rewrite Hn in Hni. injection Hni as <-.
      destruct Himg as (src & Hsrc & _). congruence.
  - exact Hfull.
  - apply (extract_cards_from_spec base mr mrev ex cards []).
Qed.

(** C9 (as amended).  For every record extracted for a country, the product
    URL contains no [?]: it is the link target cut before its first [?],
    and, when the target begins with [/], prefixed with the origin of the
    country's marketplace, which makes it absolute.  A target that does not
    begin with [/] is kept as it is. *)
Theorem product_url_rule card country mr mrev ex it :
  _parse_single_card card (base_url country) mr mrev ex = Ok (Some it) ->
  ~ In 63 (productUrl it)
  /\ exists title_el href,
      (title_el = card_locator card sel_title
       \/ title_el = card_locator card sel_title_fallback)
      /\ get_attribute (first_match title_el) (lit "href") = Ok (Some href)
      /\ (startswith (lit "/") href = true ->
          productUrl it = lit "https://" ++ _country_to_domain country
                            ++ before_query href
          /\ is_absolute_url (productUrl it) = true)
      /\ (startswith (lit "/") href = false ->
          productUrl it = before_query href).
Proof.
  intros H. apply _parse_single_card_some, parse_card_body_inv in H.
  destruct H as (_ & (el & n & t & href & Hel & _ & _ & _ & Hh & _ & Hurl) & _).
  split.
  - rewrite Hurl. destruct (startswith _ href).
    + intros Hin. apply in_app_or in Hin as [Hin | Hin].
      * exact (base_url_no_mark _ Hin).
      * exact (before_query_no_mark _ Hin).
    + apply before_query_no_mark.
  - exists el, href.
    split; [destruct Hel as [-> | [_ ->]]; [left | right]; reflexivity|].
    split; [exact Hh|]. split; intros Hs; rewrite Hs in Hurl.
    + rewrite Hurl. split; [|apply base_url_absolute].
      unfold base_url. now rewrite <- app_assoc.
    + exact Hurl.
Qed.

(** The filters are the last thing to decide about a card: with filters the
    extractor gives what it gives without them, unless the record fails a
    filter, in which case the card is discarded. *)
Lemma parse_card_filters card base mr mrev ex :
  _parse_single_card card base mr mrev ex
  = match _parse_single_card card base None None false with
    | Ok (Some it) =>
        if passes_filters mr mrev ex it then Ok (Some it) else Ok None
    | other => other
    end.
Proof.
  unfold _parse_single_card, parse_card_body.
  repeat lazymatch goal with
  | |- match bind ?m _ with _ => _ end = _ =>
      destruct m; cbn [bind]; [|reflexivity]
  | |- match (if ?b then Ok None else _) with _ => _ end = _ =>
      destruct b; [reflexivity|]
  end.
  unfold passes_filters.
  destruct (count (card_locator card sel_image)) as [n_image|]; cbn [bind];
    [match goal with
     | |- context [bind ?m _] => destruct m as [image_url|]
     end |];
    destruct mr as [m|], mrev as [v|], ex;
    repeat match goal with
    | |- context [match ?o with Some _ => _ | None => _ end] =>
        is_var o; destruct o
    end;
    cbn [bind rating reviewsCount isSponsored andb negb];
    repeat match goal with
    | |- context [float_ltb ?a ?b] => destruct (float_ltb a b)
    | |- context [(?a <? ?b)%Z] => destruct (a <? b)%Z
    | |- context [contains ?a ?b] => destruct (contains a b)
    end;
    reflexivity.
Qed.

(** A card with an ASIN and a title link that has a target gives a record
    when the reads that follow succeed, whatever the text of the link. *)
Lemma parse_card_body_complete card base a title_el t href :
  card_attribute card (lit "data-asin") = Ok (Some a) -> a <> [] ->
  has_title_link card title_el ->
  text_content (first_match title_el) = Ok t ->
  get_attribute (first_match title_el) (lit "href") = Ok (Some href) ->
  href <> [] ->
  other_reads_succeed card ->
  exists it,
    parse_card_body card base None None false = Ok (Some it)
    /\ title it = strip (or_empty t).
Proof.
  intros Ha Hne Hel Ht Hh Hhne
    (Htexts & Hcounts & (attr & Hattr & Hbrand) & Hbadge & Himg).
  destruct (Htexts sel_price ltac:(now left)) as (w & Hw).
  destruct (Htexts sel_original_price ltac:(right; now left)) as (o & Ho).
  destruct (Htexts sel_rating ltac:(do 2 right; now left)) as (rt0 & Hrt).
  destruct (Htexts sel_reviews ltac:(do 3 right; now left)) as (rv & Hrv).
  destruct (Htexts sel_sponsored ltac:(do 4 right; now left)) as (sp & Hsp).
  destruct (Hcounts sel_prime ltac:(now left)) as (np & Hnp).
  destruct (Hcounts sel_badge ltac:(right; now left)) as (nb & Hnb).
  destruct (Hcounts sel_image ltac:(do 2 right; now left)) as (ni & Hni).
  pose proof (first_text_trimmed _ _ Hw) as Hwt.
  destruct (parse_currency_rule _ Hwt) as (cur & Hcur & _).
  destruct (parse_rating_total rt0) as (rat & Hrat).
  destruct (parse_reviews_total rv) as (rev & Hrev).
  assert (Hb1 : exists brand1,
            match strip (or_empty attr) with
            | [] => first_text (card_locator card sel_brand)
            | _ => Ok (strip (or_empty attr))
            end = Ok brand1).
  { destruct (strip (or_empty attr)) as [|c0 b0] eqn:Hs; [|eauto].
    exact (Hbrand eq_refl). }
  destruct Hb1 as (brand1 & Hb1).
  assert (Hbs : exists bs,
            (if (0 <? nb)%nat
             then collect_badges (card_locator card sel_badge) 0 nb []
             else Ok []) = Ok bs).
  { destruct nb as [|nb']; [cbn; eauto|]. cbn [Nat.ltb Nat.leb].
    apply collect_badges_total. intros j Hj. apply (Hbadge _ j Hnb). lia. }
  destruct Hbs as (bs & Hbs).
  assert (Him : exists im,
            (if (0 <? ni)%nat
             then src <- get_attribute
                           (first_match (card_locator card sel_image))
                           (lit "src") ;;
                  Ok (or_empty src)
             else Ok []) = Ok im).
  { destruct ni as [|ni']; [cbn; eauto|]. cbn [Nat.ltb Nat.leb].
    destruct (Himg _ Hni) as (src & ->). cbn [bind]. eauto. }
  destruct Him as (im & Him).
  assert (Hnb_a : is_blank (Some a) = false) by (now destruct a).
  assert (Hnb_h : is_blank (Some href) = false) by (now destruct href).
  unfold parse_card_body. rewrite Ha. cbn [bind]. rewrite Hnb_a.
  assert (Htail : forall title_el0,
    text_content (first_match title_el0) = Ok t ->
    get_attribute (first_match title_el0) (lit "href") = Ok (Some href) ->
    exists it,
      (title_text <- text_content (first_match title_el0) ;;
       let title := strip (or_empty title_text) in
       href <- get_attribute (first_match title_el0) (lit "href") ;;
       if is_blank href then Ok None else
       path <- index_first (split_on 63 (or_empty href)) ;;
       let product_url := if startswith (lit "/") (or_empty href)
                          then base ++ path else path in
       whole <- first_text (card_locator card sel_price) ;;
       price <- parse_price whole ;;
       let price_text := whole in
       currency <- parse_currency price_text ;;
       original_price_text <-
         first_text (card_locator card sel_original_price) ;;
       rating_text <- first_text (card_locator card sel_rating) ;;
       rating_value <- parse_rating rating_text ;;
       reviews_text <- first_text (card_locator card sel_reviews) ;;
       reviews_count <- parse_reviews reviews_text ;;
       n_prime <- count (card_locator card sel_prime) ;;
       let is_prime := (0 <? n_prime)%nat in
       brand_attr <- card_attribute card (lit "data-brand") ;;
       let brand0 := strip (or_empty brand_attr) in
       brand1 <- match brand0 with
                 | [] => first_text (card_locator card sel_brand)
                 | _ => Ok brand0
                 end ;;
       let brand := clear_badge_like brand1 in
       let badge_locator := card_locator card sel_badge in
       n_badge <- count badge_locator ;;
       badges <- (if (0 <? n_badge)%nat
                  then n <- count badge_locator ;;
                       collect_badges badge_locator 0 n []
                  else Ok []) ;;
       sponsored_text <- first_text (card_locator card sel_sponsored) ;;
       let is_sponsored := contains (lit "sponsored") (lower sponsored_text) in
       let below_rating := false in
       let below_reviews := false in
       if below_rating then Ok None else
       if below_reviews then Ok None else
       if false && is_sponsored then Ok None else
       let image_locator := card_locator card sel_image in
       n_image <- count image_locator ;;
       image_url <- (if (0 <? n_image)%nat
                     then src <- get_attribute (first_match image_locator)
                                   (lit "src") ;;
                          Ok (or_empty src)
                     else Ok []) ;;
       Ok (Some {| asin := or_empty (Some a);
                   title := title;
                   productUrl := product_url;
                   priceText := price_text;
                   price := price;
                   originalPriceText := original_price_text;
                   rating := rating_value;
                   reviewsCount := reviews_count;
                   isPrime := is_prime;
                   brand := brand;
                   badges := badges;
                   isSponsored := is_sponsored;
                   imageUrl := image_url;
                   currency := currency;
                   categoryPath := None;
                   featureBullets := None |}))
      = Ok (Some it)
      /\ title it = strip (or_empty t)).
  { intros el Ht0 Hh0. rewrite Ht0. cbn [bind]. rewrite Hh0. cbn [bind].
    rewrite Hnb_h. cbn [or_empty]. rewrite index_first_split_on. cbn [bind].
    rewrite Hw. cbn [bind]. rewrite parse_price_spec. cbn [bind].
    rewrite Hcur. cbn [bind]. rewrite Ho. cbn [bind]. rewrite Hrt. cbn [bind].
    rewrite Hrat. cbn [bind]. rewrite Hrv. cbn [bind]. rewrite Hrev. cbn [bind].
    rewrite Hnp. cbn [bind]. rewrite Hattr. cbn [bind]. rewrite Hb1. cbn [bind].
    rewrite Hnb. cbn [bind]. rewrite Hbs. cbn [bind]. rewrite Hsp.
    cbn [bind andb]. rewrite Hni. cbn [bind]. rewrite Him. cbn [bind].
    eexists. split; reflexivity. }
  destruct Hel as [(-> & n & Hn) | (-> & H0 & n & Hn)].
  - rewrite Hn. cbn [bind Nat.eqb]. rewrite Hn. cbn [bind Nat.eqb].
    exact (Htail _ Ht Hh).
  - rewrite H0. cbn [bind Nat.eqb]. rewrite Hn. cbn [bind Nat.eqb].
    exact (Htail _ Ht Hh).
Qed.

(** The text of the title link decides nothing: when a card gives a
    record, the same card with any other text in its title link, an empty
    or a missing one included, gives the same record with that text,
    stripped, as its title. *)
Lemma title_text_replaced card base mr mrev ex it (t : option str) :
  _parse_single_card card base mr mrev ex = Ok (Some it) ->
  _parse_single_card (with_title_text card t) base mr mrev ex
  = Ok (Some (with_title it (strip (or_empty t)))).
Proof.
  intros H. apply _parse_single_card_some in H.
  unfold _parse_single_card.
  enough (Hb : parse_card_body (with_title_text card t) base mr mrev ex
               = Ok (Some (with_title it (strip (or_empty t)))))
    by now rewrite Hb.
  unfold parse_card_body in H |- *. invert_bind H. injection H as <-.
  rewrite !(with_title_text_other card t sel_price),
          !(with_title_text_other card t sel_original_price),
          !(with_title_text_other card t sel_rating),
          !(with_title_text_other card t sel_reviews),
          !(with_title_text_other card t sel_prime),
          !(with_title_text_other card t sel_brand),
          !(with_title_text_other card t sel_badge),
          !(with_title_text_other card t sel_sponsored),
          !(with_title_text_other card t sel_image)
    by (vm_compute; reflexivity).
  change (card_attribute (with_title_text card t)) with (card_attribute card).
  change (count (card_locator (with_title_text card t) sel_title))
    with (count (card_locator card sel_title)).
  rewrite E. cbn [bind]. rewrite B, E0. cbn [bind].
  destruct a0 as [|n0]; cbn [Nat.eqb] in E1, E2, E3 |- *.
  - change (count (card_locator (with_title_text card t) sel_title_fallback))
      with (count (card_locator card sel_title_fallback)).
    change (text_content (first_match
              (card_locator (with_title_text card t) sel_title_fallback)))
      with (@Ok (option str) t).
    change (get_attribute (first_match
              (card_locator (with_title_text card t) sel_title_fallback)))
      with (get_attribute (first_match (card_locator card sel_title_fallback))).
    rewrite E1. cbn [bind]. rewrite B0. cbn [bind].
    rewrite E3. cbn [bind]. rewrite B1, E4. cbn [bind].
    rewrite E5. cbn [bind]. rewrite E6. cbn [bind]. rewrite E7. cbn [bind].
    rewrite E8. cbn [bind]. rewrite E9. cbn [bind]. rewrite E10. cbn [bind].
    rewrite E11. cbn [bind]. rewrite E12. cbn [bind]. rewrite E13. cbn [bind].
    rewrite E14. cbn [bind]. rewrite E15. cbn [bind]. rewrite E16. cbn [bind].
    rewrite E17. cbn [bind]. rewrite E18. cbn [bind]. rewrite B2, B3, B4.
    rewrite E19. cbn [bind]. rewrite E20. reflexivity.
  - change (count (card_locator (with_title_text card t) sel_title))
      with (count (card_locator card sel_title)).
    change (text_content (first_match
              (card_locator (with_title_text card t) sel_title)))
      with (@Ok (option str) t).
    change (get_attribute (first_match
              (card_locator (with_title_text card t) sel_title)))
      with (get_attribute (first_match (card_locator card sel_title))).
    rewrite E1. cbn [bind]. rewrite B0. cbn [bind].
    rewrite E3. cbn [bind]. rewrite B1, E4. cbn [bind].
    rewrite E5. cbn [bind]. rewrite E6. cbn [bind]. rewrite E7. cbn [bind].
    rewrite E8. cbn [bind]. rewrite E9. cbn [bind]. rewrite E10. cbn [bind].
    rewrite E11. cbn [bind]. rewrite E12. cbn [bind]. rewrite E13. cbn [bind].
    rewrite E14. cbn [bind]. rewrite E15. cbn [bind]. rewrite E16. cbn [bind].
    rewrite E17. cbn [bind]. rewrite E18. cbn [bind]. rewrite B2, B3, B4.
    rewrite E19. cbn [bind]. rewrite E20. reflexivity.
Qed.

(** C10 (as amended).  The text of the title link is not required, the link
    and its target are.  A card with a non-empty ASIN and a title link,
    under the primary or the fallback selector, that carries a non-empty
    target, and whose later reads succeed, gives without filters a record,
    whatever the text of the link: its title is that text stripped, the
    empty string when the text is empty or missing, and every other field
    is what the card shows.  With filters the card gives the same
    record, or is discarded when the record fails a filter.  A card on which
    neither title selector finds a link is discarded, and so is a card whose
    title link has no target or an empty one.  Replacing the text of the
    title link of a card that gives a record changes the title of the
    record and nothing else. *)
Theorem title_text_not_required card base mr mrev ex :
  (forall a title_el t href,
      card_attribute card (lit "data-asin") = Ok (Some a) -> a <> [] ->
      has_title_link card title_el ->
      text_content (first_match title_el) = Ok t ->
      get_attribute (first_match title_el) (lit "href") = Ok (Some href) ->
      href <> [] ->
      other_reads_succeed card ->
      exists it,
        _parse_single_card card base None None false = Ok (Some it)
        /\ title it = strip (or_empty t)
        /\ (t = None \/ t = Some [] -> title it = [])
        /\ fully_populated card base it
        /\ _parse_single_card card base mr mrev ex
           = if passes_filters mr mrev ex it then Ok (Some it) else Ok None)
  /\ (count (card_locator card sel_title) = Ok O ->
      count (card_locator card sel_title_fallback) = Ok O ->
      _parse_single_card card base mr mrev ex = Ok None)
  /\ (forall title_el h,
        has_title_link card title_el ->
        get_attribute (first_match title_el) (lit "href") = Ok h ->
        is_blank h = true ->
        _parse_single_card card base mr mrev ex = Ok None)
  /\ (forall it t,
        _parse_single_card card base mr mrev ex = Ok (Some it) ->
        _parse_single_card (with_title_text card t) base mr mrev ex
        = Ok (Some (with_title it (strip (or_empty t))))).
Proof.
  split; [|split; [|split]].
  - intros a title_el t href Ha Hne Hel Ht Hh Hhne Hrest.
    destruct (parse_card_body_complete card base a title_el t href
                Ha Hne Hel Ht Hh Hhne Hrest) as (it & Hit & Htitle).
    assert (Hrec : _parse_single_card card base None None false = Ok (Some it)).
    { unfold _parse_single_card. now rewrite Hit. }
    exists it. split; [exact Hrec|]. split; [exact Htitle|].
    split; [intros [-> | ->]; rewrite Htitle; reflexivity|].
    split; [exact (proj1 (parse_card_body_reads _ _ _ _ _ _ Hit))|].
    rewrite (parse_card_filters card base mr mrev ex), Hrec. reflexivity.
  - intros H1 H2. unfold _parse_single_card, parse_card_body.
    destruct (card_attribute card (lit "data-asin")) as [a|]; cbn [bind];
      [|reflexivity].
    destruct (is_blank a); [reflexivity|].
    rewrite H1. cbn [bind Nat.eqb]. rewrite H2. reflexivity.
  - intros title_el h Hel Hh Hblank.
    unfold _parse_single_card, parse_card_body.
    destruct (card_attribute card (lit "data-asin")) as [a|]; cbn [bind];
      [|reflexivity].
    destruct (is_blank a); [reflexivity|].
    destruct Hel as [(-> & n & Hn) | (-> & H0 & n & Hn)].
    + rewrite Hn. cbn [bind Nat.eqb]. rewrite Hn. cbn [bind Nat.eqb].
      destruct (text_content _); cbn [bind]; [|reflexivity].
      rewrite Hh. cbn [bind]. now rewrite Hblank.
    + rewrite H0. cbn [bind Nat.eqb]. rewrite Hn. cbn [bind Nat.eqb].
      destruct (text_content _); cbn [bind]; [|reflexivity].
      rewrite Hh. cbn [bind]. now rewrite Hblank.
  - intros it t H. exact (title_text_replaced card base mr mrev ex it t H).
Qed.

End FieldExtractor.

(** ** InputNormalizer: [_normalize_input] *)

Section InputNormalizer.
Context {rt : Runtime}.

Lemma int_field_read raw key d :
  d <> 0%Z ->
  absent_or is_int (raw !! key) = true ->
  py_int (py_or (dict_get raw key (PInt d)) (PInt d))
  = Ok match int_field raw key with
       | Some n => if (n =? 0)%Z then d else n
       | None => d
       end.
Proof.
  intros Hd. unfold dict_get, int_field, absent_or, py_or.
  destruct (raw !! key) as [[| | n | | | |]|]; try discriminate; intros _;
    cbn [truthy py_int negb].
  - reflexivity.
  - destruct (n =? 0)%Z; reflexivity.
  - apply Z.eqb_neq in Hd. now rewrite Hd.
Qed.

Lemma keywords_read raw :
  absent_or is_text_or_list (raw !! lit "keywords") = true ->
  exists ks,
    py_iter (let keywords0 :=
               py_or (dict_get raw (lit "keywords") PNone) (PList []) in
             match keywords0 with
             | PStr _ => PList [keywords0]
             | _ => keywords0
             end) = Ok ks.
Proof.
  unfold dict_get, absent_or, py_or. cbv zeta.
  destruct (raw !! lit "keywords") as [[| | | | [|c s] | [|v l] |]|];
    try discriminate; intros _; cbn [truthy py_iter]; eauto.
Qed.

Lemma country_read raw :
  absent_or is_text (raw !! lit "country") = true ->
  exists c,
    match py_or (dict_get raw (lit "country") PNone) (PStr (lit "US")) with
    | PStr s => Ok (upper s)
    | _ => Raise AttributeError
    end = Ok c.
Proof.
  unfold dict_get, absent_or, py_or.
  destruct (raw !! lit "country") as [[| | | | [|c s] | |]|];
    try discriminate; intros _; cbn [truthy]; eauto.
Qed.

Lemma min_rating_read raw :
  absent_or is_number (raw !! lit "min_rating") = true ->
  exists r,
    match dict_get raw (lit "min_rating") PNone with
    | PNone => Ok None
    | v => except_type_value (f <- py_float v ;; Ok (Some f)) None
    end = Ok r.
Proof.
  unfold dict_get, absent_or, is_number.
  destruct (raw !! lit "min_rating") as [[| | n | f | | |]|];
    try discriminate; cbn [py_float]; eauto.
  destruct (float_of_int n); [eauto | discriminate].
Qed.

Lemma min_reviews_read raw :
  absent_or is_int (raw !! lit "min_reviews") = true ->
  exists r,
    match dict_get raw (lit "min_reviews") PNone with
    | PNone => Ok None
    | v => except_type_value
             (mr <- py_int v ;; Ok (if (0 <? mr)%Z then Some mr else None)) None
    end = Ok r.
Proof.
  unfold dict_get, absent_or.
  destruct (raw !! lit "min_reviews") as [[| | n | | | |]|];
    try discriminate; cbn [py_int bind except_type_value]; eauto.
Qed.

(** C1 (as amended).  For every raw input whose fields follow the input
    schema, normalization returns search parameters and does not raise.
    [max_items_per_keyword] is 50 when the field is missing, null, zero or
    negative.  [max_pages] is 3 when the field is missing, null or zero, 1
    when it is negative and 20 when it exceeds 20.  [max_detail_items] is 5
    when the field is missing, null or zero, 1 when it is negative and 50
    when it exceeds 50. *)
Theorem normalize_input_defaults (raw : gmap str pyval) :
  follows_schema raw = true ->
  exists p, _normalize_input raw = Ok p
    /\ max_items_per_keyword p
       = match int_field raw (lit "max_items_per_keyword") with
         | Some n => if (n <=? 0)%Z then 50%Z else n
         | None => 50%Z
         end
    /\ max_pages p
       = match int_field raw (lit "max_pages") with
         | Some n => if (n =? 0)%Z then 3%Z
                     else if (n <? 0)%Z then 1%Z
                     else if (20 <? n)%Z then 20%Z else n
         | None => 3%Z
         end
    /\ max_detail_items p
       = match int_field raw (lit "max_detail_items") with
         | Some n => if (n =? 0)%Z then 5%Z
                     else if (n <? 0)%Z then 1%Z
                     else if (50 <? n)%Z then 50%Z else n
         | None => 5%Z
         end.
Proof.
  unfold follows_schema. rewrite !andb_true_iff.
  intros ((((((Hk & Hi) & Hp) & Hc) & Hr) & Hv) & Hd).
  destruct (keywords_read raw Hk) as (ks & Eks).
  destruct (country_read raw Hc) as (c & Ec).
  destruct (min_rating_read raw Hr) as (r & Er).
  destruct (min_reviews_read raw Hv) as (v & Ev).
  cbv zeta in Eks. unfold _normalize_input. cbv zeta.
  rewrite Eks, (int_field_read raw _ 50 ltac:(discriminate) Hi),
    (int_field_read raw _ 3 ltac:(discriminate) Hp), Ec, Er, Ev,
    (int_field_read raw _ 5 ltac:(discriminate) Hd).
  cbn [bind]. eexists. split; [reflexivity|].
  cbn [max_items_per_keyword max_pages max_detail_items].
  repeat split.
  - destruct (int_field raw _) as [n|]; [|reflexivity].
    destruct (Z.eqb_spec n 0); [subst; reflexivity|].
    reflexivity.
  - destruct (int_field raw _) as [n|]; [|reflexivity].
    destruct (Z.eqb_spec n 0); [subst; reflexivity|].
    destruct (Z.leb_spec n 0), (Z.ltb_spec n 0); try lia; reflexivity.
  - destruct (int_field raw _) as [n|]; [|reflexivity].
    destruct (Z.eqb_spec n 0); [subst; reflexivity|].
    destruct (Z.leb_spec n 0), (Z.ltb_spec n 0); try lia; reflexivity.
Qed.

(** Whatever the input, the parameters that normalization returns are in
    range. *)
Lemma normalize_input_ranges (raw : gmap str pyval) p :
  _normalize_input raw = Ok p ->
  (1 <= max_items_per_keyword p)%Z
  /\ (1 <= max_pages p <= 20)%Z
  /\ (1 <= max_detail_items p <= 50)%Z.
Proof.
  unfold _normalize_input. cbv zeta. intros H.
  repeat lazymatch type of H with
  | bind ?m _ = Ok _ =>
      let E := fresh "E" in
      destruct m eqn:E; cbn [bind] in H; [|discriminate H]
  end.
  injection H as <-. cbn [max_items_per_keyword max_pages max_detail_items].
  repeat split;
    repeat match goal with
    | |- context [(?a <=? ?b)%Z] => destruct (Z.leb_spec a b)
    | |- context [(?a <? ?b)%Z] => destruct (Z.ltb_spec a b)
    end; lia.
Qed.

End InputNormalizer.

(** ** KeywordCrawler: [_scrape_keyword] *)

Section KeywordCrawler.
Context {rt : Runtime}.

Lemma count_events_app p l1 l2 :
  count_events p (l1 ++ l2) = (count_events p l1 + count_events p l2)%nat.
Proof. unfold count_events. now rewrite List.filter_app, length_app. Qed.

Lemma count_events_cons p e l :
  count_events p (e :: l)
  = ((if p e then 1 else 0) + count_events p l)%nat.
Proof. unfold count_events. simpl. now destruct (p e). Qed.

Lemma pushed_items_app l1 l2 :
  pushed_items (l1 ++ l2) = pushed_items l1 ++ pushed_items l2.
Proof. apply omap_app. Qed.

(** The navigation of one page issues between one and three [goto] calls
    and nothing else. *)
Lemma navigate_log page url attempts l r :
  navigate page url attempts = (l, r) ->
  exists n, l = repeat (EvGoto url) n /\ (n <= length attempts)%nat
            /\ (attempts <> [] -> (1 <= n)%nat).
Proof.
  revert l r. induction attempts as [|a rest IH]; intros l r; simpl.
  - intros [= <- <-]. exists O. split; [reflexivity|]. split; [lia | congruence].
  - destruct (_ <- goto page a ;; settle page a) as [u|e].
    + intros [= <- <-]. exists 1%nat. split; [reflexivity|]. split; lia.
    + assert (Hstop : forall e', ([EvGoto url], @Raise unit e') = (l, r) ->
                exists n, l = repeat (EvGoto url) n
                          /\ (n <= S (length rest))%nat
                          /\ (a :: rest <> [] -> (1 <= n)%nat)).
      { intros e' [= <- <-]. exists 1%nat. split; [reflexivity|]. split; lia. }
      destruct e; try apply Hstop.
      destruct (a =? max_nav_retries)%nat; [apply Hstop|].
      destruct (backoff page a); [|apply Hstop].
      destruct (navigate page url rest) as [l' r'] eqn:E.
      intros [= <- <-]. destruct (IH _ _ eq_refl) as (n & -> & Hn & _).
      exists (S n). split; [reflexivity|]. split; lia.
Qed.

Lemma omap_cons {A B} (f : A -> option B) x l :
  omap f (x :: l) = match f x with
                    | Some y => y :: omap f l
                    | None => omap f l
                    end.
Proof. reflexivity. Qed.

Lemma omap_length_le {A B} (f : A -> option B) l :
  (length (omap f l) <= length l)%nat.
Proof.
  induction l as [|x l IH]; [simpl; lia|].
  change (omap f (x :: l))
    with (match f x with Some y => y :: omap f l | None => omap f l end).
  destruct (f x); simpl; lia.
Qed.

Lemma extract_length cards base mr mrev ex items :
  _extract_product_cards cards base mr mrev ex = Ok items ->
  (length items <= length cards)%nat.
Proof.
  unfold _extract_product_cards. rewrite extract_cards_from_spec.
  intros [= <-]. apply omap_length_le.
Qed.

(** What the enrichment loop does to the items of one page: none is added
    or dropped, the count only grows and stops at the ceiling, and once the
    ceiling is reached the items are left as they are. *)
Lemma enrich_items_props mdi page items : forall b j c l out c',
  enrich_items mdi page b j c items = (l, out, c') ->
  length out = length items
  /\ (c <= c' <= Z.max c mdi)%Z
  /\ (forall e, In e l -> is_detail e = true)
  /\ ((mdi <= c)%Z -> out = items /\ l = []).
Proof.
  induction items as [|item rest IH]; intros b j c l out c'; simpl.
  - intros [= <- <- <-]. split; [reflexivity|]. split; [lia|].
    split; [intros e []|auto].
  - destruct (Z.leb_spec mdi c) as [Hge|Hlt].
    + intros [= <- <- <-]. split; [reflexivity|]. split; [lia|].
      split; [intros e []|auto].
    + destruct (productUrl item) as [|u0 u] eqn:Hurl.
      * destruct (enrich_items mdi page b (S j) c rest) as [[l1 out1] c1] eqn:E.
        intros [= <- <- <-]. destruct (IH _ _ _ _ _ _ E) as (Hlen & Hc & Hl & _).
        split; [simpl; lia|]. split; [lia|]. split; [exact Hl | lia].
      * destruct (detail_page_for page j) as [dp|e].
        -- destruct (enrich_item dp item) as [item' done] eqn:Hd.
           destruct (enrich_items mdi page true (S j) _ rest)
             as [[l1 out1] c1] eqn:E.
           intros [= <- <- <-]. destruct (IH _ _ _ _ _ _ E) as (Hlen & Hc & Hl & _).
           split; [simpl; lia|]. split; [destruct done; lia|].
           split; [|lia].
           intros e [<- | [<- | [<- | Hin]]]; auto.
        -- destruct (enrich_items mdi page b (S j) c rest) as [[l1 out1] c1] eqn:E.
           intros [= <- <- <-]. destruct (IH _ _ _ _ _ _ E) as (Hlen & Hc & Hl & _).
           split; [simpl; lia|]. split; [lia|]. split; [|lia].
           intros e' [<- | Hin]; [reflexivity|].
           apply in_app_or in Hin as [Hin | Hin]; [|auto].
           destruct b; [destruct Hin as [<- | []]; reflexivity | destruct Hin].
Qed.

(** The push loop hands over a prefix of the items, all of them when it
    does not raise. *)
Lemma push_items_log kw ctry page idx items : forall j l r,
  push_items kw ctry page idx j items = (l, r) ->
  exists n, l = map (EvPush kw ctry idx) (take n items)
            /\ (n <= length items)%nat
            /\ (r = Ok tt -> n = length items).
Proof.
  induction items as [|item rest IH]; intros j l r; simpl.
  - intros [= <- <-]. exists O. auto.
  - destruct (push_outcome page j).
    + destruct (push_items kw ctry page idx (S j) rest) as [l1 r1] eqn:E.
      intros [= <- <-]. destruct (IH _ _ _ E) as (n & -> & Hn & Hr).
      exists (S n). split; [reflexivity|]. split; [simpl; lia|].
      intros H. simpl. now rewrite (Hr H).
    + intros [= <- <-]. exists O. split; [reflexivity|].
      split; [lia | discriminate].
Qed.

Lemma count_events_none p l :
  (forall e, In e l -> p e = false) -> count_events p l = O.
Proof.
  intros H. induction l as [|e l IH]; [reflexivity|].
  rewrite count_events_cons, (H e (or_introl eq_refl)), IH; [reflexivity|].
  intros e' He'. apply H. now right.
Qed.

Lemma count_events_all p l :
  (forall e, In e l -> p e = true) -> count_events p l = length l.
Proof.
  intros H. induction l as [|e l IH]; [reflexivity|].
  rewrite count_events_cons, (H e (or_introl eq_refl)), IH; [reflexivity|].
  intros e' He'. apply H. now right.
Qed.

Lemma in_repeat_eq {A} (x y : A) n : In y (repeat x n) -> y = x.
Proof. exact (repeat_spec n x y). Qed.

Lemma pushed_items_none l :
  (forall e, In e l -> is_push e = false) -> pushed_items l = [].
Proof.
  intros H. induction l as [|e l IH]; [reflexivity|].
  change (pushed_items (e :: l))
    with (match (match e with EvPush _ _ _ item => Some item | _ => None end)
          with Some y => y :: pushed_items l | None => pushed_items l end).
  pose proof (H e (or_introl eq_refl)) as He.
  destruct e; try discriminate He; apply IH; intros e' He'; apply H; now right.
Qed.

Lemma pushed_items_pushes kw ctry idx items :
  pushed_items (map (EvPush kw ctry idx) items) = items.
Proof.
  induction items as [|it items IH]; [reflexivity|].
  simpl map.
  change (pushed_items (EvPush kw ctry idx it :: map (EvPush kw ctry idx) items))
    with (it :: pushed_items (map (EvPush kw ctry idx) items)).
  now rewrite IH.
Qed.

Lemma detail_not_push e : is_detail e = true -> is_push e = false.
Proof. now destruct e. Qed.

Lemma detail_not_goto e : is_detail e = true -> is_goto e = false.
Proof. now destruct e. Qed.

Lemma detail_not_new_page e : is_detail e = true -> is_new_page e = false.
Proof. now destruct e. Qed.

(** What the shape of a block's log says about its counts. *)
Lemma block_log_counts kw ctry max_items s l r :
  block_log_shape kw ctry max_items s l r ->
  count_events is_new_page l = O
  /\ (1 <= count_events is_goto l <= 3)%nat
  /\ (Z.of_nat (count_events is_push l)
      <= Z.max 0 (max_items - total_collected s))%Z
  /\ (forall items, r = Ok (Some items) ->
        pushed_items l = items /\ count_events is_push l = length items
        /\ items <> []
        /\ (Z.of_nat (length items) <= max_items - total_collected s)%Z)
  /\ (forall e idx, In e l -> push_page_index e = Some idx ->
        idx = page_index s).
Proof.
  intros (n & l_tail & -> & Hn & Htail).
  assert (Hg : count_events is_goto (repeat (EvGoto (search_url s)) n) = n).
  { rewrite count_events_all, repeat_length; [reflexivity|].
    intros e He. now rewrite (in_repeat_eq _ _ _ He). }
  assert (Hp : count_events is_push (repeat (EvGoto (search_url s)) n) = O).
  { apply count_events_none. intros e He. now rewrite (in_repeat_eq _ _ _ He). }
  assert (Hnp : count_events is_new_page (repeat (EvGoto (search_url s)) n) = O).
  { apply count_events_none. intros e He. now rewrite (in_repeat_eq _ _ _ He). }
  assert (Hpi : pushed_items (repeat (EvGoto (search_url s)) n) = []).
  { apply pushed_items_none. intros e He. now rewrite (in_repeat_eq _ _ _ He). }
  assert (Hidx : forall e idx, In e (repeat (EvGoto (search_url s)) n) ->
                   push_page_index e = Some idx -> idx = page_index s).
  { intros e idx He. now rewrite (in_repeat_eq _ _ _ He). }
  rewrite !count_events_app, pushed_items_app, Hg, Hp, Hnp, Hpi.
  assert (Hsimple : forall t,
            (forall e, In e t -> e = EvContent \/ e = EvCards) ->
            (r = Ok None \/ exists e, r = Raise e) ->
            (0 + count_events is_new_page t)%nat = O
            /\ (1 <= n + count_events is_goto t <= 3)%nat
            /\ (Z.of_nat (0 + count_events is_push t)
                <= Z.max 0 (max_items - total_collected s))%Z
            /\ (forall items, r = Ok (Some items) ->
                  [] ++ pushed_items t = items
                  /\ (0 + count_events is_push t)%nat = length items
                  /\ items <> []
                  /\ (Z.of_nat (length items) <= max_items - total_collected s)%Z)
            /\ (forall e idx,
                  In e (repeat (EvGoto (search_url s)) n ++ t) ->
                  push_page_index e = Some idx -> idx = page_index s)).
  { intros t Ht Hr.
    rewrite (count_events_none is_new_page t)
      by (intros e [-> | ->]%Ht; reflexivity).
    rewrite (count_events_none is_goto t)
      by (intros e [-> | ->]%Ht; reflexivity).
    rewrite (count_events_none is_push t)
      by (intros e [-> | ->]%Ht; reflexivity).
    split; [reflexivity|]. split; [lia|]. split; [lia|]. split.
    - intros items Hi. destruct Hr as [Hr | (e & Hr)]; congruence.
    - intros e idx [He | [-> | ->]%Ht]%in_app_or; [eauto | discriminate..]. }
  destruct Htail as [(-> & e & ->) | [(-> & Hr) | [(-> & Hr) | Hfull]]].
  - apply Hsimple; [intros e' [] | eauto].
  - apply Hsimple; [|exact Hr]. intros e' [<- | []]. now left.
  - apply Hsimple; [|exact Hr]. intros e' [<- | [<- | []]]; [now left | now right].
  - destruct Hfull as (l_detail & items & k & -> & Hdet & Hne & Hlen & Hk & Hr).
    rewrite !count_events_app, !pushed_items_app.
    rewrite (count_events_none is_new_page l_detail)
      by (intros; now apply detail_not_new_page, Hdet).
    rewrite (count_events_none is_goto l_detail)
      by (intros; now apply detail_not_goto, Hdet).
    rewrite (count_events_none is_push l_detail)
      by (intros; now apply detail_not_push, Hdet).
    rewrite (pushed_items_none l_detail)
      by (intros; now apply detail_not_push, Hdet).
    rewrite pushed_items_pushes.
    rewrite (count_events_none is_new_page (map _ _))
      by (intros e (x & <- & _)%in_map_iff; reflexivity).
    rewrite (count_events_none is_goto (map _ _))
      by (intros e (x & <- & _)%in_map_iff; reflexivity).
    rewrite (count_events_all is_push (map _ _))
      by (intros e (x & <- & _)%in_map_iff; reflexivity).
    rewrite length_map, length_take.
    change (count_events is_new_page [EvContent; EvCards]) with O.
    change (count_events is_goto [EvContent; EvCards]) with O.
    change (count_events is_push [EvContent; EvCards]) with O.
    change (pushed_items [EvContent; EvCards]) with (@nil Item).
    split; [reflexivity|]. split; [lia|]. split; [lia|]. split.
    + intros items0 Hi. destruct Hr as [(Hr & ->) | (e & ->)]; [|discriminate].
      rewrite Hr in Hi. injection Hi as <-.
      rewrite firstn_all, Nat.min_id. auto.
    + intros e idx [He | He]%in_app_or; [eauto|].
      cbn [app] in He. destruct He as [<- | [<- | He]]; try discriminate.
      apply in_app_or in He as [He | He].
      * apply Hdet in He. destruct e; discriminate.
      * apply in_map_iff in He as (x & <- & _). now intros [= <-].
Qed.

Lemma started_keywords_none l :
  (forall e, In e l -> is_start e = false) -> started_keywords l = [].
Proof.
  intros H. induction l as [|e l IH]; [reflexivity|].
  unfold started_keywords. rewrite omap_cons.
  pose proof (H e (or_introl eq_refl)) as He.
  destruct e; try discriminate He; apply IH; intros; apply H; now right.
Qed.

Lemma block_log_no_start kw ctry max_items s l r :
  block_log_shape kw ctry max_items s l r ->
  forall e, In e l -> is_start e = false.
Proof.
  intros (n & t & -> & _ & Ht) e [He | He]%in_app_or.
  - now rewrite (in_repeat_eq _ _ _ He).
  - destruct Ht as [(-> & _) | [(-> & _) | [(-> & _) | Hfull]]].
    + destruct He.
    + destruct He as [<- | []]. reflexivity.
    + destruct He as [<- | [<- | []]]; reflexivity.
    + destruct Hfull as (l_d & items & k & -> & Hdet & _).
      cbn [app] in He. destruct He as [<- | [<- | He]]; try reflexivity.
      apply in_app_or in He as [He | He].
      * apply Hdet in He. now destruct e.
      * apply in_map_iff in He as (x & <- & _). reflexivity.
Qed.

Ltac conj_split := repeat match goal with |- _ /\ _ => split end.

Section OneKeyword.

Variable pages : nat -> res Page.
Variable keyword country : str.
Variable max_items max_pages : Z.
Variable min_rating : option float.
Variable min_reviews : option Z.
Variable exclude_sponsored fetch_details : bool.
Variable max_detail_items : Z.

Local Abbreviation collect :=
  (collect_page keyword country max_items min_rating min_reviews
     exclude_sponsored fetch_details max_detail_items).
Local Abbreviation block :=
  (page_block keyword country max_items min_rating min_reviews
     exclude_sponsored fetch_details max_detail_items).
Local Abbreviation guard := (loop_guard max_items max_pages).
Local Abbreviation crawl :=
  (crawl_from pages keyword country max_items max_pages min_rating min_reviews
     exclude_sponsored fetch_details max_detail_items).

Lemma collect_page_shape page s l r :
  collect page s = (l, r) -> block_log_shape keyword country max_items s l r.
Proof.
  unfold collect_page, block_log_shape.
  destruct (navigate page (search_url s) (seq 1 max_nav_retries))
    as [l_nav rn] eqn:Hnav.
  destruct (navigate_log _ _ _ _ _ Hnav) as (n & -> & Hn3 & Hn1).
  assert (Hn : (1 <= n <= 3)%nat).
  { split; [apply Hn1; discriminate | exact Hn3]. }
  clear Hn1 Hn3 Hnav.
  destruct rn as [u|e].
  2:{ intros [= <- <-]. exists n, []. rewrite app_nil_r. eauto 10. }
  destruct (content page) as [html|e].
  2:{ intros [= <- <-]. exists n, [EvContent]. eauto 10. }
  destruct (looks_like_captcha html).
  { intros [= <- <-]. exists n, [EvContent]. eauto 10. }
  destruct (all_matches page sel_cards) as [[|c0 cards]|e].
  1,3: intros [= <- <-]; exists n, [EvContent; EvCards]; eauto 10.
  cbv zeta.
  destruct (Z.leb_spec (max_items - total_collected s) 0) as [Hle|Hgt].
  { intros [= <- <-]. exists n, [EvContent; EvCards]. eauto 10. }
  set (cards' := if (_ <? _)%Z then _ else _).
  assert (Hcards : (Z.of_nat (length cards') <= max_items - total_collected s)%Z).
  { subst cards'. destruct (Z.ltb_spec (max_items - total_collected s)
                               (Z.of_nat (length (c0 :: cards)))) as [Hlt|Hge].
    - rewrite length_take. lia.
    - exact Hge. }
  destruct (_extract_product_cards cards' _ _ _ _) as [[|it items]|e] eqn:Hex.
  1,3: intros [= <- <-]; exists n, [EvContent; EvCards]; eauto 10.
  apply extract_length in Hex.
  set (enr := if fetch_details && _ then _ else _).
  assert (Henr : length (snd enr) = length (it :: items)
                 /\ forall e, In e (fst enr) -> is_detail e = true).
  { subst enr. destruct (fetch_details && _).
    - destruct (enrich_items _ _ _ _ _ _) as [[l1 out] c1] eqn:E.
      destruct (enrich_items_props _ _ _ _ _ _ _ _ _ E) as (Hlen & _ & Hl & _).
      split; assumption.
    - split; [reflexivity | intros e []]. }
  destruct enr as [l_detail items']. cbn [fst snd] in Henr.
  destruct Henr as [Hlen Hdet].
  destruct (push_items _ _ _ _ _ _) as [l_push rp] eqn:Hpush.
  destruct (push_items_log _ _ _ _ _ _ _ _ Hpush) as (k & -> & Hk & Hall).
  intros [= <- <-]. exists n, ([EvContent; EvCards] ++ l_detail ++
    map (EvPush keyword country (page_index s)) (take k items')).
  split; [reflexivity|]. split; [exact Hn|].
  right. right. right. exists l_detail, items', k.
  split; [reflexivity|]. split; [exact Hdet|].
  split; [destruct items'; [discriminate Hlen | discriminate]|].
  split; [rewrite Hlen; lia|]. split; [exact Hk|].
  destruct rp as [[]|e]; [left | right; eauto].
  split; [reflexivity | now apply Hall].
Qed.

Lemma loop_guard_true s :
  guard s = true ->
  (total_collected s < max_items)%Z /\ (page_index s <= max_pages)%Z.
Proof. unfold loop_guard. rewrite andb_true_iff. lia. Qed.

(** One page block: the count stays within the budget, the page index
    moves by one exactly when the loop goes on, and what is pushed is what
    is counted. *)
Lemma page_block_props page s l c s' :
  block page s = (l, c, s') ->
  (total_collected s < max_items)%Z ->
  (total_collected s <= total_collected s' <= max_items)%Z
  /\ page_index s' = match c with
                     | Continue => (page_index s + 1)%Z
                     | Break => page_index s
                     end
  /\ (total_collected s + Z.of_nat (count_events is_push l) <= max_items)%Z
  /\ (c = Continue ->
      total_collected s'
      = (total_collected s + Z.of_nat (count_events is_push l))%Z)
  /\ count_events is_new_page l = O
  /\ (1 <= count_events is_goto l <= 3)%nat
  /\ (forall e idx, In e l -> push_page_index e = Some idx ->
        idx = page_index s).
Proof.
  unfold page_block. intros H Hlt.
  destruct (collect page s) as [l0 r0] eqn:Hc.
  apply collect_page_shape, block_log_counts in Hc.
  destruct Hc as (Hnp & Hg & Hp & Hitems & Hidx).
  assert (Hstay : forall s0,
    total_collected s0 = total_collected s -> page_index s0 = page_index s ->
    (l0, Break, s0) = (l, c, s') ->
    (total_collected s <= total_collected s' <= max_items)%Z
    /\ page_index s' = match c with
                       | Continue => (page_index s + 1)%Z
                       | Break => page_index s
                       end
    /\ (total_collected s + Z.of_nat (count_events is_push l) <= max_items)%Z
    /\ (c = Continue ->
        total_collected s'
        = (total_collected s + Z.of_nat (count_events is_push l))%Z)
    /\ count_events is_new_page l = O
    /\ (1 <= count_events is_goto l <= 3)%nat
    /\ (forall e idx, In e l -> push_page_index e = Some idx ->
          idx = page_index s)).
  { intros s0 Ht Hi [= <- <- <-].
    conj_split; try lia; try assumption; try discriminate; eauto. }
  destruct r0 as [[items|]|e];
    try (eapply Hstay; [| |exact H]; reflexivity).
  destruct (Hitems items eq_refl) as (_ & Hcount & _ & Hlen).
  cbn [total_collected page_index search_url] in H.
  assert (Hmoved : forall c0 s0,
    (l0, c0, s0) = (l, c, s') ->
    total_collected s0 = (total_collected s + Z.of_nat (length items))%Z ->
    page_index s0 = match c0 with
                    | Continue => (page_index s + 1)%Z
                    | Break => page_index s
                    end ->
    (total_collected s <= total_collected s' <= max_items)%Z
    /\ page_index s' = match c with
                       | Continue => (page_index s + 1)%Z
                       | Break => page_index s
                       end
    /\ (total_collected s + Z.of_nat (count_events is_push l) <= max_items)%Z
    /\ (c = Continue ->
        total_collected s'
        = (total_collected s + Z.of_nat (count_events is_push l))%Z)
    /\ count_events is_new_page l = O
    /\ (1 <= count_events is_goto l <= 3)%nat
    /\ (forall e idx, In e l -> push_page_index e = Some idx ->
          idx = page_index s)).
  { intros c0 s0 [= <- <- <-] Ht Hi. rewrite Hcount.
    conj_split; try lia; try assumption; eauto. }
  destruct (max_items <=? _)%Z; [apply (Hmoved _ _ H); reflexivity|].
  destruct (next_page_url country page) as [[url|]|e];
    apply (Hmoved _ _ H); reflexivity.
Qed.

(** The loop cannot make more turns than there are pages left. *)
Lemma crawl_from_enough_fuel fuel : forall i s,
  (max_pages + 1 - page_index s <= Z.of_nat fuel)%Z ->
  exists l s' r, crawl fuel i s = Some (l, s', r).
Proof.
  induction fuel as [|fuel IH]; intros i s Hfuel; simpl.
  - destruct (guard s) eqn:Hg; [|eauto].
    apply loop_guard_true in Hg. lia.
  - destruct (guard s) eqn:Hg; [|eauto].
    apply loop_guard_true in Hg as [Ht Hp].
    destruct (pages i) as [page|e]; [|eauto].
    destruct (block page s) as [[l c] s'] eqn:Hb.
    destruct (page_block_props _ _ _ _ _ Hb Ht) as (_ & Hidx & _).
    destruct (close page); [|eauto].
    destruct c; [eauto|].
    destruct (IH (S i) s') as (l2 & s2 & r2 & ->); [lia | eauto].
Qed.

(** What a run of the loop leaves behind. *)
Lemma crawl_from_props fuel : forall i s l s' r,
  crawl fuel i s = Some (l, s', r) ->
  (total_collected s <= max_items)%Z ->
  (total_collected s' <= max_items)%Z
  /\ (page_index s <= page_index s')%Z
  /\ (page_index s' <= Z.max (page_index s) (max_pages + 1))%Z
  /\ (total_collected s + Z.of_nat (count_events is_push l) <= max_items)%Z
  /\ (Z.of_nat (count_events is_new_page l)
      <= Z.max 0 (max_pages + 1 - page_index s))%Z
  /\ (count_events is_goto l <= 3 * count_events is_new_page l)%nat
  /\ (forall e idx, In e l -> push_page_index e = Some idx ->
        (page_index s <= idx <= max_pages)%Z).
Proof.
  induction fuel as [|fuel IH]; intros i s l s' r; simpl.
  - destruct (guard s); [discriminate|]. intros [= <- <- <-] Hs.
    cbn [count_events List.filter length].
    conj_split; try lia. intros e idx [].
  - destruct (guard s) eqn:Hg.
    2:{ intros [= <- <- <-] Hs. cbn [count_events List.filter length].
        conj_split; try lia. intros e idx []. }
    apply loop_guard_true in Hg as [Ht Hp].
    destruct (pages i) as [page|e].
    2:{ intros [= <- <- <-] Hs. change (count_events is_push [EvNewPage]) with O.
        change (count_events is_new_page [EvNewPage]) with 1%nat.
        change (count_events is_goto [EvNewPage]) with O.
        conj_split; try lia. intros e' idx [<- | []]. discriminate. }
    destruct (block page s) as [[l1 c] s1] eqn:Hb.
    destruct (page_block_props _ _ _ _ _ Hb Ht)
      as (Htot & Hidx & Hpush & Hcont & Hnp & Hgo & Hpi).
    assert (Hone : forall r0,
      Some (EvNewPage :: l1 ++ [EvClose], s1, r0) = Some (l, s', r) ->
      (total_collected s' <= max_items)%Z
      /\ (page_index s <= page_index s')%Z
      /\ (page_index s' <= Z.max (page_index s) (max_pages + 1))%Z
      /\ (total_collected s + Z.of_nat (count_events is_push l) <= max_items)%Z
      /\ (Z.of_nat (count_events is_new_page l)
          <= Z.max 0 (max_pages + 1 - page_index s))%Z
      /\ (count_events is_goto l <= 3 * count_events is_new_page l)%nat
      /\ (forall e idx, In e l -> push_page_index e = Some idx ->
            (page_index s <= idx <= max_pages)%Z)).
    { intros r0 [= <- <- <-].
      rewrite !count_events_cons, !count_events_app. cbn [is_push is_new_page is_goto].
      change (count_events is_push [EvClose]) with O.
      change (count_events is_new_page [EvClose]) with O.
      change (count_events is_goto [EvClose]) with O.
      conj_split; try (destruct c; lia).
      intros e idx [<- | [He | [<- | []]]%in_app_or]; try discriminate.
      intros Hi. rewrite (Hpi _ _ He Hi). lia. }
    destruct (close page); [|intros H _; exact (Hone _ H)].
    destruct c; [intros H _; exact (Hone _ H)|].
    destruct (crawl fuel (S i) s1) as [[[l2 s2] r2]|] eqn:Hrec; [|discriminate].
    intros [= <- <- <-] Hs.
    destruct (IH _ _ _ _ _ Hrec ltac:(lia)) as (H1 & H2 & H3 & H4 & H5 & H6 & H7).
    specialize (Hcont eq_refl).
    rewrite !count_events_cons, !count_events_app.
    cbn [is_push is_new_page is_goto].
    change (count_events is_push [EvClose]) with O.
    change (count_events is_new_page [EvClose]) with O.
    change (count_events is_goto [EvClose]) with O.
    conj_split; try lia.
    intros e idx Hin Hi.
    destruct Hin as [<- | Hin]; [discriminate|].
    apply in_app_or in Hin as [Hin | Hin]; [|specialize (H7 _ _ Hin Hi); lia].
    apply in_app_or in Hin as [Hin | [<- | []]]; [|discriminate].
    rewrite (Hpi _ _ Hin Hi). lia.
Qed.

(** The loop variables stay in range whatever the browser answers. *)
Lemma reached_invariant url i s going :
  reached pages keyword country max_items max_pages min_rating min_reviews
    exclude_sponsored fetch_details max_detail_items url i s going ->
  (0 <= max_items)%Z -> (0 <= max_pages)%Z ->
  (0 <= total_collected s <= max_items)%Z
  /\ (1 <= page_index s <= max_pages + 1)%Z.
Proof.
  intros H Hi Hp. induction H as [|i s page l c s' Hprev IH Hg Hpage Hb].
  - cbn. lia.
  - apply loop_guard_true in Hg as [Ht Hidx].
    destruct (page_block_props _ _ _ _ _ Hb Ht) as (Htot & Hpi & _).
    rewrite Hpi. destruct c; lia.
Qed.

(** The variables that a run of the loop ends with are reached ones. *)
Lemma crawl_from_reached url fuel : forall i s l s' r,
  crawl fuel i s = Some (l, s', r) ->
  reached pages keyword country max_items max_pages min_rating min_reviews
    exclude_sponsored fetch_details max_detail_items url i s true ->
  exists i' going,
    reached pages keyword country max_items max_pages min_rating min_reviews
      exclude_sponsored fetch_details max_detail_items url i' s' going.
Proof.
  induction fuel as [|fuel IH]; intros i s l s' r; simpl.
  - destruct (guard s); [discriminate|]. intros [= <- <- <-] Hr. eauto.
  - destruct (guard s) eqn:Hg; [|intros [= <- <- <-] Hr; eauto].
    destruct (pages i) as [page|e] eqn:Hpage; [|intros [= <- <- <-] Hr; eauto].
    destruct (block page s) as [[l1 c] s1] eqn:Hb.
    intros H Hr. 
    pose proof (reached_turn _ _ _ _ _ _ _ _ _ _ _ _ _ _ _ _ _ Hr Hg Hpage Hb)
      as Hnext.
    destruct (close page); [|injection H as <- <- <-; eauto].
    destruct c; [injection H as <- <- <-; eauto|].
    destruct (crawl fuel (S i) s1) as [[[l2 s2] r2]|] eqn:Hrec; [|discriminate].
    injection H as <- <- <-. exact (IH _ _ _ _ _ Hrec Hnext).
Qed.

Lemma navigate_first_try page url :
  goto page 1 = Ok tt -> settle page 1 = Ok tt ->
  navigate page url (seq 1 max_nav_retries) = ([EvGoto url], Ok tt).
Proof. intros Hg Hs. simpl. rewrite Hg. cbn [bind]. now rewrite Hs. Qed.

Lemma extract_all_qualify cards :
  Forall (qualifies (base_url country) min_rating min_reviews exclude_sponsored)
    cards ->
  exists items,
    _extract_product_cards cards (base_url country) min_rating min_reviews
      exclude_sponsored = Ok items
    /\ length items = length cards
    /\ Forall (fun item => is_enriched item = false) items.
Proof.
  unfold _extract_product_cards. rewrite extract_cards_from_spec.
  intros H. eexists. split; [reflexivity|]. simpl app.
  induction H as [|card rest (Hin & it & Hit) Hrest (IHl & IHe)].
  - split; [reflexivity | constructor].
  - rewrite omap_cons, Hin, Hit. simpl. split; [now rewrite IHl|].
    constructor; [|exact IHe].
    apply _parse_single_card_some, parse_card_body_inv in Hit.
    destruct Hit as (_ & _ & _ & Hc & Hf). unfold is_enriched. now rewrite Hc, Hf.
Qed.

Lemma push_items_all_ok page idx items : forall j,
  (forall k, push_outcome page k = Ok tt) ->
  push_items keyword country page idx j items
  = (map (EvPush keyword country idx) items, Ok tt).
Proof.
  induction items as [|item rest IH]; intros j Hok; simpl; [reflexivity|].
  now rewrite Hok, (IH (S j) Hok).
Qed.

(** A page that serves qualifying cards gives as many records as the
    budget allows, and all of them are pushed. *)
Lemma collect_page_serves page cards s :
  serves page cards -> cards <> [] ->
  (0 < max_items - total_collected s)%Z ->
  Forall (qualifies (base_url country) min_rating min_reviews exclude_sponsored)
    cards ->
  exists l items,
    collect page s = (l, Ok (Some items))
    /\ Z.of_nat (length items)
       = Z.min (Z.of_nat (length cards)) (max_items - total_collected s).
Proof.
  intros (Hgoto & Hsettle & (html & Hhtml & Hcap) & Hcards & Hpush) Hne Hrem Hq.
  unfold collect_page.
  rewrite (navigate_first_try _ _ Hgoto Hsettle), Hhtml, Hcap, Hcards.
  assert (Hpos : (0 < length cards)%nat) by (destruct cards; [contradiction | simpl; lia]).
  destruct cards as [|c0 cards0] eqn:Ecards; [contradiction|]. rewrite <- Ecards in *.
  cbv zeta. destruct (Z.leb_spec (max_items - total_collected s) 0); [lia|].
  set (cards' := if (_ <? _)%Z then _ else _).
  assert (Hq' : Forall (qualifies (base_url country) min_rating min_reviews
                          exclude_sponsored) cards').
  { subst cards'. destruct (_ <? _)%Z; [|exact Hq].
    now apply Forall_take. }
  assert (Hlen' : Z.of_nat (length cards')
                  = Z.min (Z.of_nat (length cards)) (max_items - total_collected s)).
  { subst cards'. destruct (Z.ltb_spec (max_items - total_collected s)
                               (Z.of_nat (length cards))).
    - rewrite length_take. lia.
    - lia. }
  destruct (extract_all_qualify cards' Hq') as (items & -> & Hlen & _).
  destruct items as [|it items]; [simpl in Hlen; lia|].
  set (enr := if fetch_details && _ then _ else _).
  assert (Henr : length (snd enr) = length (it :: items)).
  { subst enr. destruct (fetch_details && _); [|reflexivity].
    destruct (enrich_items _ _ _ _ _ _) as [[l1 out] c1] eqn:E.
    destruct (enrich_items_props _ _ _ _ _ _ _ _ _ E) as (Hl & _). exact Hl. }
  destruct enr as [l_detail items']. cbn [snd] in Henr.
  rewrite (push_items_all_ok _ _ _ _ Hpush).
  eexists _, items'. split; [reflexivity|]. rewrite Henr, Hlen. exact Hlen'.
Qed.

Lemma crawl_from_break fuel i s page l1 s1 :
  guard s = true -> pages i = Ok page -> block page s = (l1, Break, s1) ->
  crawl (S fuel) i s
  = Some (EvNewPage :: l1 ++ [EvClose], s1,
          match close page with Ok _ => Ok tt | Raise e => Raise e end).
Proof.
  intros Hg Hp Hb. simpl. rewrite Hg, Hp, Hb. now destruct (close page).
Qed.

Lemma crawl_from_continue fuel i s page l1 s1 :
  guard s = true -> pages i = Ok page -> block page s = (l1, Continue, s1) ->
  close page = Ok tt ->
  crawl (S fuel) i s
  = match crawl fuel (S i) s1 with
    | Some (l2, s2, r) => Some ((EvNewPage :: l1 ++ [EvClose]) ++ l2, s2, r)
    | None => None
    end.
Proof. intros Hg Hp Hb Hc. simpl. now rewrite Hg, Hp, Hb, Hc. Qed.

(** [_scrape_keyword] is the loop run from the first page, unless the
    search address cannot be built. *)
Lemma _scrape_keyword_run l s' r :
  _scrape_keyword pages keyword country max_items max_pages min_rating
    min_reviews exclude_sponsored fetch_details max_detail_items = (l, s', r) ->
  (0 <= max_pages)%Z ->
  (l = [] /\ s' = initial_state [] /\ exists e, r = Raise e)
  \/ exists q l',
      quote_plus keyword = Ok q
      /\ l = EvStart keyword (base_url country ++ lit "/s?k=" ++ q) :: l'
      /\ crawl (Z.to_nat max_pages) 0
           (initial_state (base_url country ++ lit "/s?k=" ++ q))
         = Some (l', s', r).
Proof.
  unfold _scrape_keyword. intros H Hp.
  destruct (quote_plus keyword) as [q|e]; [|injection H as <- <- <-; eauto].
  right. exists q.
  destruct (crawl_from_enough_fuel (Z.to_nat max_pages) 0
              (initial_state (base_url country ++ lit "/s?k=" ++ q)))
    as (l0 & s0 & r0 & E).
  { cbn [page_index initial_state]. lia. }
  cbv zeta in H. rewrite E in H. injection H as <- <- <-. eauto.
Qed.

(** C2 (as amended).  In every keyword crawl [total_collected] never
    exceeds [max_items]; [page_index] never exceeds [max_pages + 1], the
    value with which the loop is left after its last page, and every record
    is pushed with a page index between 1 and [max_pages].  The crawl
    returns, pushes at most [max_items] records and opens at most
    [max_pages] search pages, each navigated with at most three attempts;
    so with [max_pages = 2] at most 2 search pages are opened.  With
    [max_items = 10] and two pages that each serve 7 qualifying cards,
    exactly 10 records are pushed. *)
Theorem crawl_budget_and_pages :
  (0 <= max_items)%Z -> (0 <= max_pages)%Z ->
  (forall url i s going,
      reached pages keyword country max_items max_pages min_rating min_reviews
        exclude_sponsored fetch_details max_detail_items url i s going ->
      (0 <= total_collected s <= max_items)%Z
      /\ (1 <= page_index s <= max_pages + 1)%Z)
  /\ (forall l s' r,
        _scrape_keyword pages keyword country max_items max_pages min_rating
          min_reviews exclude_sponsored fetch_details max_detail_items
        = (l, s', r) ->
        (total_collected s' <= max_items)%Z
        /\ (page_index s' <= max_pages + 1)%Z
        /\ (Z.of_nat (count_events is_push l) <= max_items)%Z
        /\ (forall e idx, In e l -> push_page_index e = Some idx ->
              (1 <= idx <= max_pages)%Z)
        /\ (Z.of_nat (count_events is_new_page l) <= max_pages)%Z
        /\ (count_events is_goto l <= 3 * count_events is_new_page l)%nat)
  /\ (max_items = 10%Z -> (2 <= max_pages)%Z ->
      forall q p0 p1 cards0 cards1 url1,
        quote_plus keyword = Ok q ->
        pages 0%nat = Ok p0 -> pages 1%nat = Ok p1 ->
        serves p0 cards0 -> serves p1 cards1 ->
        length cards0 = 7%nat -> length cards1 = 7%nat ->
        Forall (qualifies (base_url country) min_rating min_reviews
                  exclude_sponsored) cards0 ->
        Forall (qualifies (base_url country) min_rating min_reviews
                  exclude_sponsored) cards1 ->
        close p0 = Ok tt -> next_page_url country p0 = Ok (Some url1) ->
        exists l s' r,
          _scrape_keyword pages keyword country max_items max_pages min_rating
            min_reviews exclude_sponsored fetch_details max_detail_items
          = (l, s', r)
          /\ count_events is_push l = 10%nat
          /\ total_collected s' = 10%Z).
Proof.
  intros Hitems Hpages. split; [|split].
  - intros url i s going H. exact (reached_invariant _ _ _ _ H Hitems Hpages).
  - intros l s' r H.
    destruct (_scrape_keyword_run _ _ _ H Hpages)
      as [(-> & -> & _) | (q & l' & _ & -> & Hrun)].
    + cbn. conj_split; try lia; intros e idx [].
    + destruct (crawl_from_props _ _ _ _ _ _ Hrun) as (H1 & H2 & H3 & H4 & H5 & H6 & H7).
      { cbn. lia. }
      cbn [initial_state total_collected page_index] in *.
      rewrite !count_events_cons. cbn [is_push is_new_page is_goto].
      conj_split; try lia.
      intros e idx [<- | Hin]; [discriminate|]. now apply H7.
  - intros Hmax Hp2 q p0 p1 cards0 cards1 url1 Hq Hp0 Hp1 Hs0 Hs1 Hl0 Hl1 Hq0 Hq1
      Hc0 Hnext.
    unfold _scrape_keyword. rewrite Hq. cbv zeta.
    set (s0 := initial_state _).
    destruct (Z.to_nat max_pages) as [|[|fuel]] eqn:Hfuel; try lia.
    (* the first page: 7 records, 3 still wanted *)
    destruct (collect_page_serves p0 cards0 s0 Hs0) as (l0 & items0 & Hcol0 & Hn0);
      [now destruct cards0 | cbn; lia | exact Hq0 |].
    rewrite Hl0 in Hn0. cbn [s0 initial_state total_collected] in Hn0.
    assert (Hb0 : block p0 s0
                  = (l0, Continue,
                     {| total_collected := 7; page_index := 2;
                        search_url := url1;
                        detail_page_bound := opens_detail_page l0 |})).
    { unfold page_block. rewrite Hcol0.
      cbn [total_collected page_index search_url s0 initial_state].
      replace (Z.of_nat (length items0)) with 7%Z by lia.
      destruct (Z.leb_spec max_items (0 + 7)); [lia|].
      now rewrite Hnext. }
    assert (Hg0 : guard s0 = true).
    { unfold loop_guard. cbn. apply andb_true_iff.
      split; [apply Z.ltb_lt | apply Z.leb_le]; lia. }
    rewrite (crawl_from_continue _ _ _ _ _ _ Hg0 Hp0 Hb0 Hc0).
    (* the second page: cut to the 3 records that are left *)
    set (s1 := {| total_collected := 7; page_index := 2; search_url := url1;
                  detail_page_bound := opens_detail_page l0 |}).
    destruct (collect_page_serves p1 cards1 s1 Hs1) as (l1 & items1 & Hcol1 & Hn1);
      [now destruct cards1 | cbn; lia | exact Hq1 |].
    rewrite Hl1 in Hn1. cbn [s1 total_collected] in Hn1.
    assert (Hb1 : block p1 s1
                  = (l1, Break,
                     {| total_collected := 10; page_index := 2;
                        search_url := url1;
                        detail_page_bound :=
                          opens_detail_page l0 || opens_detail_page l1 |})).
    { unfold page_block. rewrite Hcol1.
      cbn [total_collected page_index search_url s1].
      replace (Z.of_nat (length items1)) with 3%Z by lia.
      destruct (Z.leb_spec max_items (7 + 3)); [reflexivity | lia]. }
    assert (Hg1 : guard s1 = true).
    { unfold loop_guard. cbn. apply andb_true_iff.
      split; [apply Z.ltb_lt | apply Z.leb_le]; lia. }
    rewrite (crawl_from_break _ _ _ _ _ _ Hg1 Hp1 Hb1).
    do 3 eexists. split; [reflexivity|]. split; [|reflexivity].
    apply collect_page_shape, block_log_counts in Hcol0, Hcol1.
    destruct Hcol0 as (_ & _ & _ & Hi0 & _). destruct Hcol1 as (_ & _ & _ & Hi1 & _).
    destruct (Hi0 _ eq_refl) as (_ & Hc0' & _). destruct (Hi1 _ eq_refl) as (_ & Hc1' & _).
    rewrite !count_events_cons, !count_events_app, !count_events_cons,
      !count_events_app, Hc0', Hc1'.
    cbn [is_push]. change (count_events is_push [EvClose]) with O. lia.
Qed.

(** In the calls of a page block the content is read at most once, and
    before the cards are asked for. *)
Lemma content_read_once page s l r :
  collect page s = (l, r) ->
  (count_events is_content l <= 1)%nat
  /\ (In EvCards l ->
      exists l1 l2, l = l1 ++ EvContent :: l2
                    /\ (forall e, In e l1 -> is_goto e = true)).
Proof.
  intros H. apply collect_page_shape in H.
  destruct H as (n & l_tail & -> & _ & Htail).
  assert (Hrep : forall e, In e (repeat (EvGoto (search_url s)) n) ->
                   is_goto e = true).
  { intros e He. now rewrite (in_repeat_eq _ _ _ He). }
  rewrite count_events_app.
  rewrite (count_events_none is_content (repeat _ n))
    by (intros e He; now rewrite (in_repeat_eq _ _ _ He)).
  assert (Hgoto_cards : ~ In EvCards (repeat (EvGoto (search_url s)) n)).
  { intros He. apply Hrep in He. discriminate. }
  destruct Htail as [(-> & _) | [(-> & _) | [(-> & _) | Hfull]]].
  - split; [cbn; lia|]. rewrite app_nil_r. intros He. contradiction.
  - split; [cbn; lia|]. intros _. exists (repeat (EvGoto (search_url s)) n), [].
    split; [reflexivity | exact Hrep].
  - split; [cbn; lia|]. intros _.
    exists (repeat (EvGoto (search_url s)) n), [EvCards].
    split; [reflexivity | exact Hrep].
  - destruct Hfull as (l_detail & items & k & -> & Hdet & _).
    split.
    + rewrite !count_events_app.
      rewrite (count_events_none is_content l_detail)
        by (intros e He; apply Hdet in He; now destruct e).
      rewrite (count_events_none is_content (map _ _))
        by (intros e (x & <- & _)%in_map_iff; reflexivity).
      cbn. lia.
    + intros _. eexists _, _. split; [reflexivity | exact Hrep].
Qed.

(** C7.  When the content of a page that has been navigated to shows a
    bot-protection marker, the turn of the loop consists of opening the
    page, the navigation attempts, the one read of the content and the
    closing of the page: no card is asked for, no record is pushed, and the
    loop is left, so nothing more is extracted or navigated for the
    keyword.  On every page the content is read at most once, before the
    cards are asked for. *)
Theorem captcha_stops_keyword fuel i s page l_nav html :
  guard s = true -> pages i = Ok page ->
  navigate page (search_url s) (seq 1 max_nav_retries) = (l_nav, Ok tt) ->
  content page = Ok html -> looks_like_captcha html = true ->
  crawl (S fuel) i s
  = Some (EvNewPage :: l_nav ++ [EvContent; EvClose], s,
          match close page with Ok _ => Ok tt | Raise e => Raise e end)
  /\ (forall e, In e l_nav -> e = EvGoto (search_url s))
  /\ count_events is_extraction (EvNewPage :: l_nav ++ [EvContent; EvClose]) = O
  /\ count_events is_push (EvNewPage :: l_nav ++ [EvContent; EvClose]) = O
  /\ (forall page' s0 l r, collect page' s0 = (l, r) ->
        (count_events is_content l <= 1)%nat
        /\ (In EvCards l ->
            exists l1 l2, l = l1 ++ EvContent :: l2
                          /\ (forall e, In e l1 -> is_goto e = true))).
Proof.
  intros Hg Hp Hnav Hhtml Hcap.
  assert (Hb : block page s = (l_nav ++ [EvContent], Break, s)).
  { unfold page_block, collect_page. now rewrite Hnav, Hhtml, Hcap. }
  destruct (navigate_log _ _ _ _ _ Hnav) as (n & Hl & _).
  assert (Hgo : forall e, In e l_nav -> e = EvGoto (search_url s)).
  { intros e He. rewrite Hl in He. exact (in_repeat_eq _ _ _ He). }
  split.
  - rewrite (crawl_from_break _ _ _ _ _ _ Hg Hp Hb), <- app_assoc. reflexivity.
  - split; [exact Hgo|].
    rewrite !count_events_cons, !count_events_app.
    rewrite (count_events_none is_extraction l_nav)
      by (intros e ->%Hgo; reflexivity).
    rewrite (count_events_none is_push l_nav)
      by (intros e ->%Hgo; reflexivity).
    split; [reflexivity|]. split; [reflexivity|].
    intros page' s0 l r. apply content_read_once.
Qed.

Lemma extract_unenriched cards base mr mrev ex items :
  _extract_product_cards cards base mr mrev ex = Ok items ->
  Forall (fun item => is_enriched item = false) items.
Proof.
  unfold _extract_product_cards. rewrite extract_cards_from_spec.
  intros [= <-]. simpl app.
  induction cards as [|card rest IH]; [constructor|].
  rewrite omap_cons. destruct (parse_overruns card); [exact IH|].
  destruct (_parse_single_card card base mr mrev ex) as [[it|]|e] eqn:Hit;
    try exact IH.
  constructor; [|exact IH].
  apply _parse_single_card_some, parse_card_body_inv in Hit.
  destruct Hit as (_ & _ & _ & Hc & Hf). unfold is_enriched. now rewrite Hc, Hf.
Qed.

Lemma enrich_item_loads detail_page item category_path feature_bullets :
  detail_goto detail_page = Ok tt ->
  read_texts (detail_locator detail_page sel_breadcrumbs) = Ok category_path ->
  read_texts (detail_locator detail_page sel_bullets) = Ok feature_bullets ->
  exists item',
    enrich_item detail_page item = (item', true)
    /\ (category_path <> [] \/ feature_bullets <> [] -> is_enriched item' = true).
Proof.
  intros Hg Hc Hf. unfold enrich_item. rewrite Hg, Hc, Hf.
  eexists. split; [reflexivity|].
  intros [H | H].
  - destruct category_path; [contradiction|].
    destruct feature_bullets; reflexivity.
  - destruct feature_bullets; [contradiction|].
    unfold is_enriched. cbn. now destruct (categoryPath _).
Qed.

Lemma count_enriched_none items :
  Forall (fun item => is_enriched item = false) items -> count_enriched items = O.
Proof.
  unfold count_enriched. induction 1 as [|it items Hit _ IH]; [reflexivity|].
  simpl. now rewrite Hit.
Qed.

(** When no detail visit fails, the visits made and the records enriched
    are as many as the count has grown, at most. *)
Lemma enrich_items_loads page items : forall b j c l out c',
  enrich_items max_detail_items page b j c items = (l, out, c') ->
  (forall k, detail_page_loads page k) ->
  Forall (fun item => is_enriched item = false) items ->
  Z.of_nat (count_events is_detail_goto l) = (c' - c)%Z
  /\ (Z.of_nat (count_enriched out) <= c' - c)%Z.
Proof.
  induction items as [|item rest IH]; intros b j c l out c' H Hload Hun;
    simpl in H.
  - injection H as <- <- <-. cbn. lia.
  - inversion Hun as [|? ? Hitem Hrest]; subst.
    destruct (max_detail_items <=? c)%Z.
    { injection H as <- <- <-. rewrite (count_enriched_none _ Hun). cbn. lia. }
    destruct (productUrl item) as [|u0 u].
    { destruct (enrich_items _ page b (S j) c rest) as [[l1 out1] c1] eqn:E.
      injection H as <- <- <-.
      destruct (IH _ _ _ _ _ _ E Hload Hrest) as (H1 & H2).
      unfold count_enriched in *. simpl. rewrite Hitem. lia. }
    destruct (Hload j) as (dp & Hdp & Hg & (cp & Hc) & (fb & Hf)).
    destruct (enrich_item_loads dp item cp fb Hg Hc Hf) as (item' & Hen & _).
    rewrite Hdp, Hen in H.
    destruct (enrich_items _ page true (S j) (c + 1) rest)
      as [[l1 out1] c1] eqn:E.
    injection H as <- <- <-.
    destruct (IH _ _ _ _ _ _ E Hload Hrest) as (H1 & H2).
    rewrite !count_events_cons. cbn [is_detail_goto].
    unfold count_enriched in *. simpl. destruct (is_enriched item'); simpl; lia.
Qed.

(** What a page block pushes when it enriches. *)
Lemma collect_page_enriched page s l items' :
  collect page s = (l, Ok (Some items')) ->
  fetch_details = true -> (0 < max_detail_items)%Z ->
  exists cards items l_detail c,
    _extract_product_cards cards (base_url country) min_rating min_reviews
      exclude_sponsored = Ok items
    /\ enrich_items max_detail_items page (detail_page_bound s) 0 0 items
       = (l_detail, items', c)
    /\ count_events is_detail_goto l = count_events is_detail_goto l_detail.
Proof.
  intros H Hfd Hmdi. unfold collect_page in H.
  destruct (navigate page (search_url s) (seq 1 max_nav_retries))
    as [l_nav [u|e]] eqn:Hnav; [|discriminate H].
  destruct (navigate_log _ _ _ _ _ Hnav) as (n & -> & _).
  destruct (content page) as [html|e]; [|discriminate H].
  destruct (looks_like_captcha html); [discriminate H|].
  destruct (all_matches page sel_cards) as [[|c0 cards]|e]; try discriminate H.
  cbv zeta in H.
  destruct (_ <=? 0)%Z; [discriminate H|].
  set (cards' := if (_ <? _)%Z then _ else _) in H.
  destruct (_extract_product_cards cards' _ _ _ _) as [[|it items]|e] eqn:Hex;
    try discriminate H.
  rewrite Hfd in H. apply Z.ltb_lt in Hmdi. rewrite Hmdi in H. cbn [andb] in H.
  destruct (enrich_items _ page _ 0 0 (it :: items)) as [[l_d out] c] eqn:Hen.
  destruct (push_items _ _ page _ 0 out) as [l_push rp] eqn:Hpush.
  destruct (push_items_log _ _ _ _ _ _ _ _ Hpush) as (k & -> & _).
  destruct rp as [[]|e]; [|discriminate H]. injection H as <- <-.
  exists cards', (it :: items), l_d, c.
  split; [exact Hex|]. split; [exact Hen|].
  repeat (rewrite count_events_cons || rewrite count_events_app).
  rewrite (count_events_none is_detail_goto (repeat _ n))
    by (intros e He; now rewrite (in_repeat_eq _ _ _ He)).
  rewrite (count_events_none is_detail_goto (map _ _))
    by (intros e (x & <- & _)%in_map_iff; reflexivity).
  cbn. lia.
Qed.

(** C3 (as amended).  When [fetch_details] is set, the count of enriched
    items runs per page: on every page it starts at 0, grows by one with
    each detail visit that completes without failure and never exceeds
    [max_detail_items], the loop over the items being left as soon as it
    reaches that ceiling, whatever records remain.  What is pushed are the
    records as this loop leaves them, none added or dropped.  When no detail
    visit of the page fails, at most [max_detail_items] detail pages are
    navigated to and at most [max_detail_items] records of the page carry
    enrichment fields.  With [max_detail_items = 2] and 5 records on a page
    whose first two detail pages show data, exactly the first 2 records
    carry enrichment fields and the other 3 are pushed as extracted. *)
Theorem detail_enrichment_per_page page s l items' :
  collect page s = (l, Ok (Some items')) ->
  fetch_details = true -> (0 < max_detail_items)%Z ->
  pushed_items l = items'
  /\ exists items l_detail c,
      Forall (fun item => is_enriched item = false) items
      /\ enrich_items max_detail_items page (detail_page_bound s) 0 0 items
         = (l_detail, items', c)
      /\ (0 <= c <= max_detail_items)%Z
      /\ length items' = length items
      /\ ((forall j, detail_page_loads page j) ->
          (Z.of_nat (count_events is_detail_goto l) <= max_detail_items)%Z
          /\ (Z.of_nat (count_enriched items') <= max_detail_items)%Z)
      /\ (max_detail_items = 2%Z -> length items = 5%nat ->
          (forall item, In item items -> productUrl item <> []) ->
          detail_page_shows_data page 0 -> detail_page_shows_data page 1 ->
          count_enriched items' = 2%nat
          /\ Forall (fun item => is_enriched item = true) (take 2 items')
          /\ drop 2 items' = drop 2 items).
Proof.
  intros Hcol Hfd Hmdi.
  pose proof (collect_page_shape _ _ _ _ Hcol) as Hshape.
  apply block_log_counts in Hshape. destruct Hshape as (_ & _ & _ & Hi & _).
  destruct (Hi _ eq_refl) as (Hpushed & _). split; [exact Hpushed|].
  destruct (collect_page_enriched _ _ _ _ Hcol Hfd Hmdi)
    as (cards & items & l_d & c & Hex & Hen & Hcount).
  pose proof (extract_unenriched _ _ _ _ _ _ Hex) as Hun.
  destruct (enrich_items_props _ _ _ _ _ _ _ _ _ Hen) as (Hlen & Hc & _).
  exists items, l_d, c.
  split; [exact Hun|]. split; [exact Hen|]. split; [lia|]. split; [exact Hlen|].
  split.
  - intros Hload.
    destruct (enrich_items_loads _ _ _ _ _ _ _ _ Hen Hload Hun) as (H1 & H2).
    rewrite Hcount. lia.
  - intros H2 H5 Hurl (dp0 & cp0 & fb0 & Hdp0 & Hg0 & Hc0 & Hf0 & Hd0)
      (dp1 & cp1 & fb1 & Hdp1 & Hg1 & Hc1 & Hf1 & Hd1).
    destruct items as [|i0 [|i1 [|i2 [|i3 [|i4 [|]]]]]]; try discriminate H5.
    rewrite H2 in Hen. cbn [enrich_items] in Hen.
    change (2 <=? 0)%Z with false in Hen. cbv iota in Hen.
    destruct (productUrl i0) as [|a0 u0] eqn:Hu0;
      [exfalso; apply (Hurl i0); [now left | exact Hu0]|].
    destruct (enrich_item_loads dp0 i0 cp0 fb0 Hg0 Hc0 Hf0) as (e0 & He0 & Hen0).
    rewrite Hdp0, He0 in Hen.
    change (2 <=? 0 + 1)%Z with false in Hen. cbv iota in Hen.
    destruct (productUrl i1) as [|a1 u1] eqn:Hu1;
      [exfalso; apply (Hurl i1); [right; now left | exact Hu1]|].
    destruct (enrich_item_loads dp1 i1 cp1 fb1 Hg1 Hc1 Hf1) as (e1 & He1 & Hen1).
    rewrite Hdp1, He1 in Hen.
    change (2 <=? 0 + 1 + 1)%Z with true in Hen. cbv iota in Hen.
    injection Hen as <- <- <-.
    specialize (Hen0 Hd0). specialize (Hen1 Hd1).
    inversion Hun as [|? ? _ Hun1]; subst.
    inversion Hun1 as [|? ? _ Hun2]; subst.
    split; [|split].
    + change [e0; e1; i2; i3; i4] with ([e0; e1] ++ [i2; i3; i4]).
      unfold count_enriched. rewrite List.filter_app, length_app.
      pose proof (count_enriched_none _ Hun2) as Hz. unfold count_enriched in Hz.
      rewrite Hz. cbn [List.filter]. rewrite Hen0, Hen1. reflexivity.
    + simpl. repeat constructor; assumption.
    + reflexivity.
Qed.

(** An exception leaves the loop only from the opening or the closing of
    a search page. *)
Lemma crawl_from_raises fuel : forall i s l s' e,
  crawl fuel i s = Some (l, s', Raise e) ->
  exists j, pages j = Raise e
            \/ exists page, pages j = Ok page /\ close page = Raise e.
Proof.
  induction fuel as [|fuel IH]; intros i s l s' e; simpl.
  - destruct (guard s); discriminate.
  - destruct (guard s); [|discriminate].
    destruct (pages i) as [page|e0] eqn:Hp.
    2:{ intros [= <- <- <-]. exists i. now left. }
    destruct (block page s) as [[l1 c] s1].
    destruct (close page) as [u|e0] eqn:Hc.
    2:{ intros [= <- <- <-]. exists i. right. eauto. }
    destruct c; [discriminate|].
    destruct (crawl fuel (S i) s1) as [[[l2 s2] r2]|] eqn:Hrec; [|discriminate].
    intros [= <- <- ->]. exact (IH _ _ _ _ _ Hrec).
Qed.

Lemma crawl_from_no_start fuel : forall i s l s' r,
  crawl fuel i s = Some (l, s', r) -> started_keywords l = [].
Proof.
  induction fuel as [|fuel IH]; intros i s l s' r; simpl.
  - destruct (guard s); [discriminate|]. now intros [= <- <- <-].
  - destruct (guard s); [|now intros [= <- <- <-]].
    destruct (pages i) as [page|e0]; [|now intros [= <- <- <-]].
    destruct (block page s) as [[l1 c] s1] eqn:Hb.
    assert (Hl1 : started_keywords (EvNewPage :: l1 ++ [EvClose]) = []).
    { unfold page_block in Hb.
      destruct (collect page s) as [l0 r0] eqn:Hc.
      assert (l1 = l0) as -> by (repeat case_match; congruence).
      apply collect_page_shape in Hc.
      apply started_keywords_none.
      intros e [<- | [He | [<- | []]]%in_app_or]; try reflexivity.
      exact (block_log_no_start _ _ _ _ _ _ Hc e He). }
    destruct (close page); [|now intros [= <- <- <-]].
    destruct c; [now intros [= <- <- <-]|].
    destruct (crawl fuel (S i) s1) as [[[l2 s2] r2]|] eqn:Hrec; [|discriminate].
    intros [= <- <- <-].
    change (EvNewPage :: (l1 ++ [EvClose]) ++ l2)
      with ((EvNewPage :: l1 ++ [EvClose]) ++ l2).
    unfold started_keywords in *. rewrite omap_app, Hl1.
    exact (IH _ _ _ _ _ Hrec).
Qed.

End OneKeyword.

End KeywordCrawler.

(** ** The keyword loop of [main] *)

Section KeywordLoop.
Context {rt : Runtime}.

(** An exception leaves [_scrape_keyword] only from the building of the
    search address, the opening of a search page or its closing. *)
Lemma _scrape_keyword_raises pages kw ctry max_items max_pages mr mrev ex fd mdi
    l s' e :
  _scrape_keyword pages kw ctry max_items max_pages mr mrev ex fd mdi
  = (l, s', Raise e) ->
  (0 <= max_pages)%Z ->
  quote_plus kw = Raise e
  \/ exists j, pages j = Raise e
               \/ exists page, pages j = Ok page /\ close page = Raise e.
Proof.
  intros H _. unfold _scrape_keyword in H.
  destruct (quote_plus kw) as [q|e0].
  - right. cbv zeta in H.
    destruct (crawl_from _ _ _ _ _ _ _ _ _ _ _ _ _) as [[[l0 s0] r0]|] eqn:E;
      [|discriminate H].
    injection H as _ _ ->.
    exact (crawl_from_raises _ _ _ _ _ _ _ _ _ _ _ _ _ _ _ _ E).
  - left. now injection H as _ _ ->.
Qed.

Lemma _scrape_keyword_started pages kw ctry max_items max_pages mr mrev ex fd mdi
    l s' r q :
  _scrape_keyword pages kw ctry max_items max_pages mr mrev ex fd mdi
  = (l, s', r) ->
  quote_plus kw = Ok q ->
  started_keywords l = [kw].
Proof.
  unfold _scrape_keyword. intros H Hq. rewrite Hq in H. cbv zeta in H.
  destruct (crawl_from _ _ _ _ _ _ _ _ _ _ _ _ _) as [[[l0 s0] r0]|] eqn:E.
  - injection H as <- _ _. unfold started_keywords. rewrite omap_cons.
    f_equal. exact (crawl_from_no_start _ _ _ _ _ _ _ _ _ _ _ _ _ _ _ _ E).
  - now injection H as <- _ _.
Qed.

Lemma scrape_keywords_all w parsed_input kws : forall k,
  (0 <= max_pages parsed_input)%Z ->
  (forall kw, In kw kws -> exists q, quote_plus kw = Ok q) ->
  (forall k i, exists page, search_pages w k i = Ok page /\ close page = Ok tt) ->
  exists l, scrape_keywords w parsed_input k kws = (l, Ok tt)
            /\ started_keywords l = kws.
Proof.
  induction kws as [|kw rest IH]; intros k Hp Hq Hw; simpl.
  - exists []. split; reflexivity.
  - destruct (_scrape_keyword _ _ _ _ _ _ _ _ _ _) as [[l s'] r] eqn:E.
    destruct (Hq kw (or_introl eq_refl)) as (q & Hkw).
    pose proof (_scrape_keyword_started _ _ _ _ _ _ _ _ _ _ _ _ _ _ E Hkw) as Hs.
    destruct r as [[]|e].
    + destruct (IH (S k) Hp) as (l2 & -> & Hs2);
        [intros kw' Hin; apply Hq; now right | exact Hw |].
      eexists. split; [reflexivity|].
      unfold started_keywords in *. now rewrite omap_app, Hs, Hs2.
    + exfalso.
      destruct (_scrape_keyword_raises _ _ _ _ _ _ _ _ _ _ _ _ _ E Hp)
        as [Hr | (j & [Hr | (page & Hpage & Hc)])].
      * congruence.
      * destruct (Hw k j) as (page & Hpage & _). congruence.
      * destruct (Hw k j) as (page' & Hpage' & Hc'). congruence.
Qed.

(** C6 (as amended).  A failure raised inside the per-page block of a
    keyword's crawl is caught there: the only exceptions that leave
    [_scrape_keyword] come from the building of the search address, from the
    opening of a search page or from its closing.  So in a run in which
    these three do not fail, every keyword is crawled, in order, whatever
    else fails on the way. *)
Theorem keyword_failures_contained (w : World) (raw_input : gmap str pyval)
    (parsed_input : AmazonSearchInput) :
  _normalize_input raw_input = Ok parsed_input ->
  launch w = Ok tt -> new_context w = Ok tt ->
  (forall kw, In kw (keywords parsed_input) -> exists q, quote_plus kw = Ok q) ->
  (forall k i, exists page, search_pages w k i = Ok page /\ close page = Ok tt) ->
  (exists l,
      main w raw_input
      = (l, match (_ <- context_close w ;; browser_close w) with
            | Raise e => Raise e
            | Ok _ => Ok tt
            end)
      /\ started_keywords l = keywords parsed_input)
  /\ (forall pages kw l s' e,
        _scrape_keyword pages kw (country parsed_input)
          (max_items_per_keyword parsed_input) (max_pages parsed_input)
          (min_rating parsed_input) (min_reviews parsed_input)
          (exclude_sponsored parsed_input) (fetch_details parsed_input)
          (max_detail_items parsed_input) = (l, s', Raise e) ->
        quote_plus kw = Raise e
        \/ exists j, pages j = Raise e
                     \/ exists page, pages j = Ok page /\ close page = Raise e).
Proof.
  intros Hn Hl Hc Hq Hw.
  destruct (normalize_input_ranges _ _ Hn) as (_ & Hp & _).
  split.
  - unfold main. rewrite Hn, Hl. cbn [bind]. rewrite Hc.
    destruct (scrape_keywords_all w parsed_input (keywords parsed_input) 0)
      as (l & -> & Hs); [lia | exact Hq | exact Hw |].
    exists l. split; [reflexivity | exact Hs].
  - intros pages kw l s' e H.
    apply (_scrape_keyword_raises _ _ _ _ _ _ _ _ _ _ _ _ _ H). lia.
Qed.

End KeywordLoop.

(** ** Further properties of the normalizer *)

Ltac invert_ok H :=
  repeat lazymatch type of H with
  | bind ?m _ = Ok _ =>
      let E := fresh "E" in
      destruct m eqn:E; cbn [bind] in H; [|discriminate H]
  end.

Section NormalizedInput.
Context {rt : Runtime}.

Lemma clean_keywords_clean l : Forall clean_text (clean_keywords l).
Proof.
  induction l as [|v l IH]; simpl; [constructor|].
  destruct v; try exact IH.
  destruct (strip s) as [|c t] eqn:E; [exact IH|].
  constructor; [|exact IH].
  split; [discriminate|]. rewrite <- E. apply strip_trimmed.
Qed.

Lemma default_keyword_clean : clean_text (lit "iphone 17 case").
Proof.
  split; [intros H; vm_compute in H; discriminate H|].
  assert (H : strip (lit "iphone 17 case") = lit "iphone 17 case")
    by (vm_compute; reflexivity).
  rewrite <- H. apply strip_trimmed.
Qed.

(** X1.  Whatever the raw input holds, the numbers that normalization
    returns are in range: at least one item per keyword, between 1 and 20
    pages, between 1 and 50 detail items. *)
Theorem normalized_numbers_in_range (raw : gmap str pyval) p :
  _normalize_input raw = Ok p ->
  (1 <= max_items_per_keyword p)%Z
  /\ (1 <= max_pages p <= 20)%Z
  /\ (1 <= max_detail_items p <= 50)%Z.
Proof. exact (normalize_input_ranges raw p). Qed.

(** X2.  The keyword list that normalization returns is never empty, and
    every keyword in it is non-empty and free of surrounding whitespace.  A
    keyword given as one text stands for the list of that one text; a blank
    one gives the default keyword. *)
Theorem normalized_keywords_clean (raw : gmap str pyval) p :
  _normalize_input raw = Ok p ->
  keywords p <> []
  /\ Forall clean_text (keywords p)
  /\ (forall s, raw !! lit "keywords" = Some (PStr s) ->
        keywords p = match strip s with
                     | [] => [lit "iphone 17 case"]
                     | k => [k]
                     end).
Proof.
  unfold _normalize_input. cbv zeta. intros H.
  destruct (py_iter _) as [ks|] eqn:Eks; cbn [bind] in H; [|discriminate H].
  invert_ok H. injection H as <-. cbn [keywords].
  split; [|split].
  - destruct (clean_keywords ks); discriminate.
  - pose proof (clean_keywords_clean ks) as Hks.
    destruct (clean_keywords ks); [|exact Hks].
    constructor; [apply default_keyword_clean | constructor].
  - intros s Hs. unfold dict_get in Eks. rewrite Hs in Eks.
    destruct s as [|c s].
    + cbn [py_or truthy py_iter] in Eks. injection Eks as <-. reflexivity.
    + cbn [py_or truthy py_iter] in Eks. injection Eks as <-.
      cbn [clean_keywords]. destruct (strip (c :: s)); reflexivity.
Qed.

Lemma str_in_In s l : str_in s l = true -> In s l.
Proof.
  unfold str_in. intros (x & Hx & Heq)%existsb_exists.
  unfold str_eqb in Heq. apply bool_decide_eq_true in Heq. now subst.
Qed.

Lemma In_str_in s l : In s l -> str_in s l = true.
Proof.
  intros H. unfold str_in. apply existsb_exists. exists s.
  split; [exact H|]. unfold str_eqb. now apply bool_decide_eq_true.
Qed.

Lemma marketplace_of_country c :
  In c countries -> In (c, _country_to_domain c) marketplaces.
Proof.
  intros [<- | [<- | [<- | [<- | [<- | []]]]]]; vm_compute;
    repeat first [left; reflexivity | right].
Qed.

(** X3.  The country that normalization returns is one of the five country
    codes, and [_country_to_domain] sends it to the domain that the table
    gives for it: the origin of the crawl is the marketplace of the
    normalized country. *)
Theorem normalized_country_marketplace (raw : gmap str pyval) p :
  _normalize_input raw = Ok p ->
  In (country p) countries
  /\ In (country p, _country_to_domain (country p)) marketplaces.
Proof.
  unfold _normalize_input. cbv zeta. intros H.
  invert_ok H. injection H as <-. cbn [country].
  assert (Hc : In (if str_in a2 countries then a2 else lit "US") countries).
  { destruct (str_in a2 countries) eqn:Hin; [now apply str_in_In|].
    left. reflexivity. }
  split; [exact Hc | now apply marketplace_of_country].
Qed.

Lemma except_type_value_ok {A} (m : res A) h r :
  except_type_value m h = Ok r ->
  m = Ok r \/ (r = h /\ (m = Raise TypeError \/ m = Raise ValueError)).
Proof.
  unfold except_type_value. destruct m as [a|[]]; intros [= <-]; auto.
Qed.

Lemma reviews_threshold_positive v n :
  except_type_value
    (mr <- py_int v ;; Ok (if (0 <? mr)%Z then Some mr else None)) None
  = Ok (Some n) ->
  (0 < n)%Z.
Proof.
  intros [H | [H _]]%except_type_value_ok; [|discriminate H].
  destruct (py_int v) as [mr|]; cbn [bind] in H; [|discriminate H].
  destruct (Z.ltb_spec 0 mr); [|discriminate H].
  injection H as <-. assumption.
Qed.

(** X4.  The two filter thresholds.  A review threshold that normalization
    returns is positive.  A threshold given as text is converted; a text that
    does not convert switches the filter off and is no error. *)
Theorem normalized_thresholds (raw : gmap str pyval) p :
  _normalize_input raw = Ok p ->
  (forall n, min_reviews p = Some n -> (0 < n)%Z)
  /\ (forall s, raw !! lit "min_rating" = Some (PStr s) ->
        min_rating p = match float_of_str s with
                       | Ok f => Some f
                       | Raise _ => None
                       end)
  /\ (forall s, raw !! lit "min_reviews" = Some (PStr s) ->
        min_reviews p = match int_of_str s with
                        | Ok n => if (0 <? n)%Z then Some n else None
                        | Raise _ => None
                        end).
Proof.
  unfold _normalize_input. cbv zeta. intros H.
  invert_ok H. injection H as <-. cbn [min_rating min_reviews].
  split; [|split].
  - intros n ->.
    destruct (dict_get raw (lit "min_reviews") PNone);
      [discriminate E4 | apply reviews_threshold_positive in E4; exact E4 ..].
  - intros s Hs. unfold dict_get in E3. rewrite Hs in E3.
    cbn [py_float] in E3.
    destruct (float_of_str s) as [f|e] eqn:Hf; cbn [bind except_type_value] in E3.
    + now injection E3 as <-.
    + apply float_of_str_raises in Hf. subst e. now injection E3 as <-.
  - intros s Hs. unfold dict_get in E4. rewrite Hs in E4.
    cbn [py_int] in E4.
    destruct (int_of_str s) as [n|e] eqn:Hn; cbn [bind except_type_value] in E4.
    + now injection E4 as <-.
    + apply int_of_str_raises in Hn. subst e. now injection E4 as <-.
Qed.

Lemma py_iter_raises v e : py_iter v = Raise e -> e = TypeError.
Proof. destruct v; simpl; congruence. Qed.

Lemma py_int_raises v e :
  py_int v = Raise e -> e = TypeError \/ e = ValueError \/ e = OverflowError.
Proof.
  destruct v as [| b | n | f | s | l | d]; simpl; try congruence;
    try (intros [= <-]; auto).
  - destruct f; simpl; intros [= <-]; auto.
  - intros H. apply int_of_str_raises in H. auto.
Qed.

Lemma py_float_raises v e :
  py_float v = Raise e -> e = TypeError \/ e = ValueError \/ e = OverflowError.
Proof.
  destruct v as [| b | n | f | s | l | d]; simpl; try congruence;
    try (intros [= <-]; auto).
  - unfold float_of_int. destruct (binary_normalize _ _ _ _ _);
      intros [= <-]; auto.
  - intros H. apply float_of_str_raises in H. auto.
Qed.

Lemma except_type_value_raises {A} (m : res A) h e :
  except_type_value m h = Raise e ->
  m = Raise e /\ e <> TypeError /\ e <> ValueError.
Proof.
  unfold except_type_value. destruct m as [a|[]]; intros [= <-];
    repeat split; discriminate.
Qed.

(** X5.  The exceptions of normalization.  It raises nothing but a
    [TypeError], a [ValueError], an [OverflowError] or an [AttributeError],
    and an [AttributeError] only for a country that is truthy and no text. *)
Theorem normalize_input_errors (raw : gmap str pyval) e :
  _normalize_input raw = Raise e ->
  (e = TypeError \/ e = ValueError \/ e = OverflowError \/ e = AttributeError)
  /\ (e = AttributeError ->
      exists v, raw !! lit "country" = Some v
                /\ truthy v = true /\ is_text v = false).
Proof.
  unfold _normalize_input. cbv zeta. intros H.
  destruct (py_iter _) as [ks|e0] eqn:Eks; cbn [bind] in H.
  2:{ injection H as <-. apply py_iter_raises in Eks. subst.
      split; [auto | discriminate]. }
  destruct (py_int _) as [n|e0] eqn:En; cbn [bind] in H.
  2:{ injection H as <-. apply py_int_raises in En.
      split; [tauto | intros ->; destruct En as [|[|]]; discriminate]. }
  destruct (py_int _) as [pg|e0] eqn:Ep in H; cbn [bind] in H.
  2:{ injection H as <-. apply py_int_raises in Ep.
      split; [tauto | intros ->; destruct Ep as [|[|]]; discriminate]. }
  match type of H with
  | bind ?m _ = _ => destruct m as [c|e0] eqn:Ec; cbn [bind] in H
  end.
  2:{ injection H as <-. unfold dict_get, py_or in Ec.
      destruct (raw !! lit "country") as [v|] eqn:Hv.
      - destruct (truthy v) eqn:Ht; [|discriminate Ec].
        destruct v; try discriminate Ec; injection Ec as <-;
          (split; [auto|]; intros _; eexists; eauto).
      - discriminate Ec. }
  match type of H with
  | bind ?m _ = _ => destruct m as [r|e0] eqn:Er; cbn [bind] in H
  end.
  2:{ injection H as <-.
      destruct (dict_get raw (lit "min_rating") PNone); try discriminate Er;
        apply except_type_value_raises in Er as (Er & _ & _);
        (match type of Er with bind ?m _ = _ => destruct m as [f0|e1] eqn:Hf end;
         cbn [bind] in Er;
         [discriminate Er|]); injection Er as ->;
        apply py_float_raises in Hf;
        (split; [tauto | intros ->; destruct Hf as [|[|]]; discriminate]). }
  match type of H with
  | bind ?m _ = _ => destruct m as [v|e0] eqn:Ev; cbn [bind] in H
  end.
  2:{ injection H as <-.
      destruct (dict_get raw (lit "min_reviews") PNone); try discriminate Ev;
        apply except_type_value_raises in Ev as (Ev & _ & _);
        (match type of Ev with bind ?m _ = _ => destruct m as [f0|e1] eqn:Hf end;
         cbn [bind] in Ev;
         [discriminate Ev|]); injection Ev as ->;
        apply py_int_raises in Hf;
        (split; [tauto | intros ->; destruct Hf as [|[|]]; discriminate]). }
  destruct (py_int _) as [d|e0] eqn:Ed in H; cbn [bind] in H; [discriminate H|].
  injection H as <-. apply py_int_raises in Ed.
  split; [tauto | intros ->; destruct Ed as [|[|]]; discriminate].
Qed.

Lemma ascii_upper_lower c : ascii_upper (ascii_lower c) = ascii_upper c.
Proof.
  unfold ascii_lower.
  destruct ((65 <=? c) && (c <=? 90)) eqn:H; [|reflexivity].
  apply andb_true_iff in H as [H1%N.leb_le H2%N.leb_le].
  unfold ascii_upper.
  destruct (N.leb_spec 97 (c + 32)); [|lia].
  destruct (N.leb_spec (c + 32) 122); [|lia].
  destruct (N.leb_spec 97 c); [lia|].
  cbn [andb]. lia.
Qed.

Lemma is_ascii_lower c : is_ascii (ascii_lower c) = is_ascii c.
Proof.
  unfold is_ascii, ascii_lower.
  destruct (N.leb_spec 65 c), (N.leb_spec c 90); cbn [andb]; try reflexivity.
  destruct (N.ltb_spec (c + 32) 128), (N.ltb_spec c 128); try reflexivity; lia.
Qed.

Lemma upper_of_lowered c :
  forallb is_ascii c = true -> upper (map ascii_lower c) = upper c.
Proof.
  intros H. unfold upper.
  assert (H' : forallb is_ascii (map ascii_lower c) = true).
  { rewrite forallb_forall in *. intros x (y & <- & Hy)%in_map_iff.
    rewrite is_ascii_lower. now apply H. }
  rewrite H, H', map_map. apply map_ext, ascii_upper_lower.
Qed.

(** X6.  [_country_to_domain] always gives one of the five domains of its
    table; a country whose upper-cased code is none of the five gives
    [www.amazon.com]; and on ASCII text the lookup ignores case. *)
Theorem country_to_domain_table (c : str) :
  In (_country_to_domain c) (map snd marketplaces)
  /\ (~ In (upper c) countries -> _country_to_domain c = lit "www.amazon.com")
  /\ (forallb is_ascii c = true ->
      _country_to_domain (map ascii_lower c) = _country_to_domain c).
Proof.
  split; [|split].
  - unfold _country_to_domain. cbv zeta.
    repeat case_match; vm_compute; repeat first [left; reflexivity | right].
  - intros Hn. unfold _country_to_domain. cbv zeta.
    repeat case_match; try reflexivity; exfalso; apply Hn;
      match goal with
      | H : str_eqb _ _ = true |- _ =>
          unfold str_eqb in H; apply bool_decide_eq_true in H; rewrite H
      end; vm_compute; repeat first [left; reflexivity | right].
  - intros H. unfold _country_to_domain. now rewrite (upper_of_lowered c H).
Qed.

End NormalizedInput.

(** ** Further properties of the extractor *)

Ltac invert_some H :=
  repeat lazymatch type of H with
  | bind ?m _ = Ok _ =>
      let E := fresh "E" in
      destruct m eqn:E; cbn [bind] in H; [|discriminate H]
  | (if ?b then _ else _) = Ok (Some _) =>
      let E := fresh "B" in
      destruct b eqn:E; [discriminate H|]
  end.

Section ExtractedRecord.
Context {rt : Runtime}.

Lemma str_in_false s l : str_in s l = false -> ~ In s l.
Proof.
  intros H Hin. apply In_str_in in Hin. congruence.
Qed.

Lemma nodup_snoc {A} (l : list A) x :
  List.NoDup l -> ~ In x l -> List.NoDup (l ++ [x]).
Proof.
  induction 1 as [|y l Hy Hl IH]; intros Hx; simpl.
  - constructor; [intros [] | constructor].
  - constructor.
    + intros [H | [<- | []]]%in_app_or; [tauto|]. apply Hx. now left.
    + apply IH. intros H. apply Hx. now right.
Qed.

(** The badge loop: what it appends is stripped, non-empty and new, and it
    appends every such text. *)
Lemma collect_badges_spec l : forall n i acc out,
  collect_badges l i n acc = Ok out ->
  List.NoDup acc -> Forall clean_text acc ->
  List.NoDup out /\ Forall clean_text out
  /\ (forall b, In b out ->
        In b acc \/ exists j t, (i <= j < i + n)%nat
                                /\ text_content (nth_match l j) = Ok (Some t)
                                /\ b = strip t)
  /\ (forall j t, (i <= j < i + n)%nat ->
        text_content (nth_match l j) = Ok (Some t) -> strip t <> [] ->
        In (strip t) out)
  /\ (forall b, In b acc -> In b out).
Proof.
  induction n as [|n IH]; intros i acc out H Hnd Hcl.
  - injection H as <-. split; [exact Hnd|]. split; [exact Hcl|].
    split; [now left|]. split; [intros j t Hj; lia | auto].
  - cbn [collect_badges] in H.
    destruct (text_content (nth_match l i)) as [text|] eqn:Ht; cbn [bind] in H;
      [|discriminate H].
    match type of H with
    | collect_badges _ _ _ ?a = _ => set (acc' := a) in H
    end.
    assert (Hacc' : List.NoDup acc' /\ Forall clean_text acc'
              /\ (forall b, In b acc' ->
                    In b acc \/ exists t, text = Some t /\ b = strip t)
              /\ (forall t, text = Some t -> strip t <> [] -> In (strip t) acc')
              /\ (forall b, In b acc -> In b acc')).
    { subst acc'. destruct text as [[|c t]|].
      - split; [exact Hnd|]. split; [exact Hcl|]. split; [now left|].
        split; [|auto]. intros t [= <-] Hne. now contradiction Hne.
      - destruct (strip (c :: t)) as [|d u] eqn:Hs.
        + split; [exact Hnd|]. split; [exact Hcl|]. split; [now left|].
          split; [|auto]. intros t' [= <-] Hne. rewrite Hs in Hne.
          now contradiction Hne.
        + destruct (str_in (d :: u) acc) eqn:Hin.
          * split; [exact Hnd|]. split; [exact Hcl|]. split; [now left|].
            split; [|auto]. intros t' [= <-] _. rewrite Hs.
            now apply str_in_In.
          * apply str_in_false in Hin.
            split; [now apply nodup_snoc|].
            split.
            { apply Forall_app. split; [exact Hcl|].
              constructor; [|constructor]. split; [discriminate|].
              rewrite <- Hs. apply strip_trimmed. }
            split.
            { intros b [Hb | [<- | []]]%in_app_or; [now left|].
              right. exists (c :: t). now rewrite Hs. }
            split.
            { intros t' [= <-] _. rewrite Hs. apply in_or_app. right. now left. }
            intros b Hb. apply in_or_app. now left.
      - split; [exact Hnd|]. split; [exact Hcl|]. split; [now left|].
        split; [|auto]. intros t [=]. }
    destruct Hacc' as (Hnd' & Hcl' & Hsound' & Hcompl' & Hkeep').
    destruct (IH _ _ _ H Hnd' Hcl') as (Hnd2 & Hcl2 & Hsound & Hcompl & Hkeep).
    split; [exact Hnd2|]. split; [exact Hcl2|]. split; [|split].
    + intros b Hb. destruct (Hsound b Hb) as [Hb' | (j & t & Hj & Htj & ->)].
      * destruct (Hsound' b Hb') as [? | (t & -> & ->)]; [now left|].
        right. exists i, t. split; [lia | auto].
      * right. exists j, t. split; [lia | auto].
    + intros j t Hj Htj Hne.
      destruct (Nat.eq_dec j i) as [-> | Hji].
      * rewrite Ht in Htj. injection Htj as ->. apply Hkeep. now apply Hcompl'.
      * apply (Hcompl j t); [lia | assumption..].
    + intros b Hb. apply Hkeep, Hkeep', Hb.
Qed.

(** What a record says about the fields read after the price. *)
Lemma parse_card_body_fields card base mr mrev ex it :
  parse_card_body card base mr mrev ex = Ok (Some it) ->
  trimmed (title it)
  /\ first_text (card_locator card sel_price) = Ok (priceText it)
  /\ first_text (card_locator card sel_original_price) = Ok (originalPriceText it)
  /\ (exists reviews_text,
        first_text (card_locator card sel_reviews) = Ok reviews_text
        /\ parse_reviews reviews_text = Ok (reviewsCount it))
  /\ (exists attr brand1,
        card_attribute card (lit "data-brand") = Ok attr
        /\ match strip (or_empty attr) with
           | [] => first_text (card_locator card sel_brand)
           | _ => Ok (strip (or_empty attr))
           end = Ok brand1
        /\ brand it = clear_badge_like brand1)
  /\ (exists n,
        count (card_locator card sel_badge) = Ok n
        /\ collect_badges (card_locator card sel_badge) 0 n [] = Ok (badges it))
  /\ passes_filters mr mrev ex it = true.
Proof.
  intros H. unfold parse_card_body in H. invert_some H.
  injection H as <-.
  cbn [title priceText originalPriceText reviewsCount brand badges].
  split; [apply strip_trimmed|]. split; [reflexivity|]. split; [reflexivity|].
  split; [eauto|]. split.
  { exists a14, a15. split; [reflexivity|]. split; [exact E15 | reflexivity]. }
  split.
  - exists a16. split; [reflexivity|].
    destruct a16 as [|n]; [|exact E17].
    cbn [Nat.ltb Nat.leb] in E17. exact E17.
  - unfold passes_filters. cbn [rating reviewsCount isSponsored].
    now rewrite B2, B3, B4.
Qed.

Lemma brand_source_trimmed card attr brand1 :
  match strip (or_empty attr) with
  | [] => first_text (card_locator card sel_brand)
  | _ => Ok (strip (or_empty attr))
  end = Ok brand1 ->
  trimmed brand1.
Proof.
  destruct (strip (or_empty attr)) as [|c b] eqn:Hs.
  - apply first_text_trimmed.
  - intros [= <-]. rewrite <- Hs. apply strip_trimmed.
Qed.

Lemma clear_badge_like_cases b :
  (clear_badge_like b = []
   \/ (clear_badge_like b = b
       /\ existsb (fun k => contains k (lower b)) badge_like_keywords = false)).
Proof.
  unfold clear_badge_like. destruct b as [|c b]; [now left|].
  destruct (existsb _ _) eqn:H; [now left | now right].
Qed.

(** X7.  The filters only discard.  With any filter settings the extractor
    gives for a card what it gives without filters, unless that record fails
    one of the three filters; then the card is discarded.  A filter never
    changes a record, and a card discarded without filters stays
    discarded. *)
Theorem filters_only_discard card base mr mrev ex :
  _parse_single_card card base mr mrev ex
  = match _parse_single_card card base None None false with
    | Ok (Some it) =>
        if passes_filters mr mrev ex it then Ok (Some it) else Ok None
    | other => other
    end.
Proof. exact (parse_card_filters card base mr mrev ex). Qed.

Lemma batch_member cards base mr mrev ex items it :
  _extract_product_cards cards base mr mrev ex = Ok items ->
  In it items ->
  exists card, In card cards /\ parse_overruns card = false
               /\ _parse_single_card card base mr mrev ex = Ok (Some it).
Proof.
  unfold _extract_product_cards. rewrite extract_cards_from_spec.
  intros [= <-] Hin. cbn [app] in Hin.
  apply list_elem_of_In, list_elem_of_omap in Hin as (card & Hc & Hf).
  exists card. split; [now apply list_elem_of_In|].
  destruct (parse_overruns card); [discriminate Hf|]. split; [reflexivity|].
  destruct (_parse_single_card card base mr mrev ex) as [o|]; [|discriminate Hf].
  now subst o.
Qed.

(** X8.  Every record of a batch passes the filters it was extracted
    with: its rating, when it has one, is not below the rating threshold,
    its review count, when it has one, is not below the review threshold,
    and it is not sponsored when sponsored results are excluded.  A record
    without a rating or without a review count passes the corresponding
    filter. *)
Theorem batch_respects_filters cards base mr mrev ex items :
  _extract_product_cards cards base mr mrev ex = Ok items ->
  Forall (fun it =>
            (forall m r, mr = Some m -> rating it = Some r ->
                         float_ltb r m = false)
            /\ (forall m r, mrev = Some m -> reviewsCount it = Some r ->
                            (m <= r)%Z)
            /\ (ex = true -> isSponsored it = false)) items.
Proof.
  intros H. apply Forall_forall. intros it Hin%list_elem_of_In.
  destruct (batch_member _ _ _ _ _ _ _ H Hin) as (card & _ & _ & Hp).
  apply _parse_single_card_some, parse_card_body_fields in Hp.
  destruct Hp as (_ & _ & _ & _ & _ & _ & Hf).
  unfold passes_filters in Hf.
  apply andb_true_iff in Hf as [[H1 H2]%andb_true_iff H3].
  apply negb_true_iff in H1, H2, H3.
  split; [|split].
  - intros m r -> Hr. now rewrite Hr in H1.
  - intros m r -> Hr. rewrite Hr in H2. now apply Z.ltb_ge in H2.
  - intros ->. exact H3.
Qed.

(** X9.  The badges of a record are the stripped texts of the badge
    elements of the card: each badge is such a text, not empty and without
    surrounding whitespace, no badge occurs twice, and no non-blank badge
    text of the card is left out. *)
Theorem badges_distinct_and_clean card base mr mrev ex it :
  _parse_single_card card base mr mrev ex = Ok (Some it) ->
  List.NoDup (badges it)
  /\ Forall clean_text (badges it)
  /\ exists n,
      count (card_locator card sel_badge) = Ok n
      /\ (forall b, In b (badges it) ->
            exists j t, (j < n)%nat
              /\ text_content (nth_match (card_locator card sel_badge) j)
                 = Ok (Some t)
              /\ b = strip t)
      /\ (forall j t, (j < n)%nat ->
            text_content (nth_match (card_locator card sel_badge) j)
            = Ok (Some t) ->
            strip t <> [] -> In (strip t) (badges it)).
Proof.
  intros H. apply _parse_single_card_some, parse_card_body_fields in H.
  destruct H as (_ & _ & _ & _ & _ & (n & Hn & Hb) & _).
  destruct (collect_badges_spec _ _ _ _ _ Hb (List.NoDup_nil _) (List.Forall_nil _))
    as (Hnd & Hcl & Hsound & Hcompl & _).
  split; [exact Hnd|]. split; [exact Hcl|].
  exists n. split; [exact Hn|]. split.
  - intros b Hin. destruct (Hsound b Hin) as [[] | (j & t & Hj & Ht & ->)].
    exists j, t. split; [lia | auto].
  - intros j t Hj. apply Hcompl. lia.
Qed.

(** X10.  The brand of a record is never a badge phrase: a brand that is
    not empty contains, in lower case, none of the four badge-like phrases.
    The brand attribute of the card has priority over the brand text: when
    it is not blank, the brand is the stripped attribute, or empty if that
    reads like a badge. *)
Theorem brand_never_badge_like card base mr mrev ex it :
  _parse_single_card card base mr mrev ex = Ok (Some it) ->
  (brand it <> [] ->
   forall k, In k badge_like_keywords -> contains k (lower (brand it)) = false)
  /\ (forall b, card_attribute card (lit "data-brand") = Ok (Some b) ->
        strip b <> [] -> brand it = clear_badge_like (strip b)).
Proof.
  intros H. apply _parse_single_card_some, parse_card_body_fields in H.
  destruct H as (_ & _ & _ & _ & (attr & brand1 & Hattr & Hb1 & Hbrand) & _).
  split.
  - intros Hne k Hk. rewrite Hbrand in Hne |- *.
    destruct (clear_badge_like_cases brand1) as [E | [E Hex]];
      [now rewrite E in Hne|].
    rewrite E.
    destruct (contains k (lower brand1)) eqn:Hc; [|reflexivity].
    assert (existsb (fun k => contains k (lower brand1)) badge_like_keywords
            = true); [|congruence].
    apply existsb_exists. eauto.
  - intros b Hb Hne. rewrite Hb in Hattr. injection Hattr as <-.
    cbn [or_empty] in Hb1. destruct (strip b) eqn:Hs; [now contradiction Hne|].
    injection Hb1 as <-. exact Hbrand.
Qed.

(** X11.  The texts of a record carry no surrounding whitespace: the title,
    the price text, the original price text, the brand and every badge
    neither begin nor end with a whitespace character. *)
Theorem text_fields_trimmed card base mr mrev ex it :
  _parse_single_card card base mr mrev ex = Ok (Some it) ->
  trimmed (title it) /\ trimmed (priceText it)
  /\ trimmed (originalPriceText it) /\ trimmed (brand it)
  /\ Forall trimmed (badges it).
Proof.
  intros H. apply _parse_single_card_some, parse_card_body_fields in H.
  destruct H as (Ht & Hp & Ho & _ & (attr & brand1 & _ & Hb1 & Hbrand)
                 & (n & _ & Hb) & _).
  split; [exact Ht|]. split; [exact (first_text_trimmed _ _ Hp)|].
  split; [exact (first_text_trimmed _ _ Ho)|]. split.
  - rewrite Hbrand.
    destruct (clear_badge_like_cases brand1) as [-> | [-> _]]; [now left|].
    exact (brand_source_trimmed _ _ _ Hb1).
  - destruct (collect_badges_spec _ _ _ _ _ Hb (List.NoDup_nil _) (List.Forall_nil _))
      as (_ & Hcl & _).
    eapply List.Forall_impl; [|exact Hcl]. now intros b [_ Hb'].
Qed.

Lemma span_int_digits_all ds : forall prev,
  forallb is_ascii_digit ds = true -> prev <> 95 ->
  span_int_digits prev ds = Some (ds, []).
Proof.
  induction ds as [|c ds IH]; intros prev Hds Hprev; simpl.
  - apply N.eqb_neq in Hprev. now rewrite Hprev.
  - simpl in Hds. apply andb_true_iff in Hds as [Hc Hds].
    assert (Hc95 : c <> 95).
    { unfold is_ascii_digit in Hc.
      apply andb_true_iff in Hc as [_ Hc%N.leb_le]. lia. }
    pose proof Hc95 as Hc95'. apply N.eqb_neq in Hc95'.
    rewrite Hc95', Hc, (IH c Hds Hc95). reflexivity.
Qed.

Lemma to_ascii_numeral_digits ds :
  forallb is_ascii_digit ds = true -> to_ascii_numeral ds = ds.
Proof.
  induction ds as [|c ds IH]; [reflexivity|]. simpl.
  intros [Hc Hds]%andb_true_iff.
  unfold is_ascii_digit in Hc. apply andb_true_iff in Hc as [_ Hc%N.leb_le].
  destruct (N.ltb_spec c 127); [|lia]. now rewrite IH.
Qed.

Lemma ascii_digit_cases c :
  is_ascii_digit c = true ->
  c = 48 \/ c = 49 \/ c = 50 \/ c = 51 \/ c = 52
  \/ c = 53 \/ c = 54 \/ c = 55 \/ c = 56 \/ c = 57.
Proof.
  unfold is_ascii_digit. intros [H1%N.leb_le H2%N.leb_le]%andb_true_iff. lia.
Qed.

(** [int()] of a text of ASCII digits is the number they write, unless the
    text is longer than the interpreter allows. *)
Lemma int_of_digits ds :
  ds <> [] -> forallb is_ascii_digit ds = true ->
  int_max_str_digits = 0 \/ N.of_nat (length ds) <= int_max_str_digits ->
  int_of_str ds = Ok (Z.of_N (digits_value 0 ds)).
Proof.
  intros Hne Hds Hmax. unfold int_of_str.
  rewrite (to_ascii_numeral_digits ds Hds).
  pose proof (span_int_digits_all ds 0 Hds ltac:(discriminate)) as Hspan.
  assert (Hlim : (0 <? int_max_str_digits)
                 && (int_max_str_digits <? N.of_nat (length ds)) = false).
  { destruct Hmax as [-> | Hle]; [reflexivity|].
    apply andb_false_iff. right. now apply N.ltb_ge. }
  destruct ds as [|c ds']; [now contradiction Hne|].
  assert (Hc : is_ascii_digit c = true).
  { simpl in Hds. now apply andb_true_iff in Hds as [Hc _]. }
  apply ascii_digit_cases in Hc.
  destruct Hc as [-> | [-> | [-> | [-> | [-> | [-> | [-> | [-> | [-> | ->]]]]]]]]];
    match goal with
    | |- context [lstrip_with c_isspace (?x :: ds')] =>
        change (lstrip_with c_isspace (x :: ds')) with (x :: ds');
        change (split_sign (x :: ds')) with (false, x :: ds')
    end;
    cbv beta iota; rewrite Hspan; cbv beta iota;
    cbn [lstrip_with]; rewrite Hlim; reflexivity.
Qed.

Lemma grouped_digits_only text :
  forallb is_grouped_digit text = true ->
  replace 46 [] (replace 44 [] text) = List.filter is_ascii_digit text.
Proof.
  rewrite !replace_remove.
  induction text as [|c text IH]; [reflexivity|]. simpl.
  intros [Hc Ht]%andb_true_iff. specialize (IH Ht).
  unfold is_grouped_digit in Hc.
  destruct (is_ascii_digit c) eqn:Hd.
  - apply ascii_digit_cases in Hd.
    destruct Hd as [-> | [-> | [-> | [-> | [-> | [-> | [-> | [-> | [-> | ->]]]]]]]]];
      simpl; now rewrite IH.
  - cbn [orb] in Hc. apply orb_true_iff in Hc as [->%N.eqb_eq | ->%N.eqb_eq];
      simpl; exact IH.
Qed.

Lemma filter_digits_all text :
  forallb is_ascii_digit (List.filter is_ascii_digit text) = true.
Proof.
  apply forallb_forall. now intros c [_ Hc]%filter_In.
Qed.

(** X12.  The review count ignores thousands separators: when the review
    text of the card consists of digits, commas and periods, with a digit
    among them, the review count of the record is the number that the
    digits write, both for [1,234] and for [1.234].  (The interpreter's
    limit on the length of integer texts is assumed not to be exceeded.) *)
Theorem reviews_count_ignores_separators card base mr mrev ex it text :
  _parse_single_card card base mr mrev ex = Ok (Some it) ->
  first_text (card_locator card sel_reviews) = Ok text ->
  forallb is_grouped_digit text = true ->
  List.filter is_ascii_digit text <> [] ->
  int_max_str_digits = 0
  \/ N.of_nat (length (List.filter is_ascii_digit text)) <= int_max_str_digits ->
  reviewsCount it = Some (Z.of_N (digits_value 0 (List.filter is_ascii_digit text))).
Proof.
  intros H Htext Hg Hne Hmax.
  apply _parse_single_card_some, parse_card_body_fields in H.
  destruct H as (_ & _ & _ & (t & Ht & Hrev) & _).
  rewrite Htext in Ht. injection Ht as <-.
  unfold parse_reviews in Hrev.
  destruct text as [|c0 text0] eqn:Etext; [now contradiction Hne|].
  rewrite <- Etext in *. clear Etext.
  rewrite (grouped_digits_only text Hg) in Hrev.
  rewrite (int_of_digits _ Hne (filter_digits_all text) Hmax) in Hrev.
  destruct text; [now contradiction Hne|]. now injection Hrev as <-.
Qed.

End ExtractedRecord.

(** ** Further properties of the crawler *)

Section NavigationPolicy.

(** X13.  The navigation policy.  A search page is navigated to at most
    three times.  The attempt that ends the navigation is the [k]-th: every
    attempt before it timed out and was followed by a pause that returned;
    the navigation returns what the [k]-th attempt returns, which before
    the third attempt is no timeout, or it raises what the pause after a
    timed-out attempt raises.  So an error other than a timeout is not
    retried, and a third timeout is raised. *)
Theorem navigation_retry_policy page url l r :
  navigate page url (seq 1 max_nav_retries) = (l, r) ->
  exists k, (1 <= k <= 3)%nat
    /\ l = repeat (EvGoto url) k
    /\ (forall j, (1 <= j < k)%nat ->
          attempt_outcome page j = Raise PlaywrightTimeoutError
          /\ backoff page j = Ok tt)
    /\ ((r = attempt_outcome page k
         /\ ((k < 3)%nat -> r <> Raise PlaywrightTimeoutError))
        \/ ((k < 3)%nat
            /\ attempt_outcome page k = Raise PlaywrightTimeoutError
            /\ exists e, backoff page k = Raise e /\ r = Raise e)).
Proof.
  unfold max_nav_retries. cbn [seq navigate Nat.eqb].
  change (_ <- goto page 1 ;; settle page 1) with (attempt_outcome page 1).
  change (_ <- goto page 2 ;; settle page 2) with (attempt_outcome page 2).
  change (_ <- goto page 3 ;; settle page 3) with (attempt_outcome page 3).
  assert (Hstop : forall k o,
            (1 <= k <= 3)%nat ->
            (forall j, (1 <= j < k)%nat ->
               attempt_outcome page j = Raise PlaywrightTimeoutError
               /\ backoff page j = Ok tt) ->
            attempt_outcome page k = o ->
            ((k < 3)%nat -> o <> Raise PlaywrightTimeoutError) ->
            (repeat (EvGoto url) k, o) = (l, r) ->
            exists k, (1 <= k <= 3)%nat
              /\ l = repeat (EvGoto url) k
              /\ (forall j, (1 <= j < k)%nat ->
                    attempt_outcome page j = Raise PlaywrightTimeoutError
                    /\ backoff page j = Ok tt)
              /\ ((r = attempt_outcome page k
                   /\ ((k < 3)%nat -> r <> Raise PlaywrightTimeoutError))
                  \/ ((k < 3)%nat
                      /\ attempt_outcome page k = Raise PlaywrightTimeoutError
                      /\ exists e, backoff page k = Raise e /\ r = Raise e))).
  { intros k o Hk Hprev Ho Hnt [= <- <-]. exists k.
    split; [exact Hk|]. split; [reflexivity|]. split; [exact Hprev|].
    left. split; [now rewrite Ho | exact Hnt]. }
  assert (Hpause : forall k e,
            (1 <= k < 3)%nat ->
            (forall j, (1 <= j < k)%nat ->
               attempt_outcome page j = Raise PlaywrightTimeoutError
               /\ backoff page j = Ok tt) ->
            attempt_outcome page k = Raise PlaywrightTimeoutError ->
            backoff page k = Raise e ->
            (repeat (EvGoto url) k, @Raise unit e) = (l, r) ->
            exists k, (1 <= k <= 3)%nat
              /\ l = repeat (EvGoto url) k
              /\ (forall j, (1 <= j < k)%nat ->
                    attempt_outcome page j = Raise PlaywrightTimeoutError
                    /\ backoff page j = Ok tt)
              /\ ((r = attempt_outcome page k
                   /\ ((k < 3)%nat -> r <> Raise PlaywrightTimeoutError))
                  \/ ((k < 3)%nat
                      /\ attempt_outcome page k = Raise PlaywrightTimeoutError
                      /\ exists e, backoff page k = Raise e /\ r = Raise e))).
  { intros k e Hk Hprev Ho Hb [= <- <-]. exists k.
    split; [lia|]. split; [reflexivity|]. split; [exact Hprev|].
    right. split; [lia|]. split; [exact Ho | eauto]. }
  destruct (attempt_outcome page 1) as [[]|e1] eqn:H1.
  { apply (Hstop 1%nat (Ok tt)); [lia | intros; lia | exact H1 | discriminate]. }
  destruct e1;
    try solve [apply (Hstop 1%nat (Raise _));
               [lia | intros; lia | exact H1 | intros _ H; discriminate H]].
  destruct (backoff page 1) as [[]|b1] eqn:B1.
  2:{ apply (Hpause 1%nat b1); [lia | intros; lia | exact H1 | exact B1]. }
  assert (Hprev1 : forall j, (1 <= j < 2)%nat ->
            attempt_outcome page j = Raise PlaywrightTimeoutError
            /\ backoff page j = Ok tt).
  { intros j Hj. assert (j = 1%nat) as -> by lia. auto. }
  destruct (attempt_outcome page 2) as [[]|e2] eqn:H2.
  { apply (Hstop 2%nat (Ok tt)); [lia | exact Hprev1 | exact H2 | discriminate]. }
  destruct e2;
    try solve [apply (Hstop 2%nat (Raise _));
               [lia | exact Hprev1 | exact H2 | intros _ H; discriminate H]].
  destruct (backoff page 2) as [[]|b2] eqn:B2.
  2:{ apply (Hpause 2%nat b2); [lia | exact Hprev1 | exact H2 | exact B2]. }
  assert (Hprev2 : forall j, (1 <= j < 3)%nat ->
            attempt_outcome page j = Raise PlaywrightTimeoutError
            /\ backoff page j = Ok tt).
  { intros j Hj. assert (j = 1%nat \/ j = 2%nat) as [-> | ->] by lia; auto. }
  destruct (attempt_outcome page 3) as [[]|e3] eqn:H3.
  { apply (Hstop 3%nat (Ok tt)); [lia | exact Hprev2 | exact H3 | intros; lia]. }
  destruct e3; apply (Hstop 3%nat (Raise _)); try lia; try exact Hprev2;
    try exact H3; intros; lia.
Qed.

End NavigationPolicy.

Section CrawlOfKeyword.
Context {rt : Runtime}.
Variable pages : nat -> res Page.
Variable keyword country : str.
Variable max_items max_pages : Z.
Variable min_rating : option float.
Variable min_reviews : option Z.
Variable exclude_sponsored fetch_details : bool.
Variable max_detail_items : Z.

Local Abbreviation collect :=
  (collect_page keyword country max_items min_rating min_reviews
     exclude_sponsored fetch_details max_detail_items).
Local Abbreviation block :=
  (page_block keyword country max_items min_rating min_reviews
     exclude_sponsored fetch_details max_detail_items).
Local Abbreviation guard := (loop_guard max_items max_pages).
Local Abbreviation crawl :=
  (crawl_from pages keyword country max_items max_pages min_rating min_reviews
     exclude_sponsored fetch_details max_detail_items).
Local Abbreviation scrape :=
  (_scrape_keyword pages keyword country max_items max_pages min_rating
     min_reviews exclude_sponsored fetch_details max_detail_items).

(** The two ways a page block can go: it ends before anything is extracted,
    or it extracts a batch from the cards it still needs, visits detail
    pages when asked to, and pushes. *)
Lemma collect_page_cases page s l r :
  collect page s = (l, r) ->
  ((forall e, In e l -> e = EvGoto (search_url s) \/ e = EvContent \/ e = EvCards)
   /\ (r = Ok None \/ exists e, r = Raise e))
  \/ exists cards items l_nav l_detail items' l_push rp,
       all_matches page sel_cards = Ok cards
       /\ _extract_product_cards
            (take (Z.to_nat (max_items - total_collected s)) cards)
            (base_url country) min_rating min_reviews exclude_sponsored
          = Ok items
       /\ items <> []
       /\ (if fetch_details && (0 <? max_detail_items)%Z
           then exists c,
               enrich_items max_detail_items page (detail_page_bound s) 0 0
                 items
               = (l_detail, items', c)
           else l_detail = [] /\ items' = items)
       /\ push_items keyword country page (page_index s) 0 items' = (l_push, rp)
       /\ l = l_nav ++ [EvContent; EvCards] ++ l_detail ++ l_push
       /\ (forall e, In e l_nav -> e = EvGoto (search_url s))
       /\ r = match rp with
              | Ok _ => Ok (Some items')
              | Raise e => Raise e
              end.
Proof.
  unfold collect_page.
  destruct (navigate page (search_url s) (seq 1 max_nav_retries))
    as [l_nav rn] eqn:Hnav.
  destruct (navigate_log _ _ _ _ _ Hnav) as (n & -> & _ & _). clear Hnav.
  assert (Hgo : forall e, In e (repeat (EvGoto (search_url s)) n) ->
                  e = EvGoto (search_url s)).
  { intros e He. exact (in_repeat_eq _ _ _ He). }
  assert (Hearly : forall t r0,
            (forall e, In e t -> e = EvContent \/ e = EvCards) ->
            (r0 = Ok None \/ exists e, r0 = Raise e) ->
            (repeat (EvGoto (search_url s)) n ++ t, r0) = (l, r) ->
            ((forall e, In e l ->
                e = EvGoto (search_url s) \/ e = EvContent \/ e = EvCards)
             /\ (r = Ok None \/ exists e, r = Raise e))
            \/ exists cards items l_nav l_detail items' l_push rp,
                 all_matches page sel_cards = Ok cards
                 /\ _extract_product_cards
                      (take (Z.to_nat (max_items - total_collected s)) cards)
                      (base_url country) min_rating min_reviews exclude_sponsored
                    = Ok items
                 /\ items <> []
                 /\ (if fetch_details && (0 <? max_detail_items)%Z
                     then exists c,
                         enrich_items max_detail_items page
                           (detail_page_bound s) 0 0 items
                         = (l_detail, items', c)
                     else l_detail = [] /\ items' = items)
                 /\ push_items keyword country page (page_index s) 0 items'
                    = (l_push, rp)
                 /\ l = l_nav ++ [EvContent; EvCards] ++ l_detail ++ l_push
                 /\ (forall e, In e l_nav -> e = EvGoto (search_url s))
                 /\ r = match rp with
                        | Ok _ => Ok (Some items')
                        | Raise e => Raise e
                        end).
  { intros t r0 Ht Hr [= <- <-]. left. split; [|exact Hr].
    intros e [He | He]%in_app_or; [left; now apply Hgo | right; now apply Ht]. }
  assert (H0 : forall e : event, In e [] -> e = EvContent \/ e = EvCards)
    by (intros e []).
  assert (H1 : forall e, In e [EvContent] -> e = EvContent \/ e = EvCards)
    by (intros e [<- | []]; now left).
  assert (H2 : forall e, In e [EvContent; EvCards] -> e = EvContent \/ e = EvCards)
    by (intros e [<- | [<- | []]]; [now left | now right]).
  destruct rn as [u|e].
  2:{ intros H. apply (Hearly [] (Raise e) H0); [eauto|].
      now rewrite app_nil_r. }
  destruct (content page) as [html|e].
  2:{ apply (Hearly _ (Raise e) H1). eauto. }
  destruct (looks_like_captcha html).
  { apply (Hearly _ (Ok None) H1). now left. }
  destruct (all_matches page sel_cards) as [[|c0 cards]|e] eqn:Hcards.
  1:{ apply (Hearly _ (Ok None) H2). now left. }
  2:{ apply (Hearly _ (Raise e) H2). eauto. }
  cbv zeta.
  destruct (Z.leb_spec (max_items - total_collected s) 0) as [Hle|Hgt].
  { apply (Hearly _ (Ok None) H2). now left. }
  set (cards' := if (_ <? _)%Z then _ else _).
  assert (Hcards' : cards'
            = take (Z.to_nat (max_items - total_collected s)) (c0 :: cards)).
  { subst cards'.
    destruct (Z.ltb_spec (max_items - total_collected s)
                (Z.of_nat (length (c0 :: cards)))) as [Hlt|Hge];
      [reflexivity|].
    symmetry. apply take_ge. lia. }
  rewrite Hcards'. clear cards' Hcards'.
  destruct (_extract_product_cards _ _ _ _ _) as [[|it items]|e] eqn:Hex.
  1:{ apply (Hearly _ (Ok None) H2). now left. }
  2:{ apply (Hearly _ (Raise e) H2). eauto. }
  destruct (fetch_details && (0 <? max_detail_items)%Z) eqn:Hfd.
  - destruct (enrich_items _ _ _ _ _ _) as [[l_detail items'] c] eqn:Hen.
    destruct (push_items _ _ _ _ _ _) as [l_push rp] eqn:Hpush.
    intros [= <- <-]. right.
    exists (c0 :: cards), (it :: items), (repeat (EvGoto (search_url s)) n),
      l_detail, items', l_push, rp.
    split; [reflexivity|]. split; [exact Hex|]. split; [discriminate|].
    split; [eauto|]. split; [exact Hpush|]. split; [reflexivity|].
    split; [exact Hgo|]. now destruct rp.
  - destruct (push_items _ _ _ _ _ _) as [l_push rp] eqn:Hpush.
    intros [= <- <-]. right.
    exists (c0 :: cards), (it :: items), (repeat (EvGoto (search_url s)) n),
      [], (it :: items), l_push, rp.
    split; [reflexivity|]. split; [exact Hex|]. split; [discriminate|].
    split; [auto|]. split; [exact Hpush|]. split; [reflexivity|].
    split; [exact Hgo|]. now destruct rp.
Qed.

Lemma page_block_log page s l c s' :
  block page s = (l, c, s') ->
  exists r, collect page s = (l, r)
    /\ total_collected s'
       = (total_collected s
          + match r with
            | Ok (Some items) => Z.of_nat (length items)
            | _ => 0
            end)%Z.
Proof.
  unfold page_block. destruct (collect page s) as [l0 [[items|]|e]].
  - cbn [total_collected page_index search_url].
    destruct (max_items <=? _)%Z;
      [intros [= <- <- <-]; eexists; split; reflexivity|].
    destruct (next_page_url country page) as [[url|]|e];
      intros [= <- <- <-]; eexists; split; reflexivity.
  - intros [= <- <- <-]. exists (Ok None). split; [reflexivity | lia].
  - intros [= <- <- <-]. exists (Raise e).
    split; [reflexivity | cbn [total_collected]; lia].
Qed.

Lemma detail_is_page_call e : is_detail e = true -> is_page_call e = true.
Proof. now destruct e. Qed.

Lemma page_lifecycle_app l1 : forall l2 o,
  page_lifecycle o (l1 ++ l2)
  = match page_lifecycle o l1 with
    | Some o' => page_lifecycle o' l2
    | None => None
    end.
Proof.
  induction l1 as [|e l1 IH]; intros l2 o; [reflexivity|].
  destruct e, o; simpl; auto.
Qed.

Lemma page_lifecycle_calls l :
  (forall e, In e l -> is_page_call e = true) ->
  page_lifecycle true l = Some true.
Proof.
  induction l as [|e l IH]; intros H; [reflexivity|].
  pose proof (H e (or_introl eq_refl)) as He.
  destruct e; try discriminate He; simpl; apply IH; intros; apply H; now right.
Qed.

(** The calls of a page block, one by one. *)
Lemma collect_page_events page s l r :
  collect page s = (l, r) ->
  forall e, In e l ->
    e = EvGoto (search_url s) \/ e = EvContent \/ e = EvCards
    \/ is_detail e = true
    \/ exists item, e = EvPush keyword country (page_index s) item.
Proof.
  intros H e He.
  destruct (collect_page_cases _ _ _ _ H)
    as [[Hl _] | (cards & items & l_nav & l_detail & items' & l_push & rp
                  & _ & _ & _ & Hen & Hpush & -> & Hnav & _)].
  - destruct (Hl e He) as [-> | [-> | ->]]; auto.
  - apply in_app_or in He as [He | He]; [left; now apply Hnav|].
    cbn [app] in He. destruct He as [<- | [<- | He]]; [auto | auto|].
    apply in_app_or in He as [He | He].
    + right. right. right. left.
      destruct (fetch_details && (0 <? max_detail_items)%Z).
      * destruct Hen as (c & Hen).
        destruct (enrich_items_props _ _ _ _ _ _ _ _ _ Hen) as (_ & _ & Hd & _).
        now apply Hd.
      * destruct Hen as [-> _]. destruct He.
    + right. right. right. right.
      destruct (push_items_log _ _ _ _ _ _ _ _ Hpush) as (n & -> & _).
      apply in_map_iff in He as (x & <- & _). eauto.
Qed.

Lemma collect_page_calls page s l r :
  collect page s = (l, r) -> forall e, In e l -> is_page_call e = true.
Proof.
  intros H e He.
  destruct (collect_page_events _ _ _ _ H e He)
    as [-> | [-> | [-> | [Hd | (item & ->)]]]]; try reflexivity.
  now apply detail_is_page_call.
Qed.

Lemma crawl_from_zero i s :
  crawl 0 i s = if guard s then None else Some ([], s, Ok tt).
Proof. reflexivity. Qed.

Lemma crawl_from_succ fuel i s :
  crawl (S fuel) i s
  = if guard s then
      match pages i with
      | Raise e => Some ([EvNewPage], s, Raise e)
      | Ok page =>
          let '(l, c, s') := block page s in
          let l' := EvNewPage :: l ++ [EvClose] in
          match close page with
          | Raise e => Some (l', s', Raise e)
          | Ok _ =>
              match c with
              | Break => Some (l', s', Ok tt)
              | Continue =>
                  match crawl fuel (S i) s' with
                  | Some (l2, s2, r) => Some (l' ++ l2, s2, r)
                  | None => None
                  end
              end
          end
      end
    else Some ([], s, Ok tt).
Proof. reflexivity. Qed.

(** A property of single calls that holds of the calls of every page block
    holds of the calls of the loop. *)
Lemma crawl_log_forall (P : event -> Prop) :
  P EvNewPage -> P EvClose ->
  (forall i page s l r,
      pages i = Ok page -> collect page s = (l, r) -> Forall P l) ->
  forall fuel i s l s' r, crawl fuel i s = Some (l, s', r) -> Forall P l.
Proof.
  intros Hnew Hclose Hblock.
  induction fuel as [|fuel IH]; intros i s l s' r.
  - rewrite crawl_from_zero. destruct (guard s); [discriminate|].
    intros [= <- <- <-]. constructor.
  - rewrite crawl_from_succ. destruct (guard s).
    2:{ intros [= <- <- <-]. constructor. }
    destruct (pages i) as [page|e] eqn:Hpage.
    2:{ intros [= <- <- <-]. repeat constructor. exact Hnew. }
    destruct (block page s) as [[l1 c] s1] eqn:Hb.
    destruct (page_block_log _ _ _ _ _ Hb) as (r1 & Hc & _).
    pose proof (Hblock _ _ _ _ _ Hpage Hc) as Hl1.
    assert (Hturn : Forall P (EvNewPage :: l1 ++ [EvClose])).
    { constructor; [exact Hnew|]. apply Forall_app. split; [exact Hl1|].
      repeat constructor. exact Hclose. }
    cbv zeta.
    destruct (close page); [|intros [= <- <- <-]; exact Hturn].
    destruct c; [intros [= <- <- <-]; exact Hturn|].
    destruct (crawl fuel (S i) s1) as [[[l2 s2] r2]|] eqn:Hrec; [|discriminate].
    intros [= <- <- <-].
    apply (proj2 (List.Forall_app P (EvNewPage :: l1 ++ [EvClose]) l2)).
    split; [exact Hturn | exact (IH _ _ _ _ _ Hrec)].
Qed.

(** The same for a whole keyword. *)
Lemma scrape_log_forall (P : event -> Prop) l s' r :
  (forall url, P (EvStart keyword url)) -> P EvNewPage -> P EvClose ->
  (forall i page s l r,
      pages i = Ok page -> collect page s = (l, r) -> Forall P l) ->
  scrape = (l, s', r) -> Forall P l.
Proof.
  intros Hstart Hnew Hclose Hblock. unfold _scrape_keyword.
  destruct (quote_plus keyword) as [q|e]; [|intros [= <- <- <-]; constructor].
  destruct (crawl_from _ _ _ _ _ _ _ _ _ _ _ _ _) as [[[l0 s0] r0]|] eqn:Hc.
  - intros [= <- <- <-]. constructor; [apply Hstart|].
    exact (crawl_log_forall P Hnew Hclose Hblock _ _ _ _ _ _ Hc).
  - intros [= <- <- <-]. constructor; [apply Hstart | constructor].
Qed.

Lemma crawl_lifecycle fuel : forall i s l s' r,
  crawl fuel i s = Some (l, s', r) ->
  page_lifecycle false l = Some false
  \/ exists l' e j,
      l = l' ++ [EvNewPage] /\ page_lifecycle false l' = Some false
      /\ pages j = Raise e /\ r = Raise e.
Proof.
  induction fuel as [|fuel IH]; intros i s l s' r.
  - rewrite crawl_from_zero. destruct (guard s); [discriminate|].
    intros [= <- <- <-]. now left.
  - rewrite crawl_from_succ. destruct (guard s).
    2:{ intros [= <- <- <-]. now left. }
    destruct (pages i) as [page|e] eqn:Hpage.
    2:{ intros [= <- <- <-]. right. exists [], e, i. auto. }
    destruct (block page s) as [[l1 c] s1] eqn:Hb.
    destruct (page_block_log _ _ _ _ _ Hb) as (r1 & Hc & _).
    assert (Hturn : page_lifecycle false (EvNewPage :: l1 ++ [EvClose])
                    = Some false).
    { cbn [page_lifecycle]. rewrite page_lifecycle_app.
      rewrite (page_lifecycle_calls l1 (collect_page_calls _ _ _ _ Hc)).
      reflexivity. }
    cbv zeta.
    destruct (close page); [|intros [= <- <- <-]; now left].
    destruct c; [intros [= <- <- <-]; now left|].
    destruct (crawl fuel (S i) s1) as [[[l2 s2] r2]|] eqn:Hrec; [|discriminate].
    intros [= <- <- <-].
    destruct (IH _ _ _ _ _ Hrec) as [H2 | (l' & e & j & -> & H2 & Hj & ->)].
    + left.
      change (EvNewPage :: (l1 ++ [EvClose]) ++ l2)
        with ((EvNewPage :: l1 ++ [EvClose]) ++ l2).
      now rewrite page_lifecycle_app, Hturn.
    + right. exists ((EvNewPage :: l1 ++ [EvClose]) ++ l'), e, j.
      split; [exact (app_assoc (EvNewPage :: l1 ++ [EvClose]) l' [EvNewPage])|].
      split; [now rewrite page_lifecycle_app, Hturn | auto].
Qed.

(** X14.  One search page at a time.  In the calls of a keyword a search
    page is opened only when none is open, every call on a page (navigation,
    content, cards, detail visits, pushes) is made while its search page is
    open, and every search page that was opened is closed before the next
    is opened or the function is left, whether the block ended normally, by
    a [break] or by an exception.  The one exception is the last call when
    opening a search page fails: nothing is open then, and the failure is
    raised. *)
Theorem search_pages_bracketed l s' r :
  scrape = (l, s', r) ->
  page_lifecycle false l = Some false
  \/ exists l' e j,
      l = l' ++ [EvNewPage] /\ page_lifecycle false l' = Some false
      /\ pages j = Raise e /\ r = Raise e.
Proof.
  unfold _scrape_keyword.
  destruct (quote_plus keyword) as [q|e]; [|intros [= <- <- <-]; now left].
  destruct (crawl_from _ _ _ _ _ _ _ _ _ _ _ _ _) as [[[l0 s0] r0]|] eqn:Hc.
  - intros [= <- <- <-].
    destruct (crawl_lifecycle _ _ _ _ _ _ Hc)
      as [H | (l' & e & j & -> & H & Hj & ->)]; [now left|].
    right. exists (EvStart keyword (base_url country ++ lit "/s?k=" ++ q) :: l'),
      e, j. auto.
  - intros [= <- <- <-]. now left.
Qed.

Lemma unenriched_search_fields item :
  is_enriched item = false -> search_fields item = item.
Proof.
  destruct item as [a t u pt p o r rc ip b bs sp im cu cp fb].
  unfold is_enriched, search_fields. cbn.
  destruct cp, fb; try discriminate. reflexivity.
Qed.

Lemma collect_texts_clean l : forall n i acc out,
  collect_texts l i n acc = Ok out ->
  Forall clean_text acc -> Forall clean_text out.
Proof.
  induction n as [|n IH]; intros i acc out H Hacc.
  - now injection H as <-.
  - cbn [collect_texts] in H.
    destruct (text_content (nth_match l i)) as [text|]; cbn [bind] in H;
      [|discriminate H].
    apply (IH _ _ _ H).
    destruct text as [[|c t]|]; try exact Hacc.
    destruct (strip (c :: t)) as [|d u] eqn:Hs; [exact Hacc|].
    apply Forall_app. split; [exact Hacc|].
    constructor; [|constructor]. split; [discriminate|].
    rewrite <- Hs. apply strip_trimmed.
Qed.

Lemma read_texts_clean l out : read_texts l = Ok out -> Forall clean_text out.
Proof.
  unfold read_texts. destruct (count l) as [c|]; cbn [bind]; [|discriminate].
  destruct (0 <? c)%nat; [|intros [= <-]; constructor].
  intros H. apply (collect_texts_clean _ _ _ _ _ H). constructor.
Qed.

(** What one detail visit does to a record. *)
Lemma enrich_item_fields dp item item' done :
  enrich_item dp item = (item', done) ->
  search_fields item' = search_fields item
  /\ (details_ok item -> details_ok item').
Proof.
  unfold enrich_item.
  destruct (detail_goto dp); [|intros [= <- <-]; auto].
  destruct (read_texts (detail_locator dp sel_breadcrumbs)) as [cp|] eqn:Hcp;
    [|intros [= <- <-]; auto].
  apply read_texts_clean in Hcp.
  set (item1 := match cp with [] => item | _ => with_categoryPath item cp end).
  assert (H1 : search_fields item1 = search_fields item
               /\ (details_ok item -> details_ok item1)).
  { subst item1. destruct cp as [|c0 cp']; [auto|].
    split; [reflexivity|]. intros [_ Hfb]. split; [|exact Hfb].
    split; [discriminate | exact Hcp]. }
  clearbody item1. destruct H1 as [Hs1 Hok1].
  destruct (read_texts (detail_locator dp sel_bullets)) as [fb|] eqn:Hfb;
    [|intros [= <- <-]; auto].
  apply read_texts_clean in Hfb.
  intros [= <- <-]. destruct fb as [|f0 fb']; [auto|].
  split; [exact Hs1|]. intros Hok. destruct (Hok1 Hok) as [Hcp1 _].
  split; [exact Hcp1|]. split; [discriminate | exact Hfb].
Qed.

Lemma enrich_items_fields page items : forall b j c l out c',
  enrich_items max_detail_items page b j c items = (l, out, c') ->
  map search_fields out = map search_fields items
  /\ (Forall details_ok items -> Forall details_ok out).
Proof.
  induction items as [|item rest IH]; intros b j c l out c'; simpl.
  - intros [= <- <- <-]. auto.
  - destruct (max_detail_items <=? c)%Z; [intros [= <- <- <-]; auto|].
    destruct (productUrl item) as [|u0 u].
    + destruct (enrich_items _ page b (S j) c rest) as [[l1 out1] c1] eqn:E.
      intros [= <- <- <-]. destruct (IH _ _ _ _ _ _ E) as [Hs Hok].
      split; [simpl; now rewrite Hs|].
      intros Hall. inversion Hall; subst. constructor; auto.
    + destruct (detail_page_for page j) as [dp|e].
      * destruct (enrich_item dp item) as [item' done] eqn:Hd.
        destruct (enrich_items _ page true (S j) _ rest) as [[l1 out1] c1] eqn:E.
        intros [= <- <- <-]. destruct (IH _ _ _ _ _ _ E) as [Hs Hok].
        destruct (enrich_item_fields _ _ _ _ Hd) as [Hs' Hok'].
        split; [simpl; now rewrite Hs, Hs'|].
        intros Hall. inversion Hall; subst. constructor; auto.
      * destruct (enrich_items _ page b (S j) c rest) as [[l1 out1] c1] eqn:E.
        intros [= <- <- <-]. destruct (IH _ _ _ _ _ _ E) as [Hs Hok].
        split; [simpl; now rewrite Hs|].
        intros Hall. inversion Hall; subst. constructor; auto.
Qed.

Lemma map_search_fields_unenriched items :
  Forall (fun item => is_enriched item = false) items ->
  map search_fields items = items.
Proof.
  induction 1 as [|it items Hit _ IH]; [reflexivity|].
  simpl. now rewrite IH, (unenriched_search_fields it Hit).
Qed.

(** X15.  Enrichment only adds.  The records pushed for a search page are
    the batch that the extractor returns for the cards still needed (the
    first [max_items - total_collected] cards of the page), in the same
    order and number; a detail visit changes none of the fields read from
    the search page, it can only add the two detail fields. *)
Theorem enrichment_keeps_record page s l items' :
  collect page s = (l, Ok (Some items')) ->
  pushed_items l = items'
  /\ exists cards,
      all_matches page sel_cards = Ok cards
      /\ _extract_product_cards
           (take (Z.to_nat (max_items - total_collected s)) cards)
           (base_url country) min_rating min_reviews exclude_sponsored
         = Ok (map search_fields items').
Proof.
  intros H. split.
  - pose proof (collect_page_shape _ _ _ _ _ _ _ _ _ _ _ _ H) as Hshape.
    apply block_log_counts in Hshape as (_ & _ & _ & Hitems & _).
    now destruct (Hitems items' eq_refl).
  - destruct (collect_page_cases _ _ _ _ H)
      as [[_ [Hr | (e & Hr)]] | (cards & items & l_nav & l_detail & items0
                                 & l_push & rp & Hcards & Hex & _ & Hen & _
                                 & _ & _ & Hr)]; try discriminate Hr.
    assert (items0 = items') as -> by (destruct rp; congruence).
    exists cards. split; [exact Hcards|]. rewrite Hex. f_equal.
    pose proof (extract_unenriched _ _ _ _ _ _ Hex) as Hun.
    destruct (fetch_details && (0 <? max_detail_items)%Z).
    + destruct Hen as (c & Hen).
      destruct (enrich_items_fields _ _ _ _ _ _ _ _ Hen) as [-> _].
      symmetry. now apply map_search_fields_unenriched.
    + destruct Hen as [_ ->]. symmetry. now apply map_search_fields_unenriched.
Qed.

Lemma unenriched_details_ok items :
  Forall (fun item => is_enriched item = false) items ->
  Forall details_ok items.
Proof.
  intros H. eapply List.Forall_impl; [|exact H].
  intros [a t u pt p o r rc ip b bs sp im cu cp fb]. unfold is_enriched, details_ok.
  cbn. destruct cp, fb; try discriminate. intros _. split; exact I.
Qed.

Lemma pushed_items_forall (P : Item -> Prop) l :
  Forall (fun e => match e with EvPush _ _ _ item => P item | _ => True end) l ->
  Forall P (pushed_items l).
Proof.
  induction 1 as [|e l He _ IH]; [constructor|].
  unfold pushed_items. rewrite omap_cons. fold (pushed_items l).
  destruct e; try exact IH. constructor; assumption.
Qed.

(** The records of a page block, as they are pushed. *)
Lemma collect_page_pushed (P : Item -> Prop) page s l r :
  (forall cards items,
      _extract_product_cards cards (base_url country) min_rating min_reviews
        exclude_sponsored = Ok items ->
      Forall P items) ->
  (forall b j c items l_detail out c',
      Forall P items ->
      enrich_items max_detail_items page b j c items = (l_detail, out, c') ->
      fetch_details && (0 <? max_detail_items)%Z = true ->
      Forall P out) ->
  collect page s = (l, r) ->
  Forall (fun e => match e with EvPush _ _ _ item => P item | _ => True end) l.
Proof.
  intros Hextract Henrich H.
  destruct (collect_page_cases _ _ _ _ H)
    as [[Hl _] | (cards & items & l_nav & l_detail & items' & l_push & rp
                  & _ & Hex & _ & Hen & Hpush & -> & Hnav & _)].
  - apply Forall_forall. intros e He%list_elem_of_In.
    destruct (Hl e He) as [-> | [-> | ->]]; exact I.
  - assert (Hitems' : Forall P items').
    { pose proof (Hextract _ _ Hex) as Hitems.
      destruct (fetch_details && (0 <? max_detail_items)%Z) eqn:Hfd.
      - destruct Hen as (c & Hen).
        exact (Henrich _ _ _ _ _ _ _ Hitems Hen eq_refl).
      - now destruct Hen as [_ ->]. }
    assert (Hdet : forall e, In e l_detail -> is_detail e = true).
    { destruct (fetch_details && (0 <? max_detail_items)%Z).
      - destruct Hen as (c & Hen).
        now destruct (enrich_items_props _ _ _ _ _ _ _ _ _ Hen) as (_ & _ & Hd & _).
      - destruct Hen as [-> _]. intros e []. }
    destruct (push_items_log _ _ _ _ _ _ _ _ Hpush) as (n & -> & _).
    apply Forall_app. split.
    { apply Forall_forall. intros e He%list_elem_of_In.
      now rewrite (Hnav e He). }
    repeat constructor. apply Forall_app. split.
    { apply Forall_forall. intros e He%list_elem_of_In.
      apply Hdet in He. now destruct e. }
    apply Forall_forall. intros e He%list_elem_of_In.
    apply in_map_iff in He as (x & <- & Hx).
    rewrite List.Forall_forall in Hitems'. apply Hitems'.
    apply list_elem_of_In in Hx. apply list_elem_of_In.
    exact (subseteq_take n items' x Hx).
Qed.

(** X16.  The detail fields of every record pushed for a keyword are well
    formed: [categoryPath] and [featureBullets] are absent or non-empty
    lists of texts that are not empty and carry no surrounding whitespace.
    An empty list is never pushed. *)
Theorem enrichment_fields_nonblank l s' r :
  scrape = (l, s', r) -> Forall details_ok (pushed_items l).
Proof.
  intros H. apply pushed_items_forall.
  eapply scrape_log_forall; [intros; exact I | exact I | exact I | | exact H].
  intros i page s l0 r0 _ Hc.
  apply (collect_page_pushed details_ok page s l0 r0); [| |exact Hc].
  - intros cards items Hex.
    exact (unenriched_details_ok _ (extract_unenriched _ _ _ _ _ _ Hex)).
  - intros b j c items l_detail out c' Hitems Hen _.
    now apply (enrich_items_fields _ _ _ _ _ _ _ _ Hen).
Qed.

Lemma count_events_forall_false p l :
  Forall (fun e => p e = false) l -> count_events p l = O.
Proof.
  intros H. apply count_events_none. now apply List.Forall_forall.
Qed.

(** X17.  Without the [fetch_details] flag, or with a detail limit that is
    not positive, no detail page is opened for the keyword and no pushed
    record carries a detail field. *)
Theorem no_details_without_flag l s' r :
  fetch_details = false \/ (max_detail_items <= 0)%Z ->
  scrape = (l, s', r) ->
  count_events is_detail l = O
  /\ Forall (fun item => is_enriched item = false) (pushed_items l).
Proof.
  intros Hoff H.
  assert (Hfd : fetch_details && (0 <? max_detail_items)%Z = false).
  { destruct Hoff as [-> | Hle]; [reflexivity|].
    apply andb_false_iff. right. apply Z.ltb_ge. exact Hle. }
  split.
  - apply count_events_forall_false.
    eapply scrape_log_forall;
      [intros; reflexivity | reflexivity | reflexivity | | exact H].
    intros i page s l0 r0 _ Hc. apply Forall_forall. intros e He%list_elem_of_In.
    destruct (collect_page_cases _ _ _ _ Hc)
      as [[Hl _] | (cards & items & l_nav & l_detail & items' & l_push & rp
                    & _ & _ & _ & Hen & Hpush & -> & Hnav & _)].
    + destruct (Hl e He) as [-> | [-> | ->]]; reflexivity.
    + rewrite Hfd in Hen. destruct Hen as [-> _].
      destruct (push_items_log _ _ _ _ _ _ _ _ Hpush) as (n & -> & _).
      apply in_app_or in He as [He | He]; [now rewrite (Hnav e He)|].
      cbn [app] in He. destruct He as [<- | [<- | He]]; try reflexivity.
      apply in_map_iff in He as (x & <- & _). reflexivity.
  - apply pushed_items_forall.
    eapply scrape_log_forall; [intros; exact I | exact I | exact I | | exact H].
    intros i page s l0 r0 _ Hc.
    apply (collect_page_pushed (fun item => is_enriched item = false)
             page s l0 r0); [| |exact Hc].
    + intros cards items Hex. exact (extract_unenriched _ _ _ _ _ _ Hex).
    + intros b j c items l_detail out c' _ _ Hon. congruence.
Qed.


Lemma crawl_more_fuel fuel : forall i s x,
  crawl fuel i s = Some x -> crawl (S fuel) i s = Some x.
Proof.
  induction fuel as [|fuel IH]; intros i s x.
  - rewrite crawl_from_zero, crawl_from_succ.
    destruct (guard s); [discriminate | auto].
  - rewrite (crawl_from_succ (S fuel)), (crawl_from_succ fuel).
    destruct (guard s); [|auto].
    destruct (pages i) as [page|e]; [|auto].
    destruct (block page s) as [[l1 c] s1]. cbv zeta.
    destruct (close page); [|auto].
    destruct c; [auto|].
    destruct (crawl fuel (S i) s1) as [[[l2 s2] r2]|] eqn:Hrec; [|discriminate].
    now rewrite (IH _ _ _ Hrec).
Qed.

Lemma crawl_fuel_le fuel fuel' i s x :
  (fuel <= fuel')%nat -> crawl fuel i s = Some x -> crawl fuel' i s = Some x.
Proof.
  induction 1 as [|fuel' _ IH]; [auto|].
  intros H. apply crawl_more_fuel, IH, H.
Qed.

(** X20.  The loop ends.  From any values of the loop variables the loop
    returns after at most [max_pages + 1 - page_index] turns, whatever the
    browser answers, and more turns than that change nothing.  So the
    [max_pages] turns that the embedding of [_scrape_keyword] allows are
    always enough: the function returns, with the calls, variables and
    outcome of the loop. *)
Theorem crawl_loop_terminates fuel fuel' i s :
  (max_pages + 1 - page_index s <= Z.of_nat fuel)%Z -> (fuel <= fuel')%nat ->
  (exists l s' r,
      crawl fuel i s = Some (l, s', r) /\ crawl fuel' i s = Some (l, s', r))
  /\ (forall q, quote_plus keyword = Ok q ->
        exists l s' r,
          crawl (Z.to_nat max_pages) 0
            (initial_state (base_url country ++ lit "/s?k=" ++ q))
          = Some (l, s', r)
          /\ scrape
             = (EvStart keyword (base_url country ++ lit "/s?k=" ++ q) :: l,
                s', r)).
Proof.
  intros Hfuel Hle. split.
  - destruct (crawl_from_enough_fuel pages keyword country max_items max_pages
                min_rating min_reviews exclude_sponsored fetch_details
                max_detail_items fuel i s Hfuel) as (l & s' & r & H).
    exists l, s', r. split; [exact H|]. exact (crawl_fuel_le _ _ _ _ _ Hle H).
  - intros q Hq.
    destruct (crawl_from_enough_fuel pages keyword country max_items max_pages
                min_rating min_reviews exclude_sponsored fetch_details
                max_detail_items (Z.to_nat max_pages) 0
                (initial_state (base_url country ++ lit "/s?k=" ++ q)))
      as (l & s' & r & H); [cbn [page_index initial_state]; lia|].
    exists l, s', r. split; [exact H|].
    unfold _scrape_keyword. rewrite Hq. cbv zeta. now rewrite H.
Qed.

(** X21.  Without a budget nothing is opened.  When [max_items] or
    [max_pages] is not positive, [_scrape_keyword] logs the start of the
    keyword and returns: it opens no page and pushes nothing. *)
Theorem no_budget_no_page q :
  (max_items <= 0)%Z \/ (max_pages <= 0)%Z ->
  quote_plus keyword = Ok q ->
  scrape = ([EvStart keyword (base_url country ++ lit "/s?k=" ++ q)],
            initial_state (base_url country ++ lit "/s?k=" ++ q), Ok tt).
Proof.
  intros Hno Hq. unfold _scrape_keyword. rewrite Hq. cbv zeta.
  assert (Hg : guard (initial_state (base_url country ++ lit "/s?k=" ++ q))
               = false).
  { unfold loop_guard. cbn [total_collected page_index initial_state].
    apply andb_false_iff.
    destruct Hno; [left; apply Z.ltb_ge | right; apply Z.leb_gt]; lia. }
  destruct (Z.to_nat max_pages) as [|n].
  - now rewrite crawl_from_zero, Hg.
  - now rewrite crawl_from_succ, Hg.
Qed.

Lemma page_block_total page s l c s' :
  block page s = (l, c, s') ->
  (total_collected s' - total_collected s
   <= Z.of_nat (count_events is_push l))%Z
  /\ ((forall k, push_outcome page k = Ok tt) ->
      (total_collected s' - total_collected s
       = Z.of_nat (count_events is_push l))%Z).
Proof.
  intros Hb. destruct (page_block_log _ _ _ _ _ Hb) as (r & Hc & Htot).
  pose proof (collect_page_shape _ _ _ _ _ _ _ _ _ _ _ _ Hc) as Hshape.
  apply block_log_counts in Hshape as (_ & _ & _ & Hitems & _).
  destruct r as [[items|]|e].
  - destruct (Hitems items eq_refl) as (_ & -> & _). lia.
  - split; [lia|]. intros _.
    destruct (collect_page_cases _ _ _ _ Hc)
      as [[Hl _] | (cards & items & l_nav & l_detail & items' & l_push & rp
                    & _ & _ & _ & _ & _ & _ & _ & Hr)].
    + rewrite count_events_none; [lia|].
      intros e' He'. destruct (Hl e' He') as [-> | [-> | ->]]; reflexivity.
    + destruct rp; discriminate Hr.
  - split; [lia|]. intros Hpush.
    destruct (collect_page_cases _ _ _ _ Hc)
      as [[Hl _] | (cards & items & l_nav & l_detail & items' & l_push & rp
                    & _ & _ & _ & _ & Hp & _ & _ & Hr)].
    + rewrite count_events_none; [lia|].
      intros e' He'. destruct (Hl e' He') as [-> | [-> | ->]]; reflexivity.
    + rewrite (push_items_all_ok keyword country page (page_index s) items' 0
                 Hpush) in Hp.
      injection Hp as _ <-. discriminate Hr.
Qed.

Lemma crawl_total fuel : forall i s l s' r,
  crawl fuel i s = Some (l, s', r) ->
  (total_collected s' - total_collected s
   <= Z.of_nat (count_events is_push l))%Z
  /\ ((forall j page k, pages j = Ok page -> push_outcome page k = Ok tt) ->
      (total_collected s' - total_collected s
       = Z.of_nat (count_events is_push l))%Z).
Proof.
  induction fuel as [|fuel IH]; intros i s l s' r.
  - rewrite crawl_from_zero. destruct (guard s); [discriminate|].
    intros [= <- <- <-]. change (count_events is_push []) with O. lia.
  - rewrite crawl_from_succ. destruct (guard s).
    2:{ intros [= <- <- <-]. change (count_events is_push []) with O. lia. }
    destruct (pages i) as [page|e] eqn:Hpage.
    2:{ intros [= <- <- <-]. change (count_events is_push [EvNewPage]) with O.
        lia. }
    destruct (block page s) as [[l1 c] s1] eqn:Hb.
    destruct (page_block_total _ _ _ _ _ Hb) as [Hle Heq].
    assert (Hturn : count_events is_push (EvNewPage :: l1 ++ [EvClose])
                    = count_events is_push l1).
    { rewrite count_events_cons, count_events_app.
      change (count_events is_push [EvClose]) with O. cbn [is_push]. lia. }
    cbv zeta.
    assert (Hone : forall r0,
      Some (EvNewPage :: l1 ++ [EvClose], s1, r0) = Some (l, s', r) ->
      (total_collected s' - total_collected s
       <= Z.of_nat (count_events is_push l))%Z
      /\ ((forall j page k, pages j = Ok page -> push_outcome page k = Ok tt) ->
          (total_collected s' - total_collected s
           = Z.of_nat (count_events is_push l))%Z)).
    { intros r0 [= <- <- <-]. rewrite Hturn. split; [exact Hle|].
      intros Hpush. apply Heq. intros k. exact (Hpush i page k Hpage). }
    destruct (close page); [|apply Hone].
    destruct c; [apply Hone|].
    destruct (crawl fuel (S i) s1) as [[[l2 s2] r2]|] eqn:Hrec; [|discriminate].
    intros [= <- <- <-]. destruct (IH _ _ _ _ _ Hrec) as [Hle2 Heq2].
    change (EvNewPage :: (l1 ++ [EvClose]) ++ l2)
      with ((EvNewPage :: l1 ++ [EvClose]) ++ l2).
    rewrite count_events_app, Hturn. split; [lia|].
    intros Hpush. specialize (Heq2 Hpush).
    assert (Hk : forall k, push_outcome page k = Ok tt)
      by (intros k; exact (Hpush i page k Hpage)).
    specialize (Heq Hk). lia.
Qed.

(** X22.  [total_collected] counts whole pages of pushed records.  When
    [_scrape_keyword] is left the counter is at most the number of records
    pushed for the keyword, and it is that number when no push fails: a
    page whose push fails half-way has pushed records that are not
    counted. *)
Theorem total_collected_counts_pushes l s' r :
  scrape = (l, s', r) ->
  (total_collected s' <= Z.of_nat (count_events is_push l))%Z
  /\ ((forall j page k, pages j = Ok page -> push_outcome page k = Ok tt) ->
      total_collected s' = Z.of_nat (count_events is_push l)).
Proof.
  unfold _scrape_keyword.
  destruct (quote_plus keyword) as [q|e].
  2:{ intros [= <- <- <-]. now split. }
  destruct (crawl_from _ _ _ _ _ _ _ _ _ _ _ _ _) as [[[l0 s0] r0]|] eqn:Hc.
  - intros [= <- <- <-]. destruct (crawl_total _ _ _ _ _ _ Hc) as [Hle Heq].
    cbn [total_collected initial_state] in Hle, Heq.
    rewrite count_events_cons. cbn [is_push]. split; [lia|].
    intros Hpush. specialize (Heq Hpush). lia.
  - intros [= <- <- <-]. now split.
Qed.


(** The label of every push of a keyword. *)
Lemma scrape_push_labels l s' r :
  scrape = (l, s', r) -> (0 <= max_items)%Z -> (0 <= max_pages)%Z ->
  forall kw c idx item, In (EvPush kw c idx item) l ->
    kw = keyword /\ c = country /\ (1 <= idx <= max_pages)%Z.
Proof.
  intros H Hi Hp kw c idx item Hin. split; [|split].
  - assert (Hall : Forall (fun e => match e with
                                    | EvPush kw' _ _ _ => kw' = keyword
                                    | _ => True
                                    end) l).
    { eapply scrape_log_forall; [intros; exact I | exact I | exact I | | exact H].
      intros i page s l0 r0 _ Hc. apply Forall_forall.
      intros e He%list_elem_of_In.
      destruct (collect_page_events _ _ _ _ Hc e He)
        as [-> | [-> | [-> | [Hd | (it & ->)]]]]; try exact I; [|reflexivity].
      now destruct e. }
    rewrite List.Forall_forall in Hall. exact (Hall _ Hin).
  - assert (Hall : Forall (fun e => match e with
                                    | EvPush _ c' _ _ => c' = country
                                    | _ => True
                                    end) l).
    { eapply scrape_log_forall; [intros; exact I | exact I | exact I | | exact H].
      intros i page s l0 r0 _ Hc. apply Forall_forall.
      intros e He%list_elem_of_In.
      destruct (collect_page_events _ _ _ _ Hc e He)
        as [-> | [-> | [-> | [Hd | (it & ->)]]]]; try exact I; [|reflexivity].
      now destruct e. }
    rewrite List.Forall_forall in Hall. exact (Hall _ Hin).
  - destruct (_scrape_keyword_run _ _ _ _ _ _ _ _ _ _ _ _ _ H Hp)
      as [(-> & _) | (q & l' & _ & -> & Hc)]; [destruct Hin|].
    destruct Hin as [Hin | Hin]; [discriminate Hin|].
    apply crawl_from_props in Hc; [|cbn [total_collected initial_state]; lia].
    destruct Hc as (_ & _ & _ & _ & _ & _ & Hidx).
    exact (Hidx _ idx Hin eq_refl).
Qed.


End CrawlOfKeyword.

(** ** Further properties of a whole run *)

Section WholeRun.
Context {rt : Runtime}.

Lemma started_keywords_app l1 l2 :
  started_keywords (l1 ++ l2) = started_keywords l1 ++ started_keywords l2.
Proof. apply omap_app. Qed.

Lemma scrape_keywords_pushes w p kws : forall k l r,
  (0 <= max_items_per_keyword p)%Z -> (0 <= max_pages p)%Z ->
  scrape_keywords w p k kws = (l, r) ->
  forall kw c idx item, In (EvPush kw c idx item) l ->
    In kw kws /\ c = country p /\ (1 <= idx <= max_pages p)%Z.
Proof.
  induction kws as [|kw0 rest IH]; intros k l r Hi Hp; cbn [scrape_keywords].
  - intros [= <- <-] kw c idx item [].
  - destruct (_scrape_keyword _ _ _ _ _ _ _ _ _ _) as [[l1 s1] r1] eqn:Hs.
    pose proof (scrape_push_labels _ _ _ _ _ _ _ _ _ _ _ _ _ Hs Hi Hp) as Hl1.
    destruct r1 as [u|e].
    + destruct (scrape_keywords w p (S k) rest) as [l2 r2] eqn:Hrest.
      intros [= <- <-] kw c idx item [Hin | Hin]%in_app_or.
      * destruct (Hl1 _ _ _ _ Hin) as (-> & Hc & Hidx). split; [now left | auto].
      * destruct (IH _ _ _ Hi Hp Hrest _ _ _ _ Hin) as (Hkw & Hc & Hidx).
        split; [now right | auto].
    + intros [= <- <-] kw c idx item Hin.
      destruct (Hl1 _ _ _ _ Hin) as (-> & Hc & Hidx). split; [now left | auto].
Qed.

Lemma main_log (w : World) raw p l r :
  _normalize_input raw = Ok p -> main w raw = (l, r) ->
  l = []
  \/ exists r0, scrape_keywords w p 0 (keywords p) = (l, r0)
                /\ (r = Ok tt -> r0 = Ok tt).
Proof.
  intros Hn. unfold main. rewrite Hn.
  destruct (_ <- launch w ;; new_context w); [|intros [= <- <-]; now left].
  destruct (scrape_keywords w p 0 (keywords p)) as [l0 r0].
  intros [= <- <-]. right. exists r0. split; [reflexivity|].
  destruct (_ <- context_close w ;; browser_close w); [auto | discriminate].
Qed.

(** X18.  Every record that a run pushes is labelled with one of the
    normalized keywords, with the normalized country and with a page index
    between 1 and the normalized [max_pages]. *)
Theorem pushes_carry_keyword_and_country (w : World) raw p l r :
  _normalize_input raw = Ok p -> main w raw = (l, r) ->
  forall kw c idx item, In (EvPush kw c idx item) l ->
    In kw (keywords p) /\ c = country p /\ (1 <= idx <= max_pages p)%Z.
Proof.
  intros Hn Hm kw c idx item Hin.
  destruct (normalize_input_ranges raw p Hn) as (Hi & Hp & _).
  destruct (main_log w raw p l r Hn Hm) as [-> | (r0 & Hs & _)]; [destruct Hin|].
  exact (scrape_keywords_pushes w p _ _ _ _ ltac:(lia) ltac:(lia) Hs _ _ _ _ Hin).
Qed.

Lemma scrape_keyword_start pages kw ctry mi mp mr mrev ex fd mdi l s' r :
  _scrape_keyword pages kw ctry mi mp mr mrev ex fd mdi = (l, s', r) ->
  (started_keywords l = [kw])
  \/ (l = [] /\ exists e, r = Raise e).
Proof.
  intros H. destruct (quote_plus kw) as [q|e] eqn:Hq.
  - left. exact (_scrape_keyword_started _ _ _ _ _ _ _ _ _ _ _ _ _ _ H Hq).
  - right. unfold _scrape_keyword in H. rewrite Hq in H.
    injection H as <- _ <-. eauto.
Qed.

Lemma scrape_keywords_started w p kws : forall k l r,
  scrape_keywords w p k kws = (l, r) ->
  exists n, started_keywords l = take n kws
            /\ (r = Ok tt -> n = length kws).
Proof.
  induction kws as [|kw0 rest IH]; intros k l r; cbn [scrape_keywords].
  - intros [= <- <-]. exists O. auto.
  - destruct (_scrape_keyword _ _ _ _ _ _ _ _ _ _) as [[l1 s1] r1] eqn:Hs.
    destruct (scrape_keyword_start _ _ _ _ _ _ _ _ _ _ _ _ _ Hs)
      as [Hst | (-> & e & ->)].
    + destruct r1 as [u|e].
      * destruct (scrape_keywords w p (S k) rest) as [l2 r2] eqn:Hrest.
        intros [= <- <-]. destruct (IH _ _ _ Hrest) as (n & Hn & Hall).
        exists (S n). rewrite started_keywords_app, Hst, Hn.
        split; [reflexivity|]. intros Hr. cbn [length]. now rewrite (Hall Hr).
      * intros [= <- <-]. exists 1%nat. rewrite Hst.
        split; [reflexivity | discriminate].
    + intros [= <- <-]. exists O. split; [reflexivity | discriminate].
Qed.

(** X19.  The keywords are crawled in the order of the normalized list, and
    a run stops at the first keyword that raises: the keywords whose crawl
    was started are a prefix of the list, and they are the whole list when
    the run returns normally. *)
Theorem keywords_started_in_order (w : World) raw p l r :
  _normalize_input raw = Ok p -> main w raw = (l, r) ->
  exists n, started_keywords l = take n (keywords p)
            /\ (r = Ok tt -> n = length (keywords p)
                             /\ started_keywords l = keywords p).
Proof.
  intros Hn Hm.
  destruct (main_log w raw p l r Hn Hm) as [-> | (r0 & Hs & Hr)].
  - exists O. split; [reflexivity|]. intros ->.
    unfold main in Hm. rewrite Hn in Hm.
    destruct (_ <- launch w ;; new_context w); [|discriminate Hm].
    destruct (scrape_keywords w p 0 (keywords p)) as [l0 r0] eqn:Hs.
    destruct (scrape_keywords_started _ _ _ _ _ _ Hs) as (n & Hst & Hall).
    assert (l0 = []) as -> by (now injection Hm).
    assert (r0 = Ok tt) as ->.
    { destruct (_ <- context_close w ;; browser_close w);
        [now injection Hm | discriminate Hm]. }
    specialize (Hall eq_refl). subst n. rewrite firstn_all in Hst.
    cbn in Hst. rewrite <- Hst. auto.
  - destruct (scrape_keywords_started _ _ _ _ _ _ Hs) as (n & Hst & Hall).
    exists n. split; [exact Hst|]. intros Hok.
    specialize (Hall (Hr Hok)). split; [exact Hall|].
    rewrite Hst, Hall. apply firstn_all.
Qed.

End WholeRun.

(** ** The query of the search address *)

Section SearchQuery.

Lemma hex_digit_unreserved d : d < 16 -> is_unreserved (hex_digit d) = true.
Proof.
  intros Hd.
  assert (Hc : d = 0 \/ d = 1 \/ d = 2 \/ d = 3 \/ d = 4 \/ d = 5 \/ d = 6
               \/ d = 7 \/ d = 8 \/ d = 9 \/ d = 10 \/ d = 11 \/ d = 12
               \/ d = 13 \/ d = 14 \/ d = 15) by lia.
  repeat destruct Hc as [-> | Hc]; try reflexivity. now subst.
Qed.

Lemma utf8_encode_bytes c bytes :
  c < 1114112 -> utf8_encode c = Ok bytes -> Forall (fun b => b < 256) bytes.
Proof.
  intros Hc. unfold utf8_encode.
  destruct (N.ltb_spec c 128).
  { intros [= <-]. repeat constructor. lia. }
  destruct (N.ltb_spec c 2048).
  { intros [= <-]. repeat constructor.
    - pose proof (N.Div0.div_lt_upper_bound c 64 32). lia.
    - pose proof (N.mod_upper_bound c 64). lia. }
  destruct ((55296 <=? c) && (c <=? 57343)); [discriminate|].
  destruct (N.ltb_spec c 65536).
  { intros [= <-]. repeat constructor.
    - pose proof (N.Div0.div_lt_upper_bound c 4096 16). lia.
    - pose proof (N.mod_upper_bound (c / 64) 64). lia.
    - pose proof (N.mod_upper_bound c 64). lia. }
  intros [= <-]. repeat constructor.
  - pose proof (N.Div0.div_lt_upper_bound c 262144 5). lia.
  - pose proof (N.mod_upper_bound (c / 4096) 64). lia.
  - pose proof (N.mod_upper_bound (c / 64) 64). lia.
  - pose proof (N.mod_upper_bound c 64). lia.
Qed.

Lemma utf8_encode_raises c e :
  utf8_encode c = Raise e ->
  e = OtherError "UnicodeEncodeError" /\ is_surrogate c = true.
Proof.
  unfold utf8_encode, is_surrogate.
  destruct (c <? 128); [discriminate|].
  destruct (c <? 2048); [discriminate|].
  destruct ((55296 <=? c) && (c <=? 57343)); [intros [= <-]; auto|].
  destruct (c <? 65536); discriminate.
Qed.

Lemma utf8_encode_ok c bytes :
  utf8_encode c = Ok bytes -> is_surrogate c = false.
Proof.
  unfold utf8_encode, is_surrogate.
  destruct (N.ltb_spec c 128).
  { intros _. apply andb_false_iff. left. apply N.leb_gt. lia. }
  destruct (N.ltb_spec c 2048).
  { intros _. apply andb_false_iff. left. apply N.leb_gt. lia. }
  destruct ((55296 <=? c) && (c <=? 57343)); [discriminate | reflexivity].
Qed.

Lemma escaped_bytes_safe bytes :
  Forall (fun b => b < 256) bytes ->
  Forall (fun c => is_query_safe c = true)
    (concat (map (fun b => [37; hex_digit (b / 16); hex_digit (b mod 16)]) bytes)).
Proof.
  induction 1 as [|b bytes Hb _ IH]; [constructor|].
  cbn [map concat app].
  assert (H1 : b / 16 < 16) by (apply N.Div0.div_lt_upper_bound; lia).
  assert (H2 : b mod 16 < 16) by (apply N.mod_upper_bound; lia).
  constructor; [reflexivity|].
  constructor; [unfold is_query_safe; now rewrite hex_digit_unreserved|].
  constructor; [unfold is_query_safe; now rewrite hex_digit_unreserved|].
  exact IH.
Qed.

(** X23.  The keyword in the search address.  The keyword is
    percent-encoded before it enters the address: the encoded text consists
    of unreserved characters, [+] and [%] only, so that no character of the
    keyword can end the query parameter or start another.  Encoding fails,
    with a [UnicodeEncodeError], exactly when the keyword holds a
    surrogate.  A keyword of unreserved characters and spaces is kept, its
    spaces turned into [+]. *)
Theorem keyword_query_is_safe (kw : str) :
  Forall (fun c => c < 1114112) kw ->
  match quote_plus kw with
  | Ok q =>
      Forall (fun c => is_query_safe c = true) q
      /\ Forall (fun c => is_surrogate c = false) kw
  | Raise e =>
      e = OtherError "UnicodeEncodeError"
      /\ Exists (fun c => is_surrogate c = true) kw
  end
  /\ (forallb (fun c => is_unreserved c || (c =? 32)) kw = true ->
      quote_plus kw = Ok (map (fun c => if c =? 32 then 43 else c) kw)).
Proof.
  induction 1 as [|c kw Hc Hkw [IH1 IH2]]; [repeat constructor|].
  split.
  - cbn [quote_plus].
    destruct (utf8_encode c) as [bytes|e] eqn:Hb; cbn [bind].
    2:{ apply utf8_encode_raises in Hb as [-> Hs]. split; [reflexivity|].
        now constructor. }
    pose proof (utf8_encode_ok _ _ Hb) as Hns.
    destruct (quote_plus kw) as [rest|e]; cbn [bind].
    2:{ destruct IH1 as [-> Hex]. split; [reflexivity | now constructor]. }
    destruct IH1 as [Hrest Hsur].
    destruct (is_unreserved c) eqn:Hu.
    { split; [|now constructor]. constructor; [|exact Hrest].
      unfold is_query_safe. now rewrite Hu. }
    destruct (c =? 32).
    { split; [|now constructor]. constructor; [reflexivity | exact Hrest]. }
    split; [|now constructor].
    apply Forall_app. split; [|exact Hrest].
    apply escaped_bytes_safe. exact (utf8_encode_bytes _ _ Hc Hb).
  - cbn [forallb]. intros [Hc1 Hall]%andb_true_iff.
    specialize (IH2 Hall). cbn [quote_plus map]. rewrite IH2.
    assert (Hascii : c < 128).
    { unfold is_unreserved, is_ascii_digit in Hc1.
      destruct (N.ltb_spec c 128) as [|Hge]; [assumption|]. exfalso.
      repeat match type of Hc1 with
      | context [(?a <=? ?b)] =>
          destruct (N.leb_spec a b); cbn [andb orb] in Hc1; try lia
      | context [(?a =? ?b)] =>
          destruct (N.eqb_spec a b); cbn [andb orb] in Hc1; try lia
      end; discriminate Hc1. }
    unfold utf8_encode. destruct (N.ltb_spec c 128); [|lia]. cbn [bind].
    destruct (is_unreserved c) eqn:Hu.
    + destruct (N.eqb_spec c 32) as [-> | _]; [discriminate Hu | reflexivity].
    + cbn [orb] in Hc1. now rewrite Hc1.
Qed.

End SearchQuery.

(** ** The statements on concrete pages *)

(** From here on the runtime is the one without tables beyond ASCII. *)
#[local] Existing Instance ascii_runtime.

(** *** InputNormalizer *)

Lemma normalize_input_defaults_witness :
  follows_schema sample_input = true
  /\ exists p, _normalize_input (rt := ascii_runtime) sample_input = Ok p
       /\ max_items_per_keyword p = 50%Z
       /\ max_pages p = 20%Z
       /\ max_detail_items p = 5%Z.
Proof.
  split; [vm_compute; reflexivity|].
  exact (normalize_input_defaults (rt := ascii_runtime) sample_input eq_refl).
Defined.

(** A negative [max_pages] becomes 1, not the default 3. *)
Lemma normalize_negative_max_pages :
  negative_pages_input !! lit "max_pages" = Some (PInt (-1))
  /\ exists p, _normalize_input (rt := ascii_runtime) negative_pages_input = Ok p
       /\ max_pages p = 1%Z /\ max_pages p <> 3%Z.
Proof.
  split; [vm_compute; reflexivity|].
  eexists. split; [vm_compute; reflexivity|]. split; [reflexivity | discriminate].
Qed.

(** A numeric field that does not parse makes normalization raise. *)
Example normalize_unparsable_raises :
  _normalize_input (rt := ascii_runtime) unparsable_pages_input = Raise ValueError.
Proof. vm_compute. reflexivity. Qed.

(** *** FieldExtractor *)

Lemma euro_card_parses :
  _parse_single_card (rt := ascii_runtime) euro_card de_origin None None false
  = Ok (Some euro_item).
Proof. vm_compute. reflexivity. Qed.

Lemma currency_field_rule_witness :
  _parse_single_card (rt := ascii_runtime) euro_card de_origin None None false
  = Ok (Some euro_item)
  /\ priceText euro_item = lit "92,14 €"
  /\ currency euro_item = [].
Proof.
  split; [exact euro_card_parses|]. split; [reflexivity|].
  exact (proj2 (proj2 (currency_field_rule (rt := ascii_runtime) _ _ _ _ _ _
                         euro_card_parses)) eq_refl).
Defined.

(** The price text ["92,14 €"] gives the empty currency, not ["€"]. *)
Lemma currency_trailing_symbol_lost :
  _parse_single_card (rt := ascii_runtime) euro_card de_origin None None false
  = Ok (Some euro_item)
  /\ priceText euro_item = lit "92,14 €"
  /\ currency euro_item = []
  /\ currency euro_item <> lit "€".
Proof.
  split; [exact euro_card_parses|]. split; [reflexivity|].
  split; [reflexivity | discriminate].
Qed.

#[warnings="-inexact-float"]
Lemma price_field_rule_witness :
  _parse_single_card (rt := ascii_runtime) euro_card de_origin None None false
  = Ok (Some euro_item)
  /\ priceText euro_item = lit "92,14 €"
  /\ price euro_item = Some (Prim2SF 92.14).
Proof.
  split; [exact euro_card_parses|]. split; [reflexivity|].
  exact (proj1 (proj2 (proj2 (proj2
           (price_field_rule (rt := ascii_runtime) _ _ _ _ _ _ euro_card_parses))))
           eq_refl eq_refl).
Defined.

Lemma product_url_rule_witness :
  _parse_single_card (rt := ascii_runtime) euro_card (base_url (lit "DE"))
    None None false = Ok (Some euro_item)
  /\ ~ In 63 (productUrl euro_item).
Proof.
  assert (H : _parse_single_card (rt := ascii_runtime) euro_card
                (base_url (lit "DE")) None None false = Ok (Some euro_item))
    by (vm_compute; reflexivity).
  split; [exact H|].
  exact (proj1 (product_url_rule (rt := ascii_runtime) _ _ _ _ _ _ H)).
Defined.

(** A link target that does not begin with [/] is kept relative. *)
Lemma product_url_stays_relative :
  _parse_single_card (rt := ascii_runtime) relative_card (base_url (lit "DE"))
    None None false = Ok (Some relative_item)
  /\ productUrl relative_item = lit "dp/B0TEST0001"
  /\ is_absolute_url (productUrl relative_item) = false.
Proof.
  split; [vm_compute; reflexivity|]. split; reflexivity.
Qed.

(** The reads of [full_card] that follow its title link succeed, and the
    text of the title link is not among them. *)
Lemma full_card_other_reads t :
  other_reads_succeed (with_title_text full_card t).
Proof.
  split; [|split; [|split; [|split]]].
  - intros sel [<- | [<- | [<- | [<- | [<- | []]]]]];
      eexists; vm_compute; reflexivity.
  - intros sel [<- | [<- | [<- | []]]]; eexists; vm_compute; reflexivity.
  - exists None. split; [reflexivity|]. intros _.
    eexists. vm_compute. reflexivity.
  - intros n j Hn Hj. vm_compute in Hn. injection Hn as <-.
    destruct j as [|j]; [|lia]. eexists. vm_compute. reflexivity.
  - intros n _. eexists. vm_compute. reflexivity.
Qed.

Lemma title_text_not_required_witness :
  text_content (first_match (card_locator (with_title_text full_card None)
                               sel_title)) = Ok None
  /\ (exists it,
        _parse_single_card (rt := ascii_runtime) (with_title_text full_card None)
          de_origin None None false = Ok (Some it)
        /\ title it = []
        /\ productUrl it = lit "https://www.amazon.de/dp/B0TEST0003")
  /\ _parse_single_card (rt := ascii_runtime) (with_title_text full_card None)
       de_origin None None false
     = Ok (Some (with_title full_record []))
  /\ _parse_single_card (rt := ascii_runtime) untargeted_card de_origin
       None None false = Ok None.
Proof.
  pose proof (title_text_not_required (rt := ascii_runtime)
                (with_title_text full_card None) de_origin None None false)
    as (Hrecord & _ & _ & _).
  pose proof (title_text_not_required (rt := ascii_runtime)
                untargeted_card de_origin None None false)
    as (_ & _ & Hhref & _).
  pose proof (title_text_not_required (rt := ascii_runtime)
                full_card de_origin None None false)
    as (_ & _ & _ & Hswap).
  assert (Hlink : has_title_link
                    (with_title_text full_card None)
                    (card_locator (with_title_text full_card None) sel_title)).
  { left. split; [reflexivity|]. exists O. vm_compute. reflexivity. }
  split; [vm_compute; reflexivity|]. split; [|split].
  - destruct (Hrecord (lit "B0TEST0003") _ None (lit "/dp/B0TEST0003?ref=sr_1_1")
                ltac:(vm_compute; reflexivity)
                ltac:(intros H; vm_compute in H; discriminate H)
                Hlink
                ltac:(vm_compute; reflexivity)
                ltac:(vm_compute; reflexivity)
                ltac:(intros H; vm_compute in H; discriminate H)
                (full_card_other_reads None))
      as (it & Hit & _ & Hempty & Hfull & _).
    exists it. split; [exact Hit|]. split; [apply Hempty; now left|].
    destruct Hfull as (_ & (el & t & href & Hel & _ & _ & Hh & _ & Hurl) & _).
    rewrite (has_title_link_unique _ _ _ Hel Hlink) in Hh.
    vm_compute in Hh. injection Hh as <-. rewrite Hurl.
    vm_compute. reflexivity.
  - apply (Hswap full_record None). vm_compute. reflexivity.
  - apply (Hhref (card_locator untargeted_card sel_title) None).
    + left. split; [reflexivity|]. exists O. vm_compute. reflexivity.
    + vm_compute. reflexivity.
    + reflexivity.
Defined.

(** A card whose title link is there and has a target, but which has no
    ASIN, gives no record; nor does one with an ASIN whose price element
    cannot be read. *)
Lemma linked_card_without_asin_discarded :
  has_title_link anonymous_card
    (card_locator anonymous_card sel_title)
  /\ get_attribute (first_match (card_locator anonymous_card sel_title))
       (lit "href") = Ok (Some (lit "/dp/B0TEST0003?ref=sr_1_1"))
  /\ _parse_single_card (rt := ascii_runtime) anonymous_card de_origin
       None None false = Ok None
  /\ has_title_link broken_price_card
       (card_locator broken_price_card sel_title)
  /\ get_attribute (first_match (card_locator broken_price_card sel_title))
       (lit "href") = Ok (Some (lit "/dp/B0TEST0003?ref=sr_1_1"))
  /\ card_attribute broken_price_card (lit "data-asin")
     = Ok (Some (lit "B0TEST0003"))
  /\ _parse_single_card (rt := ascii_runtime) broken_price_card de_origin
       None None false = Ok None.
Proof.
  split; [left; split; [reflexivity|]; exists O; vm_compute; reflexivity|].
  split; [vm_compute; reflexivity|]. split; [vm_compute; reflexivity|].
  split; [left; split; [reflexivity|]; exists O; vm_compute; reflexivity|].
  split; [vm_compute; reflexivity|]. split; [vm_compute; reflexivity|].
  vm_compute. reflexivity.
Qed.

Lemma extractor_record_or_discard_witness :
  _parse_single_card (rt := ascii_runtime) anonymous_card de_origin
    None None false = Ok None
  /\ read_fails broken_price_card
  /\ _parse_single_card (rt := ascii_runtime) broken_price_card de_origin
       None None false = Ok None
  /\ _parse_single_card (rt := ascii_runtime) full_card de_origin
       None None false = Ok (Some full_record)
  /\ fully_populated (rt := ascii_runtime) full_card de_origin full_record
  /\ _extract_product_cards (rt := ascii_runtime)
       [anonymous_card; broken_price_card; full_card]
       de_origin None None false = Ok [full_record].
Proof.
  pose proof (extractor_record_or_discard (rt := ascii_runtime) anonymous_card
                [] de_origin None None false) as (_ & Hasin & _).
  pose proof (extractor_record_or_discard (rt := ascii_runtime)
                broken_price_card [] de_origin None None false)
    as (_ & _ & _ & Hfail & _).
  pose proof (extractor_record_or_discard (rt := ascii_runtime) full_card
                [anonymous_card; broken_price_card; full_card]
                de_origin None None false) as (_ & _ & _ & _ & Hfull & Hbatch).
  assert (Hbroken : read_fails broken_price_card).
  { do 4 right. left. exists sel_price, PlaywrightError.
    split; [now left | vm_compute; reflexivity]. }
  assert (Hrecord : _parse_single_card (rt := ascii_runtime) full_card
                      de_origin None None false = Ok (Some full_record))
    by (vm_compute; reflexivity).
  split; [exact (Hasin None eq_refl eq_refl)|].
  split; [exact Hbroken|]. split; [exact (Hfail Hbroken)|].
  split; [exact Hrecord|]. split; [exact (proj1 (Hfull _ Hrecord))|].
  rewrite Hbatch. vm_compute. reflexivity.
Defined.

(** *** KeywordCrawler *)

Ltac all_qualify :=
  repeat (constructor;
          [split; [reflexivity | eexists; vm_compute; reflexivity] |]);
  constructor.

Lemma sample_page_serves cards next :
  serves (sample_page results_html cards next) cards.
Proof.
  split; [reflexivity|]. split; [reflexivity|].
  split; [exists results_html; split; [reflexivity | vm_compute; reflexivity]|].
  split; [reflexivity | intros j; reflexivity].
Qed.

Lemma crawl_budget_and_pages_witness :
  (0 <= 10)%Z /\ (0 <= 2)%Z
  /\ exists l s' r,
      _scrape_keyword (endless_pages seven_cards) (lit "phone case") (lit "US")
        10 2 None None false false 5 = (l, s', r)
      /\ count_events is_push l = 10%nat
      /\ total_collected s' = 10%Z.
Proof.
  split; [lia|]. split; [lia|].
  destruct (crawl_budget_and_pages (endless_pages seven_cards) (lit "phone case")
              (lit "US") 10 2 None None false false 5 ltac:(lia) ltac:(lia))
    as (_ & _ & Hexample).
  eapply (Hexample eq_refl ltac:(lia) (lit "phone+case")
            (sample_page results_html seven_cards (Some (lit "/s?k=case&page=2")))
            (sample_page results_html seven_cards (Some (lit "/s?k=case&page=2")))
            seven_cards seven_cards).
  - vm_compute. reflexivity.
  - reflexivity.
  - reflexivity.
  - apply sample_page_serves.
  - apply sample_page_serves.
  - reflexivity.
  - reflexivity.
  - unfold seven_cards. simpl map. all_qualify.
  - unfold seven_cards. simpl map. all_qualify.
  - reflexivity.
  - vm_compute. reflexivity.
Defined.

(** With [max_pages = 1] the loop is left with [page_index = 2]. *)
Lemma page_index_exceeds_max_pages :
  exists l s' r,
    _scrape_keyword (endless_pages seven_cards) (lit "phone case") (lit "US")
      10 1 None None false false 5 = (l, s', r)
    /\ page_index s' = 2%Z
    /\ ~ (page_index s' <= 1)%Z.
Proof.
  do 3 eexists. split; [vm_compute; reflexivity|].
  split; [reflexivity | cbn; lia].
Qed.

Lemma captcha_stops_keyword_witness :
  loop_guard 10 2 (initial_state (lit "u")) = true
  /\ looks_like_captcha captcha_html = true
  /\ crawl_from (fun _ => Ok (sample_page captcha_html seven_cards None))
       (lit "phone case") (lit "US") 10 2 None None false true 2 1 0
       (initial_state (lit "u"))
     = Some ([EvNewPage; EvGoto (lit "u"); EvContent; EvClose],
             initial_state (lit "u"), Ok tt).
Proof.
  assert (Hcap : looks_like_captcha captcha_html = true) by (vm_compute; reflexivity).
  split; [reflexivity|]. split; [exact Hcap|].
  exact (proj1 (captcha_stops_keyword
                  (fun _ => Ok (sample_page captcha_html seven_cards None))
                  (lit "phone case") (lit "US") 10 2 None None false true 2
                  0 0 (initial_state (lit "u"))
                  (sample_page captcha_html seven_cards None)
                  [EvGoto (lit "u")] captcha_html
                  eq_refl eq_refl eq_refl eq_refl Hcap)).
Defined.

(** When a detail page cannot be opened after an earlier visit, the
    [finally] of lines 456-460 closes the page of that visit once more; when
    none was opened before, there is nothing to close. *)
Example failed_detail_open_closes_previous :
  fst (fst (enrich_items 5 (one_detail_page []) false 0 0
              [full_record; full_record]))
  = [EvDetailNewPage; EvDetailGoto (productUrl full_record); EvDetailClose;
     EvDetailNewPage; EvDetailClose]
  /\ fst (fst (enrich_items 5 unreachable_page false 0 0 [full_record]))
     = [EvDetailNewPage]
  /\ fst (fst (enrich_items 5 unreachable_page true 0 0 [full_record]))
     = [EvDetailNewPage; EvDetailClose].
Proof. split; [|split]; vm_compute; reflexivity. Qed.

Lemma detail_enrichment_per_page_witness :
  exists l items',
    collect_page (lit "phone case") (lit "US") 10 None None false true 2
      (sample_page results_html five_cards None) (initial_state (lit "u"))
    = (l, Ok (Some items'))
    /\ (0 < 2)%Z
    /\ pushed_items l = items'
    /\ count_enriched items' = 2%nat.
Proof.
  eexists _, _. split; [vm_compute; reflexivity|]. split; [lia|].
  match goal with
  | |- pushed_items ?l = ?items /\ _ =>
      assert (H : collect_page (lit "phone case") (lit "US") 10 None None false
                    true 2 (sample_page results_html five_cards None)
                    (initial_state (lit "u")) = (l, Ok (Some items)))
        by (vm_compute; reflexivity);
      split;
        [exact (proj1 (detail_enrichment_per_page (lit "phone case") (lit "US")
                         10 None None false true 2 _ _ _ _ H eq_refl
                         ltac:(lia)))
        | vm_compute; reflexivity]
  end.
Defined.

(** With [max_detail_items = 1] and two pages of one record each, two
    records of the keyword are enriched. *)
Lemma detail_count_restarts_on_each_page :
  exists l s' r,
    _scrape_keyword (endless_pages [case_card 0]) (lit "phone case") (lit "US")
      10 2 None None false true 1 = (l, s', r)
    /\ count_enriched (pushed_items l) = 2%nat
    /\ ~ (Z.of_nat (count_enriched (pushed_items l)) <= 1)%Z.
Proof.
  do 3 eexists. split; [vm_compute; reflexivity|].
  match goal with
  | |- ?c = _ /\ _ =>
      assert (H : c = 2%nat) by (vm_compute; reflexivity);
      split; [exact H | rewrite H; lia]
  end.
Qed.

(** *** The keyword loop *)

Lemma keyword_failures_contained_witness :
  goto unreachable_page 1 = Raise PlaywrightError
  /\ snd (main (sample_world true) two_keywords_input) = Ok tt
  /\ started_keywords (fst (main (sample_world true) two_keywords_input))
     = [lit "usb hub"; lit "phone case"].
Proof.
  split; [reflexivity|].
  assert (Hn : exists p, _normalize_input two_keywords_input = Ok p
                         /\ keywords p = [lit "usb hub"; lit "phone case"])
    by (eexists; split; vm_compute; reflexivity).
  destruct Hn as (p & Hn & Hk).
  destruct (keyword_failures_contained (sample_world true) two_keywords_input
              p Hn eq_refl eq_refl) as ((l & Hmain & Hs) & _).
  - rewrite Hk. intros kw [<- | [<- | []]]; eexists; vm_compute; reflexivity.
  - intros [|k] i; eexists; split; reflexivity.
  - rewrite Hmain. cbn [fst snd]. split; [reflexivity|]. now rewrite Hs.
Defined.

(** When the search page of the first keyword cannot be opened, the second
    keyword is never crawled. *)
Lemma failed_page_open_aborts_keywords :
  search_pages (sample_world false) 0 0 = Raise PlaywrightError
  /\ exists p l,
      _normalize_input two_keywords_input = Ok p
      /\ keywords p = [lit "usb hub"; lit "phone case"]
      /\ main (sample_world false) two_keywords_input = (l, Raise PlaywrightError)
      /\ started_keywords l = [lit "usb hub"]
      /\ ~ In (lit "phone case") (started_keywords l).
Proof.
  split; [reflexivity|]. eexists _, _.
  split; [vm_compute; reflexivity|]. split; [vm_compute; reflexivity|].
  split; [vm_compute; reflexivity|]. split; [vm_compute; reflexivity|].
  vm_compute. intros [H | []]. discriminate H.
Qed.

(** *** Further statements on concrete pages *)

Lemma normalized_numbers_in_range_witness :
  exists p, _normalize_input (rt := ascii_runtime) sample_input = Ok p
    /\ (1 <= max_items_per_keyword p)%Z
    /\ (1 <= max_pages p <= 20)%Z
    /\ (1 <= max_detail_items p <= 50)%Z.
Proof.
  eexists. split; [vm_compute; reflexivity|].
  apply (normalized_numbers_in_range (rt := ascii_runtime) sample_input).
  vm_compute. reflexivity.
Defined.

Lemma normalized_keywords_clean_witness :
  exists p, _normalize_input (rt := ascii_runtime) sample_input = Ok p
    /\ keywords p <> []
    /\ keywords p = [lit "usb hub"].
Proof.
  eexists. split; [vm_compute; reflexivity|].
  match goal with
  | |- keywords ?p <> [] /\ _ =>
      destruct (normalized_keywords_clean (rt := ascii_runtime) sample_input p
                  ltac:(vm_compute; reflexivity)) as (Hne & _ & Hs)
  end.
  split; [exact Hne|].
  rewrite (Hs (lit " usb hub ") ltac:(vm_compute; reflexivity)).
  vm_compute. reflexivity.
Defined.

Lemma normalized_country_marketplace_witness :
  exists p, _normalize_input (rt := ascii_runtime) sample_input = Ok p
    /\ In (country p) countries
    /\ In (country p, _country_to_domain (country p)) marketplaces.
Proof.
  eexists. split; [vm_compute; reflexivity|].
  apply (normalized_country_marketplace (rt := ascii_runtime) sample_input).
  vm_compute. reflexivity.
Defined.

Lemma normalized_thresholds_witness :
  text_threshold_input !! lit "min_rating" = Some (PStr (lit "high"))
  /\ text_threshold_input !! lit "min_reviews" = Some (PStr (lit "12"))
  /\ exists p, _normalize_input (rt := ascii_runtime) text_threshold_input = Ok p
       /\ min_rating p = None
       /\ min_reviews p = Some 12%Z.
Proof.
  split; [vm_compute; reflexivity|]. split; [vm_compute; reflexivity|].
  eexists. split; [vm_compute; reflexivity|].
  match goal with
  | |- min_rating ?p = _ /\ _ =>
      destruct (normalized_thresholds (rt := ascii_runtime) text_threshold_input p
                  ltac:(vm_compute; reflexivity)) as (_ & Hr & Hv)
  end.
  split.
  - rewrite (Hr (lit "high") ltac:(vm_compute; reflexivity)).
    vm_compute. reflexivity.
  - rewrite (Hv (lit "12") ltac:(vm_compute; reflexivity)).
    vm_compute. reflexivity.
Defined.

Lemma normalize_input_errors_witness :
  _normalize_input (rt := ascii_runtime) unparsable_pages_input = Raise ValueError
  /\ (ValueError = TypeError \/ ValueError = ValueError
      \/ ValueError = OverflowError \/ ValueError = AttributeError).
Proof.
  split; [vm_compute; reflexivity|].
  apply (normalize_input_errors (rt := ascii_runtime) unparsable_pages_input).
  vm_compute. reflexivity.
Defined.

Lemma country_to_domain_table_witness :
  forallb is_ascii (lit "De") = true
  /\ _country_to_domain (lit "de") = lit "www.amazon.de"
  /\ _country_to_domain (lit "De") = lit "www.amazon.de".
Proof.
  split; [reflexivity|]. split; [vm_compute; reflexivity|].
  rewrite <- (proj2 (proj2 (country_to_domain_table (rt := ascii_runtime) (lit "De")))
                eq_refl).
  vm_compute. reflexivity.
Defined.

Lemma labelled_card_parses :
  _parse_single_card (rt := ascii_runtime) labelled_card de_origin None None false
  = Ok (Some labelled_item).
Proof. vm_compute. reflexivity. Qed.

Lemma filters_only_discard_witness :
  passes_filters None None true labelled_item = false
  /\ _parse_single_card (rt := ascii_runtime) labelled_card de_origin None None true
     = Ok None.
Proof.
  split; [reflexivity|].
  rewrite (filters_only_discard (rt := ascii_runtime) labelled_card de_origin
             None None true).
  rewrite labelled_card_parses. reflexivity.
Defined.

Lemma batch_respects_filters_witness :
  _extract_product_cards (rt := ascii_runtime) [labelled_card; euro_card]
    de_origin None (Some 2000%Z) false = Ok [euro_item]
  /\ Forall (fun it =>
               (forall m r, @None float = Some m -> rating it = Some r ->
                            float_ltb r m = false)
               /\ (forall m r, Some 2000%Z = Some m -> reviewsCount it = Some r ->
                               (m <= r)%Z)
               /\ (false = true -> isSponsored it = false)) [euro_item].
Proof.
  assert (H : _extract_product_cards (rt := ascii_runtime)
                [labelled_card; euro_card] de_origin None (Some 2000%Z) false
              = Ok [euro_item]) by (vm_compute; reflexivity).
  split; [exact H|].
  exact (batch_respects_filters (rt := ascii_runtime) _ _ _ _ _ _ H).
Defined.

Lemma badges_distinct_and_clean_witness :
  _parse_single_card (rt := ascii_runtime) labelled_card de_origin None None false
  = Ok (Some labelled_item)
  /\ badges labelled_item = [lit "Best Seller"]
  /\ List.NoDup (badges labelled_item).
Proof.
  split; [exact labelled_card_parses|]. split; [reflexivity|].
  exact (proj1 (badges_distinct_and_clean (rt := ascii_runtime) _ _ _ _ _ _
                  labelled_card_parses)).
Defined.

Lemma brand_never_badge_like_witness :
  _parse_single_card (rt := ascii_runtime) labelled_card de_origin None None false
  = Ok (Some labelled_item)
  /\ card_attribute labelled_card (lit "data-brand") = Ok (Some (lit " Anker "))
  /\ brand labelled_item = clear_badge_like (strip (lit " Anker "))
  /\ brand labelled_item = lit "Anker".
Proof.
  split; [exact labelled_card_parses|]. split; [reflexivity|].
  split; [|reflexivity].
  apply (proj2 (brand_never_badge_like (rt := ascii_runtime) _ _ _ _ _ _
                  labelled_card_parses) (lit " Anker ")).
  - reflexivity.
  - vm_compute. discriminate.
Defined.

Lemma text_fields_trimmed_witness :
  _parse_single_card (rt := ascii_runtime) euro_card de_origin None None false
  = Ok (Some euro_item)
  /\ title euro_item = lit "Case"
  /\ trimmed (title euro_item).
Proof.
  split; [exact euro_card_parses|]. split; [reflexivity|].
  exact (proj1 (text_fields_trimmed (rt := ascii_runtime) _ _ _ _ _ _
                  euro_card_parses)).
Defined.

Lemma reviews_count_ignores_separators_witness :
  first_text (card_locator labelled_card sel_reviews) = Ok (lit "1,234")
  /\ forallb is_grouped_digit (lit "1,234") = true
  /\ reviewsCount labelled_item = Some 1234%Z.
Proof.
  assert (Ht : first_text (card_locator labelled_card sel_reviews)
               = Ok (lit "1,234")) by (vm_compute; reflexivity).
  split; [exact Ht|]. split; [reflexivity|].
  rewrite (reviews_count_ignores_separators (rt := ascii_runtime) _ _ _ _ _ _ _
             labelled_card_parses Ht eq_refl).
  - vm_compute. reflexivity.
  - vm_compute. discriminate.
  - right. vm_compute. discriminate.
Defined.

Lemma navigation_retry_policy_witness :
  navigate slow_page (lit "u") (seq 1 max_nav_retries)
  = ([EvGoto (lit "u"); EvGoto (lit "u")], Ok tt)
  /\ exists k, (1 <= k <= 3)%nat
       /\ [EvGoto (lit "u"); EvGoto (lit "u")] = repeat (EvGoto (lit "u")) k.
Proof.
  split; [reflexivity|].
  destruct (navigation_retry_policy slow_page (lit "u")
              [EvGoto (lit "u"); EvGoto (lit "u")] (Ok tt) eq_refl)
    as (k & Hk & Hl & _).
  exists k. split; [exact Hk | exact Hl].
Defined.

Lemma search_pages_bracketed_witness :
  exists l s' r,
    _scrape_keyword (endless_pages seven_cards) (lit "phone case") (lit "US")
      10 2 None None false false 5 = (l, s', r)
    /\ page_lifecycle false l = Some false.
Proof.
  do 3 eexists. split; [vm_compute; reflexivity|].
  match goal with
  | |- page_lifecycle false ?l = _ =>
      destruct (search_pages_bracketed (endless_pages seven_cards)
                  (lit "phone case") (lit "US") 10 2 None None false false 5
                  l _ _ ltac:(vm_compute; reflexivity))
        as [H | (l' & e & j & _ & _ & Hj & _)]; [exact H | discriminate Hj]
  end.
Defined.

Lemma enrichment_keeps_record_witness :
  exists l items',
    collect_page (lit "phone case") (lit "US") 10 None None false true 2
      (sample_page results_html five_cards None) (initial_state (lit "u"))
    = (l, Ok (Some items'))
    /\ pushed_items l = items'
    /\ _extract_product_cards (take (Z.to_nat (10 - 0)) five_cards)
         (base_url (lit "US")) None None false
       = Ok (map search_fields items').
Proof.
  eexists _, _. split; [vm_compute; reflexivity|].
  match goal with
  | |- pushed_items ?l = ?items /\ _ =>
      destruct (enrichment_keeps_record (lit "phone case") (lit "US") 10
                  None None false true 2
                  (sample_page results_html five_cards None)
                  (initial_state (lit "u")) l items
                  ltac:(vm_compute; reflexivity))
        as (Hp & cards & Hc & Hex)
  end.
  split; [exact Hp|].
  injection Hc as <-. exact Hex.
Defined.

Lemma enrichment_fields_nonblank_witness :
  exists l s' r,
    _scrape_keyword (endless_pages [case_card 0]) (lit "phone case") (lit "US")
      10 2 None None false true 1 = (l, s', r)
    /\ count_enriched (pushed_items l) = 2%nat
    /\ Forall details_ok (pushed_items l).
Proof.
  do 3 eexists. split; [vm_compute; reflexivity|].
  split; [vm_compute; reflexivity|].
  match goal with
  | |- Forall details_ok (pushed_items ?l) =>
      exact (enrichment_fields_nonblank (endless_pages [case_card 0])
               (lit "phone case") (lit "US") 10 2 None None false true 1
               l _ _ ltac:(vm_compute; reflexivity))
  end.
Defined.

Lemma no_details_without_flag_witness :
  exists l s' r,
    _scrape_keyword (endless_pages [case_card 0]) (lit "phone case") (lit "US")
      10 2 None None false false 1 = (l, s', r)
    /\ count_events is_push l = 2%nat
    /\ count_events is_detail l = O.
Proof.
  do 3 eexists. split; [vm_compute; reflexivity|].
  split; [vm_compute; reflexivity|].
  match goal with
  | |- count_events is_detail ?l = _ =>
      exact (proj1 (no_details_without_flag (endless_pages [case_card 0])
                      (lit "phone case") (lit "US") 10 2 None None false false 1
                      l _ _ (or_introl eq_refl) ltac:(vm_compute; reflexivity)))
  end.
Defined.

Lemma pushes_carry_keyword_and_country_witness :
  exists p l r item,
    _normalize_input (rt := ascii_runtime) one_page_input = Ok p
    /\ main serving_world one_page_input = (l, r)
    /\ In (EvPush (lit "usb hub") (lit "US") 1 item) l
    /\ In (lit "usb hub") (keywords p)
    /\ lit "US" = country p.
Proof.
  eexists _, _, _, _. split; [vm_compute; reflexivity|].
  split; [vm_compute; reflexivity|].
  match goal with
  | |- In (EvPush ?kw ?c ?idx ?item) ?l /\ In _ (keywords ?p) /\ _ =>
      assert (Hin : In (EvPush kw c idx item) l)
        by (do 5 right; left; reflexivity);
      destruct (pushes_carry_keyword_and_country (rt := ascii_runtime)
                  serving_world one_page_input p l _
                  ltac:(vm_compute; reflexivity) ltac:(vm_compute; reflexivity)
                  kw c idx item Hin) as (Hk & Hc & _)
  end.
  split; [exact Hin|]. split; [exact Hk | exact Hc].
Defined.

Lemma keywords_started_in_order_witness :
  exists p l,
    _normalize_input (rt := ascii_runtime) two_keywords_input = Ok p
    /\ main (sample_world false) two_keywords_input = (l, Raise PlaywrightError)
    /\ keywords p = [lit "usb hub"; lit "phone case"]
    /\ started_keywords l = [lit "usb hub"]
    /\ exists n, started_keywords l = take n (keywords p).
Proof.
  eexists _, _. split; [vm_compute; reflexivity|].
  split; [vm_compute; reflexivity|].
  split; [vm_compute; reflexivity|].
  split; [vm_compute; reflexivity|].
  match goal with
  | |- exists n, started_keywords ?l = take n (keywords ?p) =>
      destruct (keywords_started_in_order (rt := ascii_runtime)
                  (sample_world false) two_keywords_input p l
                  (Raise PlaywrightError)
                  ltac:(vm_compute; reflexivity) ltac:(vm_compute; reflexivity))
        as (n & Hn & _)
  end.
  exists n. exact Hn.
Defined.

Lemma crawl_loop_terminates_witness :
  (2 + 1 - page_index (initial_state (lit "u")) <= Z.of_nat 2)%Z
  /\ (2 <= 5)%nat
  /\ exists l s' r,
      crawl_from (endless_pages seven_cards) (lit "phone case") (lit "US")
        10 2 None None false false 5 2 0 (initial_state (lit "u"))
      = Some (l, s', r)
      /\ crawl_from (endless_pages seven_cards) (lit "phone case") (lit "US")
           10 2 None None false false 5 5 0 (initial_state (lit "u"))
         = Some (l, s', r).
Proof.
  assert (H1 : (2 + 1 - page_index (initial_state (lit "u")) <= Z.of_nat 2)%Z)
    by (cbn; lia).
  assert (H2 : (2 <= 5)%nat) by lia.
  split; [exact H1|]. split; [exact H2|].
  exact (proj1 (crawl_loop_terminates (endless_pages seven_cards)
                  (lit "phone case") (lit "US") 10 2 None None false false 5
                  2 5 0 (initial_state (lit "u")) H1 H2)).
Defined.

Lemma no_budget_no_page_witness :
  quote_plus (lit "phone case") = Ok (lit "phone+case")
  /\ _scrape_keyword (endless_pages seven_cards) (lit "phone case") (lit "US")
       0 2 None None false false 5
     = ([EvStart (lit "phone case")
           (base_url (lit "US") ++ lit "/s?k=" ++ lit "phone+case")],
        initial_state (base_url (lit "US") ++ lit "/s?k=" ++ lit "phone+case"),
        Ok tt).
Proof.
  assert (Hq : quote_plus (lit "phone case") = Ok (lit "phone+case"))
    by (vm_compute; reflexivity).
  split; [exact Hq|].
  assert (H0 : (0 <= 0)%Z \/ (2 <= 0)%Z) by (left; lia).
  exact (no_budget_no_page (endless_pages seven_cards) (lit "phone case")
           (lit "US") 0 2 None None false false 5 (lit "phone+case") H0 Hq).
Defined.

Lemma total_collected_counts_pushes_witness :
  exists l s' r,
    _scrape_keyword (endless_pages seven_cards) (lit "phone case") (lit "US")
      10 2 None None false false 5 = (l, s', r)
    /\ total_collected s' = 10%Z
    /\ total_collected s' = Z.of_nat (count_events is_push l).
Proof.
  do 3 eexists. split; [vm_compute; reflexivity|].
  split; [reflexivity|].
  match goal with
  | |- total_collected ?s = Z.of_nat (count_events is_push ?l) =>
      apply (proj2 (total_collected_counts_pushes (endless_pages seven_cards)
                      (lit "phone case") (lit "US") 10 2 None None false false 5
                      l s _ ltac:(vm_compute; reflexivity)))
  end.
  intros j page k [= <-]. reflexivity.
Defined.

Lemma keyword_query_is_safe_witness :
  Forall (fun c => c < 1114112) (lit "phone case")
  /\ quote_plus (lit "phone case") = Ok (lit "phone+case").
Proof.
  assert (H : Forall (fun c => c < 1114112) (lit "phone case"))
    by (repeat constructor).
  split; [exact H|].
  rewrite (proj2 (keyword_query_is_safe (lit "phone case") H) eq_refl).
  reflexivity.
Defined.
